(** * fastify-postgres: the pooled client wrapper and its lifecycle

    A shallow embedding of the [Database] handler of fastify-postgres.  The
    repository holds four generations of database.js, and each is embedded
    under a name of its own:

    - [Plain]     : src/database.js (the marker [patched], no transactions);
    - [Listed]    : src/unnamed/part_000, lines 1-189 (markers on the
                    methods, clients listed in [request.dbClients]);
    - [Tx], [TxHandler] : src/unnamed/part_001 ([beginTransaction],
                    [commitTransaction], [rollbackTransactionIfNotCommitted]
                    and a [release] that is not [async]);
    - [AsyncTx]   : src/unnamed/part_000, lines 190-453
                    ([asyncBeginTransaction], [asyncCommitTransaction],
                    [asyncTryRollback] and an [async] [release]).

    The patched [query] of part_000 and part_001 is the same text in the
    three places and is embedded once, as [call_query].

    The methods are terms of a small resumption type [Async]: reads and
    writes of the object the method is called on, calls of the collaborators
    (logger, timers, pool), an awaited call of the driver, and the call of
    an [async] function whose promise is dropped.  The collaborators that
    are not part of the repository (the driver with the rewriter of named
    parameters, the pool) are the oracles of an environment [Env].  A run
    keeps, in program order, every event and every write, so that the order
    of steps and what is in flight at each moment can be stated.

    The hooks [onSend] and [onError], the callbacks of the leak timers and
    the pool-level [Database.query] follow the handlers, over the same
    types.  Not embedded: the plugin of src/plugin.js, the constructor, and
    the callback of the timer of the [async] generation, which calls the
    [async] [release] and does not await it. *)

From Stdlib Require Import ZArith Ascii String List Bool Lia.
From stdpp Require Import base decidable option list gmap strings.
Import ListNotations.
Open Scope string_scope.
Open Scope list_scope.

Set Primitive Projections.

(** ** JavaScript values *)

#[warnings="-register-all"]
Inductive Value : Type :=
| VUndefined
| VNull
| VBool (b : bool)
| VNum (n : Z)
| VStr (s : string)
| VError (message : string)
| VRef (r : nat)
| VObj (fields : list (string * Value)).

(** [ToBoolean]: what [if (x)] and [!x] look at. *)
Definition truthy (v : Value) : bool :=
  match v with
  | VUndefined | VNull => false
  | VBool b => b
  | VNum n => negb (n =? 0)%Z
  | VStr s => negb (s =? "")%string
  | VError _ | VRef _ | VObj _ => true
  end.

(** How a call ends: [return v] (a promise resolved with [v]) or [throw e]
    (a promise rejected with [e]). *)
Inductive Completion : Type :=
| Normal (v : Value)
| Raised (e : Value).

(** ** What the wrapper does to the outside world *)

Inductive Level : Type := LTrace | LWarn | LError.

(** The two asynchronous calls into collaborators. *)
Inductive Call : Type :=
| Query (text : string) (params : Value)
| PoolConnect.

Inductive Event : Type :=
| Log (lvl : Level) (msg : string) (data : Value)
| Dispatch (c : Call)
| Settle (c : Call) (o : Completion)
| SetTimeout (h : nat) (ms : Z)
| ClearTimeout (h : nat)
| NativeRelease (o : Completion)
| CleanupWork (client : Value) (label : string)
| Unhandled (e : Value).

(** ** The client object *)

(** [client.query] is a function value.  [NativeQuery] is the driver's own
    method, [NamedQuery old] the wrapper that the external
    [patchNamedParameters] puts around [old], and [PatchedQuery old] the
    closure that [patchClient] creates over [oldQueryMethod = old]. *)
Inductive QueryMethod : Type :=
| NativeQuery
| NamedQuery (old : QueryMethod)
| PatchedQuery (old : QueryMethod).

(** [client.release]: the pool's own release, or the closure of
    [patchClient] over [oldReleaseMethod]. *)
Inductive ReleaseMethod : Type :=
| PoolRelease
| PatchedRelease (old : ReleaseMethod).

Record Client : Type := mkClient {
  uniqueId : Value;
  patched : bool;
  namedParameters : bool;
  lastQuery : option (string * Value);
  isQueryRunning : bool;
  isWithinTransaction : bool;
  sanityTimeout : option nat;
  query : QueryMethod;
  release : ReleaseMethod;
  methods : gset string
}.

(** A connection as the pool creates it. *)
Definition rawClient : Client :=
  mkClient VUndefined false false None false false None NativeQuery PoolRelease ∅.

Definition set_uniqueId (v : Value) (c : Client) : Client :=
  mkClient v (patched c) (namedParameters c) (lastQuery c) (isQueryRunning c)
    (isWithinTransaction c) (sanityTimeout c) (query c) (release c) (methods c).
Definition set_patched (b : bool) (c : Client) : Client :=
  mkClient (uniqueId c) b (namedParameters c) (lastQuery c) (isQueryRunning c)
    (isWithinTransaction c) (sanityTimeout c) (query c) (release c) (methods c).
Definition set_namedParameters (b : bool) (c : Client) : Client :=
  mkClient (uniqueId c) (patched c) b (lastQuery c) (isQueryRunning c)
    (isWithinTransaction c) (sanityTimeout c) (query c) (release c) (methods c).
Definition set_lastQuery (q : option (string * Value)) (c : Client) : Client :=
  mkClient (uniqueId c) (patched c) (namedParameters c) q (isQueryRunning c)
    (isWithinTransaction c) (sanityTimeout c) (query c) (release c) (methods c).
Definition set_isQueryRunning (b : bool) (c : Client) : Client :=
  mkClient (uniqueId c) (patched c) (namedParameters c) (lastQuery c) b
    (isWithinTransaction c) (sanityTimeout c) (query c) (release c) (methods c).
Definition set_isWithinTransaction (b : bool) (c : Client) : Client :=
  mkClient (uniqueId c) (patched c) (namedParameters c) (lastQuery c)
    (isQueryRunning c) b (sanityTimeout c) (query c) (release c) (methods c).
Definition set_sanityTimeout (t : option nat) (c : Client) : Client :=
  mkClient (uniqueId c) (patched c) (namedParameters c) (lastQuery c)
    (isQueryRunning c) (isWithinTransaction c) t (query c) (release c) (methods c).
Definition set_query (q : QueryMethod) (c : Client) : Client :=
  mkClient (uniqueId c) (patched c) (namedParameters c) (lastQuery c)
    (isQueryRunning c) (isWithinTransaction c) (sanityTimeout c) q (release c)
    (methods c).
Definition set_release (r : ReleaseMethod) (c : Client) : Client :=
  mkClient (uniqueId c) (patched c) (namedParameters c) (lastQuery c)
    (isQueryRunning c) (isWithinTransaction c) (sanityTimeout c) (query c) r
    (methods c).
Definition set_methods (m : gset string) (c : Client) : Client :=
  mkClient (uniqueId c) (patched c) (namedParameters c) (lastQuery c)
    (isQueryRunning c) (isWithinTransaction c) (sanityTimeout c) (query c)
    (release c) m.

(** [f.methodWasPatched_] of the function values above. *)
Definition queryWasPatched (q : QueryMethod) : bool :=
  match q with PatchedQuery _ => true | _ => false end.
Definition releaseWasPatched (r : ReleaseMethod) : bool :=
  match r with PatchedRelease _ => true | PoolRelease => false end.

(** ** Asynchronous code over a mutable object of type [S]

    [Get] and [Put] read and write the object; [Emit] is a call that
    returns nothing of interest ([logger], [clearTimeout],
    [addCleanupWork]); [Await c k] hands [c] to the driver or the pool and
    awaits the answer; [Native k] is the pool's own [release], which
    returns at once; [NewTimer ms k] is [setTimeout(..., ms)] and gives the
    handle to [k]; [Fork t k] calls the [async] function [t] without
    awaiting it and goes on with [k]. *)

Inductive Async (S : Type) : Type :=
| Ret (v : Value)
| Throw (e : Value)
| Get (k : S -> Async S)
| Put (s : S) (k : Async S)
| Emit (e : Event) (k : Async S)
| Await (c : Call) (k : Completion -> Async S)
| Native (k : Completion -> Async S)
| NewTimer (ms : Z) (k : nat -> Async S)
| Fork (t : Async S) (k : Async S).

Arguments Ret {S} v.
Arguments Throw {S} e.
Arguments Get {S} k.
Arguments Put {S} s k.
Arguments Emit {S} e k.
Arguments Await {S} c k.
Arguments Native {S} k.
Arguments NewTimer {S} ms k.
Arguments Fork {S} t k.

(** [const x = await t; f x] *)
Fixpoint bind {S} (t : Async S) (f : Value -> Async S) : Async S :=
  match t with
  | Ret v => f v
  | Throw e => Throw e
  | Get k => Get (fun s => bind (k s) f)
  | Put s k => Put s (bind k f)
  | Emit e k => Emit e (bind k f)
  | Await c k => Await c (fun o => bind (k o) f)
  | Native k => Native (fun o => bind (k o) f)
  | NewTimer ms k => NewTimer ms (fun h => bind (k h) f)
  | Fork t' k => Fork t' (bind k f)
  end.

(** [try { t } catch (err) { h err }] *)
Fixpoint catch {S} (t : Async S) (h : Value -> Async S) : Async S :=
  match t with
  | Ret v => Ret v
  | Throw e => h e
  | Get k => Get (fun s => catch (k s) h)
  | Put s k => Put s (catch k h)
  | Emit e k => Emit e (catch k h)
  | Await c k => Await c (fun o => catch (k o) h)
  | Native k => Native (fun o => catch (k o) h)
  | NewTimer ms k => NewTimer ms (fun n => catch (k n) h)
  | Fork t' k => Fork t' (catch k h)
  end.

(** [try { t } finally { f }]: [f] runs on both exits and keeps the
    completion of [t] unless [f] itself throws. *)
Fixpoint finally {S} (t : Async S) (f : Async S) : Async S :=
  match t with
  | Ret v => bind f (fun _ => Ret v)
  | Throw e => bind f (fun _ => Throw e)
  | Get k => Get (fun s => finally (k s) f)
  | Put s k => Put s (finally k f)
  | Emit e k => Emit e (finally k f)
  | Await c k => Await c (fun o => finally (k o) f)
  | Native k => Native (fun o => finally (k o) f)
  | NewTimer ms k => NewTimer ms (fun n => finally (k n) f)
  | Fork t' k => Fork t' (finally k f)
  end.

Notation "'const' x ':=' 'await' t ; k" := (bind t (fun x => k))
  (at level 10, x name, t at level 100, k at level 200).
Notation "'await' t ; k" := (bind t (fun _ => k))
  (at level 10, t at level 100, k at level 200).
Notation "'do' t ; k" := (bind t (fun _ => k))
  (at level 10, t at level 100, k at level 200).

(** [await p] of a promise settled with [o]. *)
Definition settled {S} (o : Completion) : Async S :=
  match o with Normal v => Ret v | Raised e => Throw e end.

(** [this.f = v] and [logger.level(msg, data)] as statements. *)
Definition modify {S} (f : S -> S) : Async S :=
  Get (fun s => Put (f s) (Ret VUndefined)).
Definition log {S} (lvl : Level) (msg : string) (data : Value) : Async S :=
  Emit (Log lvl msg data) (Ret VUndefined).

(** ** Running asynchronous code *)

(** The collaborators outside the repository.  [driver] answers a call that
    is awaited (a statement handed to the driver's query method, or
    [pool.connect()]) from everything that happened so far; [pool_release]
    is the pool's own release, which may throw on a double release. *)
Record Env : Type := mkEnv {
  driver : list Event -> Call -> Completion;
  pool_release : list Event -> Completion
}.

(** The history of a run keeps the events and every write to the object, in
    program order. *)
Inductive Entry (S : Type) : Type :=
| Did (e : Event)
| Stored (s : S).
Arguments Did {S} e.
Arguments Stored {S} s.

(** A call that was dispatched by a function nobody awaits, with the rest of
    that function. *)
Record Floating (S : Type) : Type := mkFloating {
  fl_call : Call;
  fl_resume : Completion -> Async S
}.
Arguments mkFloating {S} _ _.
Arguments fl_call {S} _.
Arguments fl_resume {S} _.

Record World (S : Type) : Type := mkWorld {
  state : S;
  history : list (Entry S);
  floating : list (Floating S)
}.
Arguments mkWorld {S} _ _ _.
Arguments state {S} _.
Arguments history {S} _.
Arguments floating {S} _.

Definition start {S} (s : S) : World S := mkWorld s [] [].

Fixpoint events {S} (h : list (Entry S)) : list Event :=
  match h with
  | [] => []
  | Did e :: h' => e :: events h'
  | Stored _ :: h' => events h'
  end.

Definition did {S} (e : Event) (w : World S) : World S :=
  mkWorld (state w) (history w ++ [Did e]) (floating w).
Definition store {S} (s : S) (w : World S) : World S :=
  mkWorld s (history w ++ [Stored s]) (floating w).
Definition float {S} (c : Call) (k : Completion -> Async S) (w : World S) : World S :=
  mkWorld (state w) (history w) (floating w ++ [mkFloating c k]).
Definition past {S} (w : World S) : list Event := events (history w).

(** Where a function stands when control returns to its caller. *)
Inductive Status (S : Type) : Type :=
| Finished (o : Completion)
| Suspended (c : Call) (k : Completion -> Async S).
Arguments Finished {S} o.
Arguments Suspended {S} c k.

(** The caller of an un-awaited [async] function goes on as soon as the
    callee suspends; a rejection of the dropped promise is unhandled. *)
Definition detach {S} (r : Status S * World S) : World S :=
  match r with
  | (Finished (Normal _), w) => w
  | (Finished (Raised e), w) => did (Unhandled e) w
  | (Suspended c k, w) => float c k w
  end.

Section Semantics.
Context {S : Type} (env : Env).

(** [prefix t w]: the synchronous part of [t], up to its first [await] of
    a collaborator. *)
Fixpoint prefix (t : Async S) (w : World S) : Status S * World S :=
  match t with
  | Ret v => (Finished (Normal v), w)
  | Throw e => (Finished (Raised e), w)
  | Get k => prefix (k (state w)) w
  | Put s k => prefix k (store s w)
  | Emit e k => prefix k (did e w)
  | Await c k => (Suspended c k, did (Dispatch c) w)
  | Native k =>
      let o := pool_release env (past w) in
      prefix (k o) (did (NativeRelease o) w)
  | NewTimer ms k =>
      let h := length (history w) in
      prefix (k h) (did (SetTimeout h ms) w)
  | Fork t' k => prefix k (detach (prefix t' w))
  end.

(** [exec t w]: [t] run to completion by a caller that awaits it; every
    awaited call is answered by the driver before anything else runs. *)
Fixpoint exec (t : Async S) (w : World S) : Completion * World S :=
  match t with
  | Ret v => (Normal v, w)
  | Throw e => (Raised e, w)
  | Get k => exec (k (state w)) w
  | Put s k => exec k (store s w)
  | Emit e k => exec k (did e w)
  | Await c k =>
      let w1 := did (Dispatch c) w in
      let o := driver env (past w1) c in
      exec (k o) (did (Settle c o) w1)
  | Native k =>
      let o := pool_release env (past w) in
      exec (k o) (did (NativeRelease o) w)
  | NewTimer ms k =>
      let h := length (history w) in
      exec (k h) (did (SetTimeout h ms) w)
  | Fork t' k => exec k (detach (prefix t' w))
  end.

(** The event loop delivers the answer to the oldest floating call and
    runs the rest of the function that was waiting for it. *)
Definition resume (w : World S) : World S :=
  match floating w with
  | [] => w
  | f :: rest =>
      let o := driver env (past w) (fl_call f) in
      let w1 := mkWorld (state w) (history w ++ [Did (Settle (fl_call f) o)]) rest in
      match exec (fl_resume f o) w1 with
      | (Normal _, w2) => w2
      | (Raised e, w2) => did (Unhandled e) w2
      end
  end.
End Semantics.

(** *** Statements in flight *)

Definition call_eqb (a b : Call) : bool :=
  match a, b with
  | Query t _, Query t' _ => (t =? t')%string
  | PoolConnect, PoolConnect => true
  | _, _ => false
  end.

Fixpoint settle_one (c : Call) (fl : list Call) : list Call :=
  match fl with
  | [] => []
  | c' :: fl' => if call_eqb c c' then fl' else c' :: settle_one c fl'
  end.

(** The calls in flight after an event. *)
Definition fly (e : Event) (fl : list Call) : list Call :=
  match e with
  | Dispatch c => fl ++ [c]
  | Settle c _ => settle_one c fl
  | _ => fl
  end.

Definition in_flight (evs : list Event) : list Call :=
  fold_left (fun fl e => fly e fl) evs [].

(** Every moment of a run: the object and the calls in flight, after each
    entry of the history. *)
Fixpoint moments {S} (s : S) (fl : list Call) (h : list (Entry S)) : list (S * list Call) :=
  match h with
  | [] => []
  | Did e :: h' => (s, fly e fl) :: moments s (fly e fl) h'
  | Stored s' :: h' => (s', fl) :: moments s' fl h'
  end.

Definition is_statement (text : string) (c : Call) : bool :=
  match c with
  | Query t _ => (t =? text)%string
  | PoolConnect => false
  end.

Definition dispatches (text : string) (e : Event) : bool :=
  match e with
  | Dispatch c => is_statement text c
  | _ => false
  end.

Fixpoint count (p : Event -> bool) (evs : list Event) : nat :=
  match evs with
  | [] => 0
  | e :: evs' => if p e then S (count p evs') else count p evs'
  end.

(** How many times a stretch of events hands the statement [text] to the
    driver. *)
Definition dispatched (text : string) (evs : list Event) : nat :=
  count (dispatches text) evs.

Definition arms_timer (e : Event) : bool :=
  match e with SetTimeout _ _ => true | _ => false end.

Definition is_dispatch (e : Event) : bool :=
  match e with Dispatch _ => true | _ => false end.

(** ** The text kept for diagnostics

    [text.replace(/[ \n\r\t]+/gi, " ").replace(/^\s+|\s+$/g, "")].  The text
    is a string of code units below 256, which covers the SQL handed to the
    wrapper; among those [\s] matches tab, line feed, vertical tab, form
    feed, carriage return, space and the no-break space. *)

Definition is_blank (a : ascii) : bool :=
  (a =? " ")%char || (a =? "010")%char || (a =? "013")%char || (a =? "009")%char.

Definition is_space (a : ascii) : bool :=
  (a =? "009")%char || (a =? "010")%char || (a =? "011")%char || (a =? "012")%char
  || (a =? "013")%char || (a =? " ")%char || (a =? "160")%char.

(** [replace(/[ \n\r\t]+/gi, " ")]: every maximal run becomes one space;
    [inrun] tells that the character before was part of a run. *)
Fixpoint collapse (inrun : bool) (s : string) : string :=
  match s with
  | EmptyString => EmptyString
  | String a s' =>
      if is_blank a
      then if inrun then collapse true s' else String " " (collapse true s')
      else String a (collapse false s')
  end.

(** [replace(/^\s+|\s+$/g, "")]: the run at the start and the run at the
    end go. *)
Fixpoint drop_leading (s : string) : string :=
  match s with
  | EmptyString => EmptyString
  | String a s' => if is_space a then drop_leading s' else s
  end.

Fixpoint drop_trailing (s : string) : string :=
  match s with
  | EmptyString => EmptyString
  | String a s' =>
      match drop_trailing s' with
      | EmptyString => if is_space a then EmptyString else String a EmptyString
      | r => String a r
      end
  end.

Definition trimmedText (text : string) : string :=
  drop_trailing (drop_leading (collapse false text)).

(** What "whitespace-normalised" means for a stored text: no tab, line feed
    or carriage return is left, no two spaces are adjacent, and neither end
    is white space. *)
Fixpoint tidy (after_blank : bool) (s : string) : bool :=
  match s with
  | EmptyString => true
  | String a s' =>
      if is_blank a
      then (a =? " ")%char && negb after_blank && tidy true s'
      else tidy false s'
  end.

Definition starts_with_space (s : string) : bool :=
  match s with
  | EmptyString => false
  | String a _ => is_space a
  end.

Fixpoint ends_with_space (s : string) : bool :=
  match s with
  | EmptyString => false
  | String a EmptyString => is_space a
  | String _ s' => ends_with_space s'
  end.

Definition normalized (s : string) : bool :=
  tidy false s && negb (starts_with_space s) && negb (ends_with_space s).

(** The text without any white space: what normalisation must not touch. *)
Fixpoint squeeze (s : string) : string :=
  match s with
  | EmptyString => EmptyString
  | String a s' => if is_space a then squeeze s' else String a (squeeze s')
  end.

(** ** Calling the methods of the client *)

(** [this.name(...)] where [name] is one of the transaction methods that
    [patchClient] installs: the call throws when the property is missing. *)
Definition not_a_function (name : string) : Value :=
  VError ("TypeError: this." ++ name ++ " is not a function").

Definition method (name : string) (body : Async Client) : Async Client :=
  Get (fun this =>
    if decide (name ∈ methods this) then body else Throw (not_a_function name)).

(** The same call when the caller drops the promise. *)
Definition unawaited (name : string) (body : Async Client) (k : Async Client) : Async Client :=
  Get (fun this =>
    if decide (name ∈ methods this) then Fork body k else Throw (not_a_function name)).

(** [if (this.sanityTimeout) { clearTimeout(this.sanityTimeout);
    this.sanityTimeout = null; }] *)
Definition clearSanityTimeout : Async Client :=
  Get (fun this =>
    match sanityTimeout this with
    | Some h => Emit (ClearTimeout h) (modify (set_sanityTimeout None))
    | None => Ret VUndefined
    end).

(** Modelled from the spec: [patchNamedParameters] of ./named_parameters,
    which is not among the sources.  It is applied once per client and puts
    the rewriter of named placeholders around [client.query]; what the
    wrapped method does with a text is the driver's answer in [Env]. *)
Definition patchNamedParameters (client : Client) : Client :=
  set_query (NamedQuery (query client)) client.

(** [if (!old || !old.methodWasPatched_) { client[name] = ...;
    client[name].methodWasPatched_ = true; }] *)
Definition install (name : string) (client : Client) : Client :=
  if decide (name ∈ methods client) then client
  else set_methods ({[name]} ∪ methods client) client.

(** ** The patched [query] of part_000 and part_001

    part_001, lines 154-167; the same text is at lines 143-157 and 347-360
    of part_000.  [oldQueryMethod] is what [client.query] was when
    [patchClient] ran; a method that is not one of these closures belongs to
    the driver, and calling it hands the statement over. *)
Fixpoint call_query (m : QueryMethod) (text : string) (params : Value) : Async Client :=
  match m with
  | NativeQuery | NamedQuery _ => Await (Query text params) settled
  | PatchedQuery oldQueryMethod =>
      do modify (set_lastQuery (Some (trimmedText text, params)));
      do modify (set_isQueryRunning true);
      finally
        (catch
           (const result := await call_query oldQueryMethod text params;
            Ret result)
           (fun err =>
              do log LError "Database query error" (VObj [("error", err)]);
              Throw err))
        (modify (set_isQueryRunning false))
  end.

(** [this.query(text, params)] *)
Definition this_query (text : string) (params : Value) : Async Client :=
  Get (fun this => call_query (query this) text params).

(** ** part_001: transactions with a synchronous [release] *)
Module Tx.

(** lines 237-244 *)
Definition rollbackTransactionIfNotCommitted : Async Client :=
  Get (fun this =>
    if isWithinTransaction this then
      do modify (set_isWithinTransaction false);
      do log LWarn "Rolling back transaction" VUndefined;
      await this_query "rollback" VUndefined;
      Ret VUndefined
    else Ret VUndefined).

(** lines 177-191: [release] is not [async], and the promise of
    [this.rollbackTransactionIfNotCommitted()] is dropped. *)
Fixpoint call_release (m : ReleaseMethod) : Async Client :=
  match m with
  | PoolRelease => Native settled
  | PatchedRelease oldReleaseMethod =>
      Get (fun this =>
        do log LTrace "Releasing client" (VObj [("id", uniqueId this)]);
        unawaited "rollbackTransactionIfNotCommitted" rollbackTransactionIfNotCommitted
          (do modify (set_isQueryRunning false);
           do clearSanityTimeout;
           call_release oldReleaseMethod))
  end.

(** [this.release()] *)
Definition this_release : Async Client :=
  Get (fun this => call_release (release this)).

(** lines 201-209 *)
Definition beginTransaction : Async Client :=
  Get (fun this =>
    if isWithinTransaction this then
      do log LError "Tried to start transaction in transaction" VUndefined;
      Ret (VBool false)
    else
      do log LTrace "begin transaction" VUndefined;
      await this_query "begin" VUndefined;
      do modify (set_isWithinTransaction true);
      Ret VUndefined).

(** lines 219-227 *)
Definition commitTransaction : Async Client :=
  Get (fun this =>
    if negb (isWithinTransaction this) then
      do log LError "Tried to commit transaction outside of transaction" VUndefined;
      Ret (VBool false)
    else
      do modify (set_isWithinTransaction false);
      await this_query "commit" VUndefined;
      Ret VUndefined).

(** lines 136-249 *)
Definition patchClient (client : Client) : Client :=
  let client :=
    if namedParameters client then client
    else patchNamedParameters (set_namedParameters true client) in
  let oldQueryMethod := query client in
  let client :=
    if queryWasPatched oldQueryMethod then client
    else set_query (PatchedQuery oldQueryMethod) client in
  let oldReleaseMethod := release client in
  let client :=
    if releaseWasPatched oldReleaseMethod then client
    else set_release (PatchedRelease oldReleaseMethod) client in
  let client := install "beginTransaction" client in
  let client := install "commitTransaction" client in
  install "rollbackTransactionIfNotCommitted" client.

End Tx.

(** ** part_000, lines 190-453: [async] transaction methods *)
Module AsyncTx.

(** lines 433-442 *)
Definition asyncTryRollback : Async Client :=
  Get (fun this =>
    do log LTrace "Called rollbackIfNotCommitted, within transaction = "
         (VObj [("0", VBool (isWithinTransaction this));
                ("1", VStr "on client with id"); ("2", uniqueId this)]);
    if isWithinTransaction this then
      do log LWarn "ROLLBACK <" (uniqueId this);
      do modify (set_isWithinTransaction false);
      await this_query "rollback" VUndefined;
      do Get (fun this => log LWarn "ROLLBACK < Done" (uniqueId this));
      Ret VUndefined
    else Ret VUndefined).

(** lines 370-384: [release] is [async] and awaits the rollback. *)
Fixpoint call_release (m : ReleaseMethod) : Async Client :=
  match m with
  | PoolRelease => Native settled
  | PatchedRelease oldReleaseMethod =>
      Get (fun this =>
        do log LTrace "Releasing client" (VObj [("id", uniqueId this)]);
        await method "asyncTryRollback" asyncTryRollback;
        do modify (set_isQueryRunning false);
        do clearSanityTimeout;
        call_release oldReleaseMethod)
  end.

(** [this.release()] *)
Definition this_release : Async Client :=
  Get (fun this => call_release (release this)).

(** lines 394-403 *)
Definition asyncBeginTransaction : Async Client :=
  Get (fun this =>
    if isWithinTransaction this then
      do log LError "Tried to start transaction in transaction" VUndefined;
      Ret (VBool false)
    else
      do log LTrace "BEGIN <" (uniqueId this);
      do modify (set_isWithinTransaction true);
      await this_query "begin" VUndefined;
      do Get (fun this => log LTrace "BEGIN < Done" (uniqueId this));
      Ret VUndefined).

(** lines 413-423; line 419 reads "Note: Thsi must come before the async
    call!" and the write of [isWithinTransaction] follows the call. *)
Definition asyncCommitTransaction : Async Client :=
  Get (fun this =>
    if negb (isWithinTransaction this) then
      do log LError "Tried to commit transaction outside of transaction on client"
           (uniqueId this);
      Ret (VBool false)
    else
      do log LTrace "COMMIT <" (uniqueId this);
      await this_query "commit" VUndefined;
      do modify (set_isWithinTransaction false);
      do Get (fun this => log LTrace "COMMIT < Done" (uniqueId this));
      Ret VUndefined).

(** lines 329-447 *)
Definition patchClient (client : Client) : Client :=
  let client :=
    if namedParameters client then client
    else patchNamedParameters (set_namedParameters true client) in
  let oldQueryMethod := query client in
  let client :=
    if queryWasPatched oldQueryMethod then client
    else set_query (PatchedQuery oldQueryMethod) client in
  let oldReleaseMethod := release client in
  let client :=
    if releaseWasPatched oldReleaseMethod then client
    else set_release (PatchedRelease oldReleaseMethod) client in
  let client := install "asyncBeginTransaction" client in
  let client := install "asyncCommitTransaction" client in
  install "asyncTryRollback" client.

End AsyncTx.

(** ** The handler and the request *)

(** What the handler puts on the request: [request[name] = client] and the
    array [request.dbClients]. *)
Inductive Slot : Type :=
| Bound (v : Value)
| ClientList (vs : list Value).

(** The objects the handler works on: the clients of the pool by reference,
    its counter, and the request of the hook that is running. *)
Record Server : Type := mkServer {
  objects : gmap nat Client;
  clientIdCounter : Z;
  request : gmap string Slot
}.

(** [client.f] for the object behind a reference; the pool creates a
    connection when it hands out one that was not there before. *)
Definition client_at (r : nat) (s : Server) : Client :=
  default rawClient (objects s !! r).

(** [client.f = v] *)
Definition update (r : nat) (f : Client -> Client) (s : Server) : Server :=
  mkServer (<[r := f (client_at r s)]> (objects s)) (clientIdCounter s) (request s).

(** [request[name] = v] *)
Definition assign (name : string) (v : Slot) (s : Server) : Server :=
  mkServer (objects s) (clientIdCounter s) (<[name := v]> (request s)).

Definition set_clientIdCounter (n : Z) (s : Server) : Server :=
  mkServer (objects s) n (request s).

(** [await this.pool.connect()]: a client object, by reference. *)
Definition connect (k : nat -> Async Server) : Async Server :=
  Await PoolConnect (fun o =>
    match o with
    | Normal (VRef r) => k r
    | Normal _ => Throw (VError "TypeError: the pool returned no client")
    | Raised e => Throw e
    end).

(** [if (!request.dbClients) { request.dbClients = [client]; } else {
    request.dbClients.push(client); }] *)
Definition rememberClient (client : Value) : Async Server :=
  Get (fun s =>
    match request s !! "dbClients" with
    | None => modify (assign "dbClients" (ClientList [client]))
    | Some (ClientList vs) => modify (assign "dbClients" (ClientList (vs ++ [client])))
    | Some (Bound v) =>
        if truthy v
        then Throw (VError "TypeError: request.dbClients.push is not a function")
        else modify (assign "dbClients" (ClientList [client]))
    end).

(** [if (!client.uniqueId) { client.uniqueId = this.clientIdCounter++; }] *)
Definition assignUniqueId (r : nat) : Async Server :=
  Get (fun this =>
    if truthy (uniqueId (client_at r this)) then Ret VUndefined
    else Put (set_clientIdCounter (clientIdCounter this + 1)
                (update r (set_uniqueId (VNum (clientIdCounter this))) this))
           (Ret VUndefined)).

(** [{ id: client.uniqueId }] *)
Definition id_of (r : nat) (this : Server) : Value :=
  VObj [("id", uniqueId (client_at r this))].

(** ** src/database.js: the first generation *)
Module Plain.

(** lines 120-133 *)
Fixpoint call_query (m : QueryMethod) (text : string) (params : Value) : Async Client :=
  match m with
  | NativeQuery | NamedQuery _ => Await (Query text params) settled
  | PatchedQuery oldQueryMethod =>
      do log LTrace "Issuing query" (VObj [("text", VStr text); ("params", params)]);
      do modify (set_lastQuery (Some (text, params)));
      do modify (set_isQueryRunning true);
      finally
        (catch
           (const result := await call_query oldQueryMethod text params;
            Ret result)
           (fun err =>
              do log LError "Database query error" (VObj [("error", err)]);
              Throw err))
        (modify (set_isQueryRunning false))
  end.

(** lines 137-149 *)
Fixpoint call_release (m : ReleaseMethod) : Async Client :=
  match m with
  | PoolRelease => Native settled
  | PatchedRelease oldReleaseMethod =>
      do log LTrace "Releasing client" VUndefined;
      do modify (set_isQueryRunning false);
      do clearSanityTimeout;
      call_release oldReleaseMethod
  end.

(** lines 112-150: nothing in [patchClient] itself looks for an earlier
    patch. *)
Definition patchClient (client : Client) : Client :=
  let client := patchNamedParameters client in
  let oldQueryMethod := query client in
  let client := set_query (PatchedQuery oldQueryMethod) client in
  let oldReleaseMethod := release client in
  set_release (PatchedRelease oldReleaseMethod) client.

(** lines 69-73 of [getClient]: the guard around [patchClient]. *)
Definition patchOnce (r : nat) : Async Server :=
  Get (fun this =>
    if negb (patched (client_at r this)) then
      do log LTrace "Patching client" VUndefined;
      do modify (update r (set_patched true));
      modify (update r patchClient)
    else Ret VUndefined).

(** lines 63-95 *)
Definition getClient : Async Server :=
  do log LTrace "Acquiring client" VUndefined;
  connect (fun r =>
    do patchOnce r;
    do Get (fun this =>
         match sanityTimeout (client_at r this) with
         | Some h =>
             do log LError "Client is busy and still got returned from pool" VUndefined;
             Emit (ClearTimeout h) (Ret VUndefined)
         | None => Ret VUndefined
         end);
    NewTimer 15000 (fun h =>
      do modify (update r (set_sanityTimeout (Some h)));
      Ret (VRef r))).

(** lines 101-106: the hook has no [return]. *)
Definition requireDbClient (clientDecorator : string) : Async Server :=
  const client := await getClient;
  do modify (assign clientDecorator (Bound client));
  Ret VUndefined.

End Plain.

(** ** part_000, lines 1-189: clients listed on the request *)
Module Listed.

(** lines 127-181 *)
Definition patchClient (r : nat) : Async Server :=
  do Get (fun this => log LTrace "Patching client" (id_of r this));
  do Get (fun this =>
       if negb (namedParameters (client_at r this)) then
         do log LTrace "Patching named parameters" (id_of r this);
         do modify (update r (set_namedParameters true));
         modify (update r patchNamedParameters)
       else Ret VUndefined);
  do Get (fun this =>
       let oldQueryMethod := query (client_at r this) in
       if negb (queryWasPatched oldQueryMethod) then
         do log LTrace "Patching query method" (id_of r this);
         modify (update r (set_query (PatchedQuery oldQueryMethod)))
       else Ret VUndefined);
  Get (fun this =>
    let oldReleaseMethod := release (client_at r this) in
    if negb (releaseWasPatched oldReleaseMethod) then
      do log LTrace "Patching release method" (id_of r this);
      modify (update r (set_release (PatchedRelease oldReleaseMethod)))
    else Ret VUndefined).

(** lines 68-102 *)
Definition getClient : Async Server :=
  connect (fun r =>
    do assignUniqueId r;
    do Get (fun this => log LTrace "Acquired client" (id_of r this));
    do patchClient r;
    do Get (fun this =>
         match sanityTimeout (client_at r this) with
         | Some h =>
             do log LError "Client is busy and still got returned from pool" (id_of r this);
             do Emit (ClearTimeout h) (Ret VUndefined);
             modify (update r (set_sanityTimeout None))
         | None => Ret VUndefined
         end);
    do Get (fun this =>
         if isQueryRunning (client_at r this) then
           log LError "Client is running query and still got returned from pool"
             (id_of r this)
         else Ret VUndefined);
    NewTimer 5000 (fun h =>
      do modify (update r (set_sanityTimeout (Some h)));
      Ret (VRef r))).

(** lines 108-120: the hook has no [return]. *)
Definition requireDbClient (requestDecorator : string) : Async Server :=
  const client := await getClient;
  do modify (assign requestDecorator (Bound client));
  do rememberClient client;
  Ret VUndefined.

End Listed.

(** ** part_001: the handler *)
Module TxHandler.

(** lines 67-102 *)
Definition getClientUnsafe : Async Server :=
  connect (fun r =>
    do assignUniqueId r;
    do Get (fun this => log LTrace "Acquired client" (id_of r this));
    do modify (update r Tx.patchClient);
    do Get (fun this =>
         match sanityTimeout (client_at r this) with
         | Some h =>
             do log LError "Client is busy and still got returned from pool" (id_of r this);
             do Emit (ClearTimeout h) (Ret VUndefined);
             modify (update r (set_sanityTimeout None))
         | None => Ret VUndefined
         end);
    do Get (fun this =>
         if isQueryRunning (client_at r this) then
           log LError "Client is running query and still got returned from pool"
             (id_of r this)
         else Ret VUndefined);
    NewTimer 25000 (fun h =>
      do modify (update r (set_sanityTimeout (Some h)));
      Ret (VRef r))).

(** lines 108-129; [addCleanupWork] tells whether the cleanup plugin has
    decorated fastify. *)
Definition requireDbClient (addCleanupWork : bool) (requestDecorator : string) : Async Server :=
  const client := await getClientUnsafe;
  do modify (assign requestDecorator (Bound client));
  do (if addCleanupWork then
        Emit (CleanupWork client "release-db-client") (Ret VUndefined)
      else rememberClient client);
  Ret client.

End TxHandler.

(** ** Notions used to state the properties *)

(** The closures of [patchClient] that a call passes before it reaches the
    driver. *)
Fixpoint layers (m : QueryMethod) : nat :=
  match m with
  | PatchedQuery old => S (layers old)
  | _ => 0
  end.

(** The writes on the way in ... *)
Fixpoint enter (n : nat) (text : string) (params : Value) (w : World Client) : World Client :=
  match n with
  | 0 => w
  | S n' =>
      let c1 := set_lastQuery (Some (trimmedText text, params)) (state w) in
      enter n' text params (store (set_isQueryRunning true c1) (store c1 w))
  end.

(** ... and the logging and the writes on the way out. *)
Fixpoint leave (n : nat) (o : Completion) (w : World Client) : World Client :=
  match n with
  | 0 => w
  | S n' =>
      let w1 := leave n' o w in
      let w2 :=
        match o with
        | Normal _ => w1
        | Raised err => did (Log LError "Database query error" (VObj [("error", err)])) w1
        end in
      store (set_isQueryRunning false (state w2)) w2
  end.

(** The rest of [query] once the driver has answered. *)
Fixpoint query_rest (m : QueryMethod) (o : Completion) : Async Client :=
  match m with
  | PatchedQuery old =>
      finally
        (catch
           (const result := await query_rest old o;
            Ret result)
           (fun err =>
              do log LError "Database query error" (VObj [("error", err)]);
              Throw err))
        (modify (set_isQueryRunning false))
  | _ => settled o
  end.

(** The events, and the entries, of [w'] that came after [w]. *)
Definition since {S} (w w' : World S) : list Event :=
  drop (length (past w)) (past w').
Definition written {S} (w w' : World S) : list (Entry S) :=
  drop (length (history w)) (history w').

Definition grows {S} (w w' : World S) (h : list (Entry S)) : Prop :=
  history w' = history w ++ h.

(** Every write of a stretch of history leaves the object in [P]. *)
Definition keeps {S} (P : S -> Prop) (h : list (Entry S)) : Prop :=
  Forall (fun e => match e with Stored s => P s | Did _ => True end) h.

(** Everything of the client but the two diagnostic fields. *)
Definition control (c : Client) :=
  (uniqueId c, patched c, namedParameters c, isWithinTransaction c,
   sanityTimeout c, query c, release c, methods c).

(** The error is logged once by every closure it passes. *)
Definition error_logs (n : nat) (o : Completion) : list Event :=
  match o with
  | Normal _ => []
  | Raised err => repeat (Log LError "Database query error" (VObj [("error", err)])) n
  end.

(** The driver's answer to the statement. *)
Definition answer (env : Env) (text : string) (params : Value) (w : World Client) : Completion :=
  driver env (past w ++ [Dispatch (Query text params)]) (Query text params).


(** The rest of [rollbackTransactionIfNotCommitted] once the driver has
    answered the [rollback]. *)
Definition rollback_rest (m : QueryMethod) (o : Completion) : Async Client :=
  await query_rest m o;
  Ret VUndefined.

(** [this.isQueryRunning = false] and the clearing of the timer, as
    [release] does them. *)
Definition settle_down (w : World Client) : World Client :=
  let w2 := store (set_isQueryRunning false (state w)) w in
  match sanityTimeout (state w2) with
  | Some h => store (set_sanityTimeout None (state w2)) (did (ClearTimeout h) w2)
  | None => w2
  end.

(** The world when the closure of part_001's [release] hands over to
    [oldReleaseMethod]. *)
Definition released (env : Env) (w : World Client) : World Client :=
  let w0 := did (Log LTrace "Releasing client" (VObj [("id", uniqueId (state w))])) w in
  settle_down (detach (prefix env Tx.rollbackTransactionIfNotCommitted w0)).

(** The identity of the client and its method table. *)
Definition table (c : Client) :=
  (uniqueId c, patched c, namedParameters c, query c, release c, methods c).

(** Does a call of [release] reach the closure of part_001 with the
    rollback method in place? *)
Definition rolls (c : Client) : bool :=
  match release c with
  | PatchedRelease _ => bool_decide ("rollbackTransactionIfNotCommitted" ∈ methods c)
  | PoolRelease => false
  end.

(** The handler's calls of [query], one after the other; a call that
    throws does not stop the next one. *)
Definition run_queries (env : Env) (qs : list (string * Value)) (w : World Client) : World Client :=
  fold_left (fun w q => snd (exec env (this_query (fst q) (snd q)) w)) qs w.

(** Did the call return, rather than throw? *)
Definition returns (o : Completion) : bool :=
  match o with Normal _ => true | Raised _ => false end.

(** A [commit] is with the driver while the client says it is within a
    transaction. *)
Definition commit_in_transaction (m : Client * list Call) : bool :=
  existsb (is_statement "commit") (snd m) && isWithinTransaction (fst m).

(** [never bad s fl h]: no moment of the run that wrote [h], from the
    object [s] with [fl] in flight, is [bad]. *)
Definition never {S} (bad : S * list Call -> bool) (s : S) (fl : list Call) (h : list (Entry S)) : bool :=
  forallb (fun m => negb (bad m)) (moments s fl h).

(** The testable property of the rollback on release, as it is written:
    [beginTransaction], then the queries [qs], then [release()]. *)
Definition rollback_on_release (env : Env) (w : World Client) (qs : list (string * Value)) : Prop :=
  let w1 := snd (exec env Tx.beginTransaction w) in
  let w2 := run_queries env qs w1 in
  let w3 := snd (exec env Tx.this_release w2) in
  dispatched "rollback" (since w2 w3) = 1 /\ isWithinTransaction (state w3) = false.

(** Two environments to run examples in: a database that answers every
    statement with an empty result, and one that is not reachable. *)
Definition empty_result : Value := VObj [("rowCount", VNum 0)].
Definition healthy : Env :=
  mkEnv (fun _ c => match c with Query _ _ => Normal empty_result | PoolConnect => Normal (VRef 0) end)
        (fun _ => Normal VUndefined).
Definition unreachable : Env :=
  mkEnv (fun _ _ => Raised (VError "connection terminated"))
        (fun _ => Normal VUndefined).

(** The object and the calls in flight at the end of a stretch of
    history. *)
Fixpoint state_after {S} (s : S) (h : list (Entry S)) : S :=
  match h with
  | [] => s
  | Did _ :: h' => state_after s h'
  | Stored s' :: h' => state_after s' h'
  end.

Fixpoint flight_after {S} (fl : list Call) (h : list (Entry S)) : list Call :=
  match h with
  | [] => fl
  | Did e :: h' => flight_after (fly e fl) h'
  | Stored _ :: h' => flight_after fl h'
  end.

(** The texts handed to the driver, in order. *)
Fixpoint sent (evs : list Event) : list string :=
  match evs with
  | [] => []
  | Dispatch (Query text _) :: evs' => text :: sent evs'
  | _ :: evs' => sent evs'
  end.

(** What a [query] is said to record and to send, for a [query] method
    [call] patched once over the driver's. *)
Definition records_normalized_text
    (call : QueryMethod -> string -> Value -> Async Client)
    (env : Env) (w : World Client) (text : string) (params : Value) : Prop :=
  let w' := snd (exec env (call (PatchedQuery NativeQuery) text params) w) in
  lastQuery (state w') = Some (trimmedText text, params)
  /\ sent (since w w') = [text].

(** What is said of a hook [requireDbClient] whose acquisition is
    [getClient]: the client that was acquired is on the request under
    [name], and it is what the hook returns. *)
Definition binds_and_returns (getClient hook : Async Server) (name : string)
    (env : Env) (w : World Server) : Prop :=
  forall r, fst (exec env getClient w) = Normal (VRef r) ->
    let (o, w') := exec env hook w in
    o = Normal (VRef r) /\ request (state w') !! name = Some (Bound (VRef r)).

(** Can [request.dbClients] take a client once [request[name]] is set: the
    name is another one, and what is there, if anything truthy, is the
    array. *)
Definition listable (name : string) (s : Server) : bool :=
  negb (name =? "dbClients")%string
  && match request s !! "dbClients" with
     | Some (Bound v) => negb (truthy v)
     | _ => true
     end.

(** A handler that has served no request yet. *)
Definition idle : Server := mkServer ∅ 1 ∅.

(** What [settle_down] writes. *)
Definition settle_entries (c : Client) : list (Entry Client) :=
  Stored (set_isQueryRunning false c)
  :: match sanityTimeout c with
     | Some t => [Did (ClearTimeout t);
                  Stored (set_sanityTimeout None (set_isQueryRunning false c))]
     | None => []
     end.

(** Does a stretch of events end with the connection handed back to the
    pool? *)
Definition hands_back (evs : list Event) : bool :=
  match last evs with
  | Some (NativeRelease _) => true
  | _ => false
  end.

(** Is the connection handed back while a statement [text] is in flight? *)
Fixpoint returned_while (text : string) (fl : list Call) (evs : list Event) : bool :=
  match evs with
  | [] => false
  | NativeRelease o :: evs' =>
      existsb (is_statement text) fl || returned_while text fl evs'
  | e :: evs' => returned_while text (fly e fl) evs'
  end.

(** What is said of [release()]: it does all its steps, the last of which
    hands the connection back, and the rollback is over by then. *)
Definition releases_in_order (release : Async Client) (env : Env) (w : World Client) : Prop :=
  let w' := snd (exec env release w) in
  isQueryRunning (state w') = false
  /\ sanityTimeout (state w') = None
  /\ hands_back (since w w') = true
  /\ returned_while "rollback" (in_flight (past w)) (since w w') = false.
(** * The rest of the handler

    What [registerHooks] installs, the callback of the leak timer, the
    pool-level [query], the release of part_000's first generation and the
    handler of its [async] generation. *)

(** ** Methods of a client, called by the handler *)

(** [client.m(...)] where [client] is the object behind the reference [r]:
    the method reads and writes that object, which the handler's store holds
    together with the other clients. *)
Fixpoint on_client (r : nat) (t : Async Client) : Async Server :=
  match t with
  | Ret v => Ret v
  | Throw e => Throw e
  | Get k => Get (fun s => on_client r (k (client_at r s)))
  | Put c k => Get (fun s => Put (update r (fun _ => c) s) (on_client r k))
  | Emit e k => Emit e (on_client r k)
  | Await c k => Await c (fun o => on_client r (k o))
  | Native k => Native (fun o => on_client r (k o))
  | NewTimer ms k => NewTimer ms (fun h => on_client r (k h))
  | Fork t' k => Fork (on_client r t') (on_client r k)
  end.

(** [client.release()] for a value [client]: only a client has the method. *)
Definition not_a_client : Value :=
  VError "TypeError: client.release is not a function".

Definition release_of (this_release : Async Client) (client : Value) : Async Server :=
  match client with
  | VRef r => on_client r this_release
  | _ => Throw not_a_client
  end.

(** [client.lastQuery], an object [{ text, params }] once a query was
    issued. *)
Definition lastQuery_of (c : Client) : Value :=
  match lastQuery c with
  | Some (text, params) => VObj [("text", VStr text); ("params", params)]
  | None => VUndefined
  end.

(** [o.name] of a plain object. *)
Fixpoint field (name : string) (fields : list (string * Value)) : Value :=
  match fields with
  | [] => VUndefined
  | (n, v) :: fields' => if (n =? name)%string then v else field name fields'
  end.

(** [v.length] of a value that is not an array. *)
Definition length_of (v : Value) : Value :=
  match v with
  | VStr s => VNum (Z.of_nat (String.length s))
  | VObj fields => field "length" fields
  | _ => VUndefined
  end.

(** [x > 0] for a number or a boolean; [undefined], [null] and objects
    never compare greater.  A string would be read as a number first; that
    reading is left out, and a string counts as not greater. *)
Definition greater_than_zero (x : Value) : bool :=
  match x with
  | VNum n => (0 <? n)%Z
  | VBool b => b
  | _ => false
  end.

(** [clients.forEach(f)], and the loop [for (let i = 0; i <
    clients.length; ++i) { await f(clients[i]); }]: the elements in order,
    one call finished before the next; a call that throws ends the
    iteration. *)
Fixpoint forEach (clients : list Value) (f : Value -> Async Server) : Async Server :=
  match clients with
  | [] => Ret VUndefined
  | client :: rest => do f client; forEach rest f
  end.

(** ** part_000, lines 1-189: [release] *)
Module ListedClient.

(** lines 166-178 *)
Fixpoint call_release (m : ReleaseMethod) : Async Client :=
  match m with
  | PoolRelease => Native settled
  | PatchedRelease oldReleaseMethod =>
      Get (fun this =>
        do log LTrace "Releasing client" (VObj [("id", uniqueId this)]);
        do modify (set_isQueryRunning false);
        do clearSanityTimeout;
        call_release oldReleaseMethod)
  end.

(** [this.release()] *)
Definition this_release : Async Client :=
  Get (fun this => call_release (release this)).

End ListedClient.

(** ** src/database.js: hooks and timer *)
Module PlainHooks.

(** [client.release()] *)
Definition this_release : Async Client :=
  Get (fun this => Plain.call_release (release this)).

(** lines 30-33 and 38-41: the two hooks differ in the message. *)
Definition releaseBound (clientDecorator message : string) : Async Server :=
  Get (fun this =>
    match request this !! clientDecorator with
    | Some (Bound client) =>
        if truthy client then
          do log LTrace message VUndefined;
          do release_of this_release client;
          Ret VUndefined
        else Ret VUndefined
    | Some (ClientList _) =>
        do log LTrace message VUndefined;
        Throw not_a_client
    | None => Ret VUndefined
    end).

(** lines 29-34 *)
Definition onSend (clientDecorator : string) : Async Server :=
  releaseBound clientDecorator "Releasing DB client automatically on send".

(** lines 37-42 *)
Definition onError (clientDecorator : string) : Async Server :=
  releaseBound clientDecorator "Releasing DB client automatically on error".

(** lines 83-93, the callback of the timer that [getClient] arms;
    [apmTrackError] is the decorator of that name, when fastify has one. *)
Definition forcedRelease (apmTrackError : option (string -> Value -> Async Server))
    (r : nat) : Async Server :=
  do Get (fun this =>
       let client := client_at r this in
       log LError "A client has been checked out for more than 5 seconds, forced release"
         (VObj [("lastQuery", lastQuery_of client);
                ("stillRunning", VBool (isQueryRunning client))]));
  do on_client r this_release;
  match apmTrackError with
  | Some track =>
      do Get (fun this =>
           track "DB Client has been checked out for more than 5 seconds"
             (VObj [("lastQuery", lastQuery_of (client_at r this))]));
      Ret VUndefined
  | None => Ret VUndefined
  end.

End PlainHooks.

(** ** The hooks over [request.dbClients]

    part_000, lines 30-37 and 40-47, and part_001, lines 29-36 and 39-46:
    the same text in the four places ([onError] logs "on send" too), over
    the [release] of the generation.  [request.dbClients] is the array, or
    nothing, or what [request[name] = client] has put there when the
    decorator carries that name. *)
Definition releaseListed (this_release : Async Client) : Async Server :=
  Get (fun this =>
    do match request this !! "dbClients" with
       | Some (ClientList clients) =>
           if (0 <? Z.of_nat (length clients))%Z then
             do log LTrace "Releasing clients automatically on send"
                  (VObj [("amount", VNum (Z.of_nat (length clients)))]);
             forEach clients (release_of this_release)
           else Ret VUndefined
       | Some (Bound clients) =>
           if truthy clients && greater_than_zero (length_of clients) then
             do log LTrace "Releasing clients automatically on send"
                  (VObj [("amount", length_of clients)]);
             Throw (VError "TypeError: clients.forEach is not a function")
           else Ret VUndefined
       | None => Ret VUndefined
       end;
    modify (assign "dbClients" (ClientList []))).

(** part_000, lines 1-189 *)
Module ListedHooks.

(** lines 30-37 *)
Definition onSend : Async Server := releaseListed ListedClient.this_release.

(** lines 40-47 *)
Definition onError : Async Server := releaseListed ListedClient.this_release.

(** lines 90-100, the callback of the timer of [getClient] *)
Definition forcedRelease (apmTrackError : option (string -> Value -> Async Server))
    (r : nat) : Async Server :=
  do Get (fun this =>
       let client := client_at r this in
       log LError "A client has been checked out for more than 5 seconds, forced release"
         (VObj [("lastQuery", lastQuery_of client);
                ("stillRunning", VBool (isQueryRunning client));
                ("id", uniqueId client)]));
  do on_client r ListedClient.this_release;
  match apmTrackError with
  | Some track =>
      do Get (fun this =>
           track "DB Client has been checked out for more than 5 seconds"
             (VObj [("lastQuery", lastQuery_of (client_at r this))]));
      Ret VUndefined
  | None => Ret VUndefined
  end.

End ListedHooks.

(** part_001 *)
Module TxHooks.

(** lines 29-36 *)
Definition onSend : Async Server := releaseListed Tx.this_release.

(** lines 39-46 *)
Definition onError : Async Server := releaseListed Tx.this_release.

(** lines 93-99: what the callback of the timer reports, to the decorator
    [apmTrackError] when fastify has one and to the logger otherwise. *)
Definition report (apmTrackError : option (string -> Value -> Async Server))
    (lastQuery stillRunning id : Value) : Async Server :=
  match apmTrackError with
  | Some track =>
      track "DB Client has been checked out for more than 25 seconds"
        (VObj [("lastQuery", lastQuery); ("stillRunning", stillRunning)])
  | None =>
      log LError "A client has been checked out for more than 25 seconds, forced release"
        (VObj [("lastQuery", lastQuery); ("stillRunning", stillRunning); ("id", id)])
  end.

(** lines 89-100, the callback of the timer of [getClientUnsafe]: the
    release comes first. *)
Definition forcedRelease (apmTrackError : option (string -> Value -> Async Server))
    (r : nat) : Async Server :=
  do on_client r Tx.this_release;
  do Get (fun this =>
       let client := client_at r this in
       report apmTrackError (lastQuery_of client) (VBool (isQueryRunning client))
         (uniqueId client));
  Ret VUndefined.

(** lines 116-118: the work handed to [addCleanupWork]. *)
Definition cleanupWork (client : Value) : Async Server :=
  do release_of Tx.this_release client;
  Ret VUndefined.

End TxHooks.

(** part_000, lines 190-453 *)
Module AsyncTxHooks.

(** lines 218-227 and 230-239: the loop awaits every [release]. *)
Definition releaseListed : Async Server :=
  Get (fun this =>
    do match request this !! "dbClients" with
       | Some (ClientList clients) =>
           if (0 <? Z.of_nat (length clients))%Z then
             do log LTrace "Releasing clients automatically on send"
                  (VObj [("amount", VNum (Z.of_nat (length clients)))]);
             forEach clients (release_of AsyncTx.this_release)
           else Ret VUndefined
       | Some (Bound clients) =>
           if truthy clients && greater_than_zero (length_of clients) then
             do log LTrace "Releasing clients automatically on send"
                  (VObj [("amount", length_of clients)]);
             Throw not_a_client
           else Ret VUndefined
       | None => Ret VUndefined
       end;
    modify (assign "dbClients" (ClientList []))).

Definition onSend : Async Server := releaseListed.
Definition onError : Async Server := releaseListed.

(** lines 260-295 *)
Definition getClientUnsafe : Async Server :=
  connect (fun r =>
    do assignUniqueId r;
    do Get (fun this => log LTrace "Acquired client" (id_of r this));
    do modify (update r AsyncTx.patchClient);
    do Get (fun this =>
         match sanityTimeout (client_at r this) with
         | Some h =>
             do log LError "Client is busy and still got returned from pool" (id_of r this);
             do Emit (ClearTimeout h) (Ret VUndefined);
             modify (update r (set_sanityTimeout None))
         | None => Ret VUndefined
         end);
    do Get (fun this =>
         if isQueryRunning (client_at r this) then
           log LError "Client is running query and still got returned from pool"
             (id_of r this)
         else Ret VUndefined);
    NewTimer 25000 (fun h =>
      do modify (update r (set_sanityTimeout (Some h)));
      Ret (VRef r))).

(** lines 301-322 *)
Definition requireDbClient (addCleanupWork : bool) (requestDecorator : string) : Async Server :=
  const client := await getClientUnsafe;
  do modify (assign requestDecorator (Bound client));
  do (if addCleanupWork then
        Emit (CleanupWork client "release-db-client") (Ret VUndefined)
      else rememberClient client);
  Ret client.

(** lines 309-311: the work handed to [addCleanupWork]. *)
Definition cleanupWork (client : Value) : Async Server :=
  await release_of AsyncTx.this_release client;
  Ret VUndefined.

End AsyncTxHooks.

(** ** The pool-level [query]

    [Database.query], the same text in the four generations (src/database.js,
    lines 51-57).  [this.pool.query(text, params)] hands the statement to a
    connection of the pool; [t0] and [t1] are the two readings of the clock. *)

(** [result.rowCount] *)
Definition rowCount (result : Value) : Completion :=
  match result with
  | VUndefined | VNull =>
      Raised (VError "TypeError: Cannot read properties of undefined (reading 'rowCount')")
  | VObj fields => Normal (field "rowCount" fields)
  | _ => Normal VUndefined
  end.

Definition Database_query (t0 t1 : Z) (text : string) (params : Value) : Async Server :=
  const result := await Await (Query text params) settled;
  const rows := await settled (rowCount result);
  do log LTrace "Executed single query"
       (VObj [("text", VStr text); ("duration", VNum (t1 - t0)); ("rows", rows)]);
  Ret result.

(** [getClientUnsafe] of part_001 and of part_000 (lines 260-295) are one
    text around the [patchClient] of the generation: [acquire] is that
    text, with the patch and the delay of the timer left open. *)
Definition acquire (patchClient : Client -> Client) (ms : Z) : Async Server :=
  connect (fun r =>
    do assignUniqueId r;
    do Get (fun this => log LTrace "Acquired client" (id_of r this));
    do modify (update r patchClient);
    do Get (fun this =>
         match sanityTimeout (client_at r this) with
         | Some h =>
             do log LError "Client is busy and still got returned from pool" (id_of r this);
             do Emit (ClearTimeout h) (Ret VUndefined);
             modify (update r (set_sanityTimeout None))
         | None => Ret VUndefined
         end);
    do Get (fun this =>
         if isQueryRunning (client_at r this) then
           log LError "Client is running query and still got returned from pool"
             (id_of r this)
         else Ret VUndefined);
    NewTimer ms (fun h =>
      do modify (update r (set_sanityTimeout (Some h)));
      Ret (VRef r))).

(** ** Notions used to state the properties of the handler *)

(** The client [r] of the handler's world [w] and a world [wc] of that
    client alone go together: the same object, the same events so far, and
    histories of one length (the handle of a timer is the length of the
    history). *)
Definition sees (r : nat) (wc : World Client) (w : World Server) : Prop :=
  state wc = client_at r (state w)
  /\ past wc = past w
  /\ length (history wc) = length (history w).

(** The client [r], cut out of the handler's world. *)
Definition view (r : nat) (w : World Server) : World Client :=
  mkWorld (client_at r (state w))
    (map (fun e => match e with
                   | Did e => Did e
                   | Stored s => Stored (client_at r s)
                   end) (history w))
    [].

(** Everything of the handler but the client [r] is the same in [s] and
    [s']. *)
Definition apart (r : nat) (s s' : Server) : Prop :=
  request s' = request s
  /\ clientIdCounter s' = clientIdCounter s
  /\ forall r', r' <> r -> objects s' !! r' = objects s !! r'.

(** The connection goes back to the pool. *)
Definition hands_over (e : Event) : bool :=
  match e with NativeRelease _ => true | _ => false end.

(** The timers that are armed after a stretch of events: set and not
    cancelled.  That a timer fires is not an event (its callback is run as
    [forcedRelease]), so a timer counts until [clearTimeout] is called on
    it. *)
Definition tick (live : list nat) (e : Event) : list nat :=
  match e with
  | SetTimeout h _ => h :: live
  | ClearTimeout h => List.filter (fun h0 => negb (h0 =? h)%nat) live
  | _ => live
  end.

Definition armed (evs : list Event) : list nat := fold_left tick evs [].

(** [clearTimeout(t)] when there is a [t]. *)
Definition cancel (t : option nat) (live : list nat) : list nat :=
  match t with
  | Some h => List.filter (fun h0 => negb (h0 =? h)%nat) live
  | None => live
  end.

(** Does [release()] of part_001 get as far as the pool's own release:
    the closure needs [rollbackTransactionIfNotCommitted] on the client. *)
Definition reaches_pool (c : Client) : bool :=
  match release c with
  | PoolRelease => true
  | PatchedRelease _ => bool_decide ("rollbackTransactionIfNotCommitted" ∈ methods c)
  end.

(** The timers and the clients agree: a timer is armed exactly when it is
    the [sanityTimeout] of a client, no two clients share one, and every
    handle is older than the history. *)
Definition owned (live : list nat) (timer_of : nat -> option nat) (n : nat) : Prop :=
  (forall h, In h live <-> exists r, timer_of r = Some h)
  /\ (forall r r' h, timer_of r = Some h -> timer_of r' = Some h -> r = r')
  /\ (forall h, In h live -> h < n).

Definition timers_owned (w : World Server) : Prop :=
  owned (armed (past w)) (fun r => sanityTimeout (client_at r (state w)))
    (length (history w)).


(** A method of a client that leaves the timer of the client alone, or
    cancels it and takes it off the client. *)
Definition tends_timer (env : Env) (t : Async Client) : Prop :=
  forall w : World Client,
  exists h,
    grows w (snd (exec env t w)) h
    /\ ((forall live, fold_left tick (events h) live = live)
        /\ sanityTimeout (state (snd (exec env t w))) = sanityTimeout (state w)
        \/ (forall live, fold_left tick (events h) live = cancel (sanityTimeout (state w)) live)
           /\ sanityTimeout (state (snd (exec env t w))) = None).

(** A step of the handler that leaves the timers and the clients in
    agreement. *)
Definition keeps_timers (env : Env) (t : Async Server) : Prop :=
  forall w, timers_owned w -> timers_owned (snd (exec env t w)).

(** [f] with the value [x] at [r]. *)
Definition at_client {A} (r : nat) (x : A) (f : nat -> A) : nat -> A :=
  fun r' => if (r' =? r)%nat then x else f r'.


(** * Handlers to run the examples on *)

(** part_001: a client has been acquired on a handler that had served no
    request. *)
Definition acquired : World Server :=
  snd (exec healthy TxHandler.getClientUnsafe (start idle)).

(** part_001, without the cleanup plugin: [requireDbClient] has run on a
    request, so that the client is listed in [request.dbClients]. *)
Definition served : World Server :=
  snd (exec healthy (TxHandler.requireDbClient false "dbClient") (start idle)).

(** src/database.js: [requireDbClient] has run on a request. *)
Definition plain_served : World Server :=
  snd (exec healthy (Plain.requireDbClient "dbClient") (start idle)).

(** part_000, first generation: a client has been acquired. *)
Definition listed_acquired : World Server :=
  snd (exec healthy Listed.getClient (start idle)).

(** part_000, [async] generation: a client has been acquired. *)
Definition async_acquired : World Server :=
  snd (exec healthy AsyncTxHooks.getClientUnsafe (start idle)).

(** src/database.js: the pool holds a client that was handed out and
    released before; it carries the marker, and the pool has put its own
    [release] on it again. *)
Definition handed_out_before : Server :=
  mkServer {[0%nat := set_release PoolRelease (set_patched true (Plain.patchClient rawClient))]}
    1 ∅.

(** A pool whose [release] throws, as pg-pool does on a client that was
    released already. *)
Definition released_already : Env :=
  mkEnv (driver healthy)
        (fun _ => Raised (VError "Release called on client which has already been released to the pool.")).
(** * Properties *)

(** ** The text kept for diagnostics is normalised *)

Lemma blank_is_space a : is_blank a = true -> is_space a = true.
Proof.
  destruct a as [[] [] [] [] [] [] [] []]; vm_compute; intros H;
    first [reflexivity | discriminate H].
Qed.

Lemma not_space_not_blank a : is_space a = false -> is_blank a = false.
Proof.
  intros H. destruct (is_blank a) eqn:E; [|reflexivity].
  apply blank_is_space in E. congruence.
Qed.

Lemma tidy_weaken b s : tidy b s = true -> tidy false s = true.
Proof.
  destruct s as [|a s]; simpl; [auto|].
  destruct (is_blank a); [|auto]. destruct b; simpl; [|auto].
  rewrite andb_false_r. discriminate.
Qed.

Lemma tidy_collapse b s : tidy b (collapse b s) = true.
Proof.
  revert b. induction s as [|a s IH]; intros b; simpl; [reflexivity|].
  destruct (is_blank a) eqn:E.
  - destruct b; [apply IH|]. simpl. apply IH.
  - simpl. rewrite E. apply IH.
Qed.

Lemma tidy_drop_leading s : tidy false s = true -> tidy false (drop_leading s) = true.
Proof.
  induction s as [|a s IH]; simpl; [auto|]. intros H.
  destruct (is_space a) eqn:Es; [|simpl; exact H].
  apply IH. destruct (is_blank a); [|exact H].
  apply andb_prop in H. destruct H as [_ H]. now apply tidy_weaken in H.
Qed.

Lemma tidy_cons b a s :
  tidy b (String a s) =
  if is_blank a then (a =? " ")%char && negb b && tidy true s else tidy false s.
Proof. reflexivity. Qed.

Lemma tidy_drop_trailing b s : tidy b s = true -> tidy b (drop_trailing s) = true.
Proof.
  revert b. induction s as [|a s IH]; intros b H; [reflexivity|].
  rewrite tidy_cons in H. cbn [drop_trailing]. destruct (is_blank a) eqn:E.
  - apply andb_prop in H. destruct H as [H1 H2]. apply IH in H2.
    rewrite (blank_is_space a E).
    destruct (drop_trailing s) eqn:Er; [reflexivity|].
    rewrite tidy_cons, E, H1, H2. reflexivity.
  - apply IH in H. destruct (drop_trailing s) eqn:Er.
    + destruct (is_space a); [reflexivity|]. now rewrite tidy_cons, E.
    + now rewrite tidy_cons, E.
Qed.

Lemma drop_leading_start s : starts_with_space (drop_leading s) = false.
Proof.
  induction s as [|a s IH]; simpl; [reflexivity|].
  destruct (is_space a) eqn:E; [exact IH|]. simpl. exact E.
Qed.

Lemma drop_trailing_start s :
  starts_with_space s = false -> starts_with_space (drop_trailing s) = false.
Proof.
  destruct s as [|a s]; simpl; [auto|]. intros H. rewrite H.
  destruct (drop_trailing s); simpl; exact H.
Qed.

Lemma drop_trailing_end s : ends_with_space (drop_trailing s) = false.
Proof.
  induction s as [|a s IH]; simpl; [reflexivity|].
  destruct (drop_trailing s) as [|b r] eqn:Er.
  - destruct (is_space a) eqn:E; simpl; [reflexivity|exact E].
  - exact IH.
Qed.

Lemma squeeze_collapse b s : squeeze (collapse b s) = squeeze s.
Proof.
  revert b. induction s as [|a s IH]; intros b; simpl; [reflexivity|].
  destruct (is_blank a) eqn:E.
  - rewrite (blank_is_space a E). destruct b; [apply IH|]. simpl. apply IH.
  - simpl. now rewrite IH.
Qed.

Lemma squeeze_drop_leading s : squeeze (drop_leading s) = squeeze s.
Proof.
  induction s as [|a s IH]; simpl; [reflexivity|].
  destruct (is_space a) eqn:E; [exact IH|]. simpl. now rewrite E.
Qed.

Lemma squeeze_drop_trailing s : squeeze (drop_trailing s) = squeeze s.
Proof.
  induction s as [|a s IH]; simpl; [reflexivity|].
  destruct (drop_trailing s) as [|b r] eqn:Er.
  - simpl in IH. destruct (is_space a) eqn:E; simpl; rewrite ?E, <- IH; reflexivity.
  - destruct (is_space a) eqn:E.
    + change (squeeze (String a (String b r))) with
        (if is_space a then squeeze (String b r) else String a (squeeze (String b r))).
      now rewrite E, IH.
    + change (squeeze (String a (String b r))) with
        (if is_space a then squeeze (String b r) else String a (squeeze (String b r))).
      now rewrite E, IH.
Qed.

(** The stored text has no tab, line feed or carriage return, no two
    adjacent spaces and no white space at either end; everything that is
    not white space is as in the text of the call. *)
Lemma trimmedText_normalized text :
  normalized (trimmedText text) = true /\ squeeze (trimmedText text) = squeeze text.
Proof.
  unfold normalized, trimmedText. split.
  - rewrite tidy_drop_trailing
      by (apply tidy_drop_leading, (tidy_collapse false)).
    rewrite drop_trailing_start by apply drop_leading_start.
    rewrite drop_trailing_end. reflexivity.
  - now rewrite squeeze_drop_trailing, squeeze_drop_leading, squeeze_collapse.
Qed.

(** ** The semantics of sequencing, [catch] and [finally] *)

Section Laws.
Context {S : Type} (env : Env).
Implicit Types (t : Async S) (w : World S).

Lemma exec_bind t f w :
  exec env (bind t f) w =
  match exec env t w with
  | (Normal v, w1) => exec env (f v) w1
  | (Raised e, w1) => (Raised e, w1)
  end.
Proof.
  revert w; induction t; intros w; simpl; auto.
Qed.

Lemma exec_catch t h w :
  exec env (catch t h) w =
  match exec env t w with
  | (Normal v, w1) => (Normal v, w1)
  | (Raised e, w1) => exec env (h e) w1
  end.
Proof.
  revert w; induction t; intros w; simpl; auto.
Qed.

Lemma exec_finally t f w :
  exec env (finally t f) w =
  match exec env t w with
  | (o, w1) =>
      match exec env f w1 with
      | (Normal _, w2) => (o, w2)
      | (Raised e, w2) => (Raised e, w2)
      end
  end.
Proof.
  revert w; induction t; intros w; simpl; auto.
  - rewrite exec_bind. destruct (exec env f w) as [[]]; reflexivity.
  - rewrite exec_bind. destruct (exec env f w) as [[]]; reflexivity.
Qed.

Lemma prefix_bind t f w :
  prefix env (bind t f) w =
  match prefix env t w with
  | (Finished (Normal v), w1) => prefix env (f v) w1
  | (Finished (Raised e), w1) => (Finished (Raised e), w1)
  | (Suspended c k, w1) => (Suspended c (fun o => bind (k o) f), w1)
  end.
Proof.
  revert w; induction t; intros w; simpl; auto.
Qed.

Lemma prefix_catch t h w :
  prefix env (catch t h) w =
  match prefix env t w with
  | (Finished (Normal v), w1) => (Finished (Normal v), w1)
  | (Finished (Raised e), w1) => prefix env (h e) w1
  | (Suspended c k, w1) => (Suspended c (fun o => catch (k o) h), w1)
  end.
Proof.
  revert w; induction t; intros w; simpl; auto.
Qed.

Lemma prefix_finally t f w :
  prefix env (finally t f) w =
  match prefix env t w with
  | (Finished o, w1) => prefix env (bind f (fun _ => settled o)) w1
  | (Suspended c k, w1) => (Suspended c (fun o => finally (k o) f), w1)
  end.
Proof.
  revert w; induction t; intros w; simpl; auto.
Qed.

End Laws.

(** ** What a call of [this.query] does, for every stack of methods *)

Section QueryRuns.
Context (env : Env).
Implicit Types (w : World Client) (m : QueryMethod).

Lemma exec_settled {S} (o : Completion) (w : World S) :
  exec env (settled o) w = (o, w).
Proof. destruct o; reflexivity. Qed.

Lemma exec_query_rest m o w :
  exec env (query_rest m o) w = (o, leave (layers m) o w).
Proof.
  revert w; induction m; intros w; simpl; try apply exec_settled.
  rewrite exec_finally, exec_catch, exec_bind, IHm.
  destruct o; reflexivity.
Qed.

(** [query] run by a caller that awaits it. *)
Lemma exec_call_query m text params w :
  exec env (call_query m text params) w =
  let c := Query text params in
  let w1 := did (Dispatch c) (enter (layers m) text params w) in
  let o := driver env (past w1) c in
  (o, leave (layers m) o (did (Settle c o) w1)).
Proof.
  revert w; induction m; intros w; simpl; try apply exec_settled.
  rewrite exec_finally, exec_catch, exec_bind, IHm. simpl.
  match goal with |- context [driver env ?evs ?c] => destruct (driver env evs c) end;
    reflexivity.
Qed.

(** [query] called and not awaited: it stops when the statement is with the
    driver. *)
Lemma prefix_call_query m text params w :
  prefix env (call_query m text params) w =
  (Suspended (Query text params) (query_rest m),
   did (Dispatch (Query text params)) (enter (layers m) text params w)).
Proof.
  revert w; induction m; intros w; simpl; try reflexivity.
  rewrite prefix_finally, prefix_catch, prefix_bind, IHm. reflexivity.
Qed.

End QueryRuns.

(** ** Bookkeeping: what a run adds to the history *)

Section Bookkeeping.
Context {S : Type}.
Implicit Types (w : World S) (h : list (Entry S)).

Lemma events_app h1 h2 : events (h1 ++ h2) = events h1 ++ events h2.
Proof.
  induction h1 as [|[e|s] h1 IH]; simpl; [reflexivity | f_equal; exact IH | exact IH].
Qed.

Lemma grows_refl w : grows w w [].
Proof. unfold grows. now rewrite app_nil_r. Qed.

Lemma grows_trans w1 w2 w3 h1 h2 :
  grows w1 w2 h1 -> grows w2 w3 h2 -> grows w1 w3 (h1 ++ h2).
Proof. unfold grows. intros H1 H2. now rewrite H2, H1, app_assoc. Qed.

Lemma grows_did e w : grows w (did e w) [Did e].
Proof. reflexivity. Qed.

Lemma grows_store s w : grows w (store s w) [Stored s].
Proof. reflexivity. Qed.

Lemma grows_float c k w : grows w (float c k w) [].
Proof. unfold grows. simpl. now rewrite app_nil_r. Qed.

Lemma grows_past w w' h : grows w w' h -> past w' = past w ++ events h.
Proof. unfold grows, past. intros ->. apply events_app. Qed.

Lemma grows_since w w' h : grows w w' h -> since w w' = events h.
Proof.
  intros H. unfold since. rewrite (grows_past _ _ _ H). apply drop_app_length.
Qed.

Lemma grows_written w w' h : grows w w' h -> written w w' = h.
Proof. unfold grows, written. intros ->. apply drop_app_length. Qed.

Lemma keeps_app (P : S -> Prop) h1 h2 :
  keeps P h1 -> keeps P h2 -> keeps P (h1 ++ h2).
Proof. apply Forall_app_2. Qed.

Lemma keeps_impl (P Q : S -> Prop) h :
  (forall s, P s -> Q s) -> keeps P h -> keeps Q h.
Proof.
  intros HPQ Hh. unfold keeps in *. eapply Forall_impl; [exact Hh|].
  intros [e|s]; auto.
Qed.

(** If the object is in [P] and every write keeps it there, it is in [P]
    at every moment. *)
Lemma moments_keeps (P : S -> Prop) s fl h :
  P s -> keeps P h -> Forall (fun m => P (fst m)) (moments s fl h).
Proof.
  revert s fl. induction h as [|[e|s'] h IH]; intros s fl Hs Hh; simpl.
  - constructor.
  - inversion Hh; subst. constructor; [exact Hs | now apply IH].
  - inversion Hh; subst. constructor; [assumption | now apply IH].
Qed.

Lemma count_app p (l1 l2 : list Event) : count p (l1 ++ l2) = count p l1 + count p l2.
Proof.
  induction l1 as [|e l1 IH]; simpl; [reflexivity|].
  destruct (p e); simpl; now rewrite IH.
Qed.

End Bookkeeping.

Section EnterLeave.
Implicit Types (w : World Client).

Lemma enter_grows n text params w :
  exists h, grows w (enter n text params w) h /\ events h = []
    /\ keeps (fun s => control s = control (state w)) h
    /\ control (state (enter n text params w)) = control (state w)
    /\ floating (enter n text params w) = floating w.
Proof.
  revert w; induction n as [|n IH]; intros w; simpl.
  - exists []. split; [apply grows_refl|]. repeat split; constructor.
  - destruct (IH (store (set_isQueryRunning true
                (set_lastQuery (Some (trimmedText text, params)) (state w)))
              (store (set_lastQuery (Some (trimmedText text, params)) (state w)) w)))
      as (h & Hg & He & Hk & Hc & Hf).
    eexists (_ :: _ :: h). split; [|split; [|split; [|split]]].
    + unfold grows in *. rewrite Hg. simpl. rewrite <- !app_assoc. reflexivity.
    + simpl. exact He.
    + repeat constructor. exact Hk.
    + exact Hc.
    + exact Hf.
Qed.

Lemma enter_lastQuery n text params w :
  lastQuery (state (enter (S n) text params w)) = Some (trimmedText text, params)
  /\ isQueryRunning (state (enter (S n) text params w)) = true.
Proof.
  revert w; induction n as [|n IH]; intros w; [split; reflexivity|].
  change (enter (S (S n)) text params w) with
    (enter (S n) text params (store (set_isQueryRunning true
                (set_lastQuery (Some (trimmedText text, params)) (state w)))
              (store (set_lastQuery (Some (trimmedText text, params)) (state w)) w))).
  apply IH.
Qed.

Lemma leave_grows n o w :
  exists h, grows w (leave n o w) h /\ events h = error_logs n o
    /\ keeps (fun s => control s = control (state w)) h
    /\ control (state (leave n o w)) = control (state w)
    /\ lastQuery (state (leave n o w)) = lastQuery (state w)
    /\ floating (leave n o w) = floating w.
Proof.
  induction n as [|n IH]; simpl.
  - exists []. split; [apply grows_refl|]. destruct o; repeat split; constructor.
  - destruct IH as (h & Hg & He & Hk & Hc & Hl & Hf).
    destruct o as [v|err].
    + exists (h ++ [Stored (set_isQueryRunning false (state (leave n (Normal v) w)))]).
      split; [|split; [|split; [|split; [|split]]]].
      * unfold grows in *. simpl. rewrite Hg, <- app_assoc. reflexivity.
      * rewrite events_app, He. reflexivity.
      * apply keeps_app; [exact Hk|]. repeat constructor. exact Hc.
      * exact Hc.
      * exact Hl.
      * exact Hf.
    + exists (h ++ [Did (Log LError "Database query error" (VObj [("error", err)]));
                    Stored (set_isQueryRunning false (state (leave n (Raised err) w)))]).
      split; [|split; [|split; [|split; [|split]]]].
      * unfold grows in *. simpl. rewrite Hg, <- !app_assoc. reflexivity.
      * rewrite events_app, He. simpl. symmetry. apply repeat_cons.
      * apply keeps_app; [exact Hk|]. repeat constructor. exact Hc.
      * exact Hc.
      * exact Hl.
      * exact Hf.
Qed.

Lemma leave_not_running n o w :
  isQueryRunning (state (leave (S n) o w)) = false.
Proof. simpl. destruct o; reflexivity. Qed.

End EnterLeave.

(** ** [this.query], awaited *)

Section ThisQuery.
Context (env : Env).
Implicit Types (w : World Client).

Lemma past_did {S} e (w : World S) : past (did e w) = past w ++ [e].
Proof. unfold past, did. simpl. now rewrite events_app. Qed.

Lemma past_store {S} s (w : World S) : past (store s w) = past w.
Proof. unfold past, store. simpl. rewrite events_app. simpl. apply app_nil_r. Qed.

(** The completion of [this.query(text, params)] is the driver's answer
    itself; the call reaches the driver once, and nothing but [lastQuery]
    and [isQueryRunning] is written. *)
Lemma exec_this_query text params w :
  let o := answer env text params w in
  exists w' h,
    exec env (this_query text params) w = (o, w')
    /\ grows w w' h
    /\ events h = Dispatch (Query text params) :: Settle (Query text params) o
                    :: error_logs (layers (query (state w))) o
    /\ keeps (fun s => control s = control (state w)) h
    /\ control (state w') = control (state w)
    /\ floating w' = floating w.
Proof.
  intros o. unfold this_query. simpl exec. rewrite exec_call_query. cbv zeta.
  set (n := layers (query (state w))).
  destruct (enter_grows n text params w) as (h1 & Hg1 & He1 & Hk1 & Hc1 & Hf1).
  assert (Hp : past (did (Dispatch (Query text params)) (enter n text params w))
               = past w ++ [Dispatch (Query text params)]).
  { rewrite past_did, (grows_past _ _ _ Hg1), He1, app_nil_r. reflexivity. }
  rewrite Hp. fold (answer env text params w). fold o.
  set (w2 := did (Settle (Query text params) o)
               (did (Dispatch (Query text params)) (enter n text params w))).
  destruct (leave_grows n o w2) as (h2 & Hg2 & He2 & Hk2 & Hc2 & Hl2 & Hf2).
  exists (leave n o w2), (h1 ++ [Did (Dispatch (Query text params));
                                 Did (Settle (Query text params) o)] ++ h2).
  split; [reflexivity|]. split; [|split; [|split; [|split]]].
  - eapply grows_trans; [exact Hg1|].
    eapply grows_trans; [|exact Hg2].
    unfold grows, w2. simpl. rewrite <- app_assoc. reflexivity.
  - rewrite !events_app, He1, He2. reflexivity.
  - apply keeps_app; [exact Hk1|]. apply keeps_app; [repeat constructor|].
    eapply keeps_impl; [|exact Hk2]. intros s ->. exact Hc1.
  - rewrite Hc2. exact Hc1.
  - rewrite Hf2. exact Hf1.
Qed.

(** The same call, with the place of the statement in the history: the
    writes of the way in, the statement with the driver, its answer, and
    the way out. *)
Lemma exec_this_query_shape text params w :
  let o := answer env text params w in
  exists w' h1 h2,
    exec env (this_query text params) w = (o, w')
    /\ grows w w' (h1 ++ Did (Dispatch (Query text params))
                      :: Did (Settle (Query text params) o) :: h2)
    /\ events h1 = []
    /\ keeps (fun s => control s = control (state w)) h1
    /\ events h2 = error_logs (layers (query (state w))) o
    /\ keeps (fun s => control s = control (state w)) h2.
Proof.
  intros o. unfold this_query. simpl exec. rewrite exec_call_query. cbv zeta.
  set (n := layers (query (state w))).
  destruct (enter_grows n text params w) as (h1 & Hg1 & He1 & Hk1 & Hc1 & Hf1).
  assert (Hp : past (did (Dispatch (Query text params)) (enter n text params w))
               = past w ++ [Dispatch (Query text params)]).
  { rewrite past_did, (grows_past _ _ _ Hg1), He1, app_nil_r. reflexivity. }
  rewrite Hp. fold (answer env text params w). fold o.
  set (w2 := did (Settle (Query text params) o)
               (did (Dispatch (Query text params)) (enter n text params w))).
  destruct (leave_grows n o w2) as (h2 & Hg2 & He2 & Hk2 & Hc2 & Hl2 & Hf2).
  exists (leave n o w2), h1, h2.
  split; [reflexivity|]. split; [|split; [|split; [|split]]]; auto.
  - unfold grows in *. rewrite Hg2. unfold w2. simpl. rewrite Hg1.
    rewrite <- !app_assoc. reflexivity.
  - eapply keeps_impl; [|exact Hk2]. intros s ->. exact Hc1.
Qed.

End ThisQuery.

(** ** The patched [query]: what it records and what it sends *)

Lemma sent_app evs1 evs2 : sent (evs1 ++ evs2) = sent evs1 ++ sent evs2.
Proof.
  induction evs1 as [|e evs1 IH]; simpl; [reflexivity|].
  destruct e as [| [] | | | | | |]; simpl; now rewrite ?IH.
Qed.

Lemma sent_error_logs n o : sent (error_logs n o) = [].
Proof. destruct o; simpl; [reflexivity|]. induction n; simpl; auto. Qed.

Section QueryFacts.
Context (env : Env).
Implicit Types (w : World Client).

(** part_000 and part_001 *)
Lemma query_records old text params w :
  let w' := snd (exec env (call_query (PatchedQuery old) text params) w) in
  lastQuery (state w') = Some (trimmedText text, params)
  /\ isQueryRunning (state w') = false
  /\ sent (since w w') = [text].
Proof.
  intros w'. subst w'. rewrite exec_call_query. cbn [snd layers].
  set (n := layers old).
  set (c := Query text params).
  set (w1 := did (Dispatch c) (enter (S n) text params w)).
  set (o := driver env (past w1) c).
  destruct (enter_grows (S n) text params w) as (h1 & Hg1 & He1 & _).
  destruct (enter_lastQuery n text params w) as (Hl1 & _).
  destruct (leave_grows (S n) o (did (Settle c o) w1)) as (h2 & Hg2 & He2 & _ & _ & Hl2 & _).
  split; [|split].
  - rewrite Hl2. exact Hl1.
  - apply leave_not_running.
  - assert (Hg : grows w (leave (S n) o (did (Settle c o) w1))
                   (h1 ++ [Did (Dispatch c); Did (Settle c o)] ++ h2)).
    { eapply grows_trans; [exact Hg1|]. eapply grows_trans; [|exact Hg2].
      unfold grows, w1. simpl. rewrite <- app_assoc. reflexivity. }
    rewrite (grows_since _ _ _ Hg), !events_app, He1, He2. simpl.
    now rewrite sent_error_logs.
Qed.

(** src/database.js *)
Lemma plain_query_run m text params w :
  exists o w' h,
    exec env (Plain.call_query m text params) w = (o, w')
    /\ grows w w' h
    /\ sent (events h) = [text]
    /\ lastQuery (state w') =
       (if queryWasPatched m then Some (text, params) else lastQuery (state w)).
Proof.
  revert w. induction m as [|old _|old IH]; intros w.
  - do 3 eexists. split; [simpl; apply exec_settled|].
    split; [unfold grows; simpl; rewrite <- app_assoc; reflexivity|]. auto.
  - do 3 eexists. split; [simpl; apply exec_settled|].
    split; [unfold grows; simpl; rewrite <- app_assoc; reflexivity|]. auto.
  - cbn [Plain.call_query]. unfold log. cbn [modify bind exec state store did].
    rewrite exec_finally, exec_catch, exec_bind.
    set (w0 := store _ (store _ (did _ w))).
    destruct (IH w0) as (o & w1 & h & He & Hg & Hs & Hl).
    assert (Hl1 : lastQuery (state w1) = Some (text, params)).
    { rewrite Hl. destruct (queryWasPatched old); reflexivity. }
    assert (Hg0 : grows w w0
              [Did (Log LTrace "Issuing query" (VObj [("text", VStr text); ("params", params)]));
               Stored (set_lastQuery (Some (text, params)) (state w));
               Stored (set_isQueryRunning true (set_lastQuery (Some (text, params)) (state w)))]).
    { unfold grows, w0. simpl. rewrite <- !app_assoc. reflexivity. }
    rewrite He. destruct o as [v|e]; cbn [exec modify log bind].
    + do 3 eexists. split; [reflexivity|].
      split; [eapply grows_trans; [eapply grows_trans; [exact Hg0|exact Hg]|apply grows_store]|].
      rewrite !events_app, !sent_app, Hs. simpl. auto.
    + do 3 eexists. split; [reflexivity|].
      split; [eapply grows_trans;
               [eapply grows_trans; [exact Hg0|exact Hg]|
                eapply grows_trans; [apply grows_did|apply grows_store]]|].
      rewrite !events_app, !sent_app, Hs. simpl. auto.
Qed.

End QueryFacts.

(** ** part_001: [release] and the rollback it does not await *)

Lemma control_fields (a b : Client) :
  control a = control b ->
  isWithinTransaction a = isWithinTransaction b
  /\ sanityTimeout a = sanityTimeout b /\ table a = table b.
Proof. unfold control, table. intros H. injection H as -> -> -> -> -> -> -> ->. auto. Qed.

Lemma count_repeat_log p lvl msg data n :
  p (Log lvl msg data) = false -> count p (repeat (Log lvl msg data) n) = 0.
Proof. intros H. induction n; simpl; [reflexivity|]. now rewrite H. Qed.

Lemma count_error_logs p n o :
  (forall lvl msg data, p (Log lvl msg data) = false) -> count p (error_logs n o) = 0.
Proof. intros H. destruct o; simpl; [reflexivity|]. now apply count_repeat_log. Qed.

Section TxRuns.
Context (env : Env).
Implicit Types (w : World Client).

Lemma prefix_rollback_in w :
  isWithinTransaction (state w) = true ->
  prefix env Tx.rollbackTransactionIfNotCommitted w =
  (Suspended (Query "rollback" VUndefined) (rollback_rest (query (state w))),
   did (Dispatch (Query "rollback" VUndefined))
     (enter (layers (query (state w))) "rollback" VUndefined
        (did (Log LWarn "Rolling back transaction" VUndefined)
           (store (set_isWithinTransaction false (state w)) w)))).
Proof.
  intros H. unfold Tx.rollbackTransactionIfNotCommitted. simpl prefix. rewrite H.
  simpl. rewrite prefix_bind, prefix_call_query. reflexivity.
Qed.

Lemma prefix_rollback_out w :
  isWithinTransaction (state w) = false ->
  prefix env Tx.rollbackTransactionIfNotCommitted w = (Finished (Normal VUndefined), w).
Proof.
  intros H. unfold Tx.rollbackTransactionIfNotCommitted. simpl prefix. now rewrite H.
Qed.

Lemma settle_down_grows w :
  exists h, grows w (settle_down w) h
    /\ events h = match sanityTimeout (state w) with
                  | Some t => [ClearTimeout t]
                  | None => []
                  end
    /\ keeps (fun s => isWithinTransaction s = isWithinTransaction (state w)) h
    /\ isWithinTransaction (state (settle_down w)) = isWithinTransaction (state w)
    /\ isQueryRunning (state (settle_down w)) = false
    /\ sanityTimeout (state (settle_down w)) = None
    /\ table (state (settle_down w)) = table (state w)
    /\ floating (settle_down w) = floating w.
Proof.
  unfold settle_down. cbn [state store].
  change (sanityTimeout (set_isQueryRunning false (state w))) with (sanityTimeout (state w)).
  destruct (sanityTimeout (state w)) as [t|] eqn:Hs.
  - exists [Stored (set_isQueryRunning false (state w)); Did (ClearTimeout t);
            Stored (set_sanityTimeout None (set_isQueryRunning false (state w)))].
    split; [unfold grows; simpl; rewrite <- !app_assoc; reflexivity|].
    repeat split; repeat constructor.
  - exists [Stored (set_isQueryRunning false (state w))].
    split; [reflexivity|]. simpl. rewrite Hs. repeat split; repeat constructor.
Qed.

(** The rollback that [release] starts: the flag is cleared, the statement
    is with the driver, and the rest of the function floats. *)
Lemma rollback_floats w :
  isWithinTransaction (state w) = true ->
  let w1 := detach (prefix env Tx.rollbackTransactionIfNotCommitted w) in
  exists h, grows w w1 h
    /\ events h = [Log LWarn "Rolling back transaction" VUndefined;
                   Dispatch (Query "rollback" VUndefined)]
    /\ keeps (fun s => isWithinTransaction s = false) h
    /\ isWithinTransaction (state w1) = false
    /\ sanityTimeout (state w1) = sanityTimeout (state w)
    /\ table (state w1) = table (state w)
    /\ floating w1 = floating w ++
         [mkFloating (Query "rollback" VUndefined) (rollback_rest (query (state w)))].
Proof.
  intros Hin w1. subst w1. rewrite (prefix_rollback_in w Hin). unfold detach.
  set (wl := did (Log LWarn "Rolling back transaction" VUndefined)
               (store (set_isWithinTransaction false (state w)) w)).
  destruct (enter_grows (layers (query (state w))) "rollback" VUndefined wl)
    as (h1 & Hg1 & He1 & Hk1 & Hc1 & Hf1).
  apply control_fields in Hc1. destruct Hc1 as (Hc1 & Ht1 & Htab1).
  exists ([Stored (set_isWithinTransaction false (state w));
           Did (Log LWarn "Rolling back transaction" VUndefined)]
          ++ h1 ++ [Did (Dispatch (Query "rollback" VUndefined))]).
  split; [|split; [|split; [|split; [|split; [|split]]]]].
  - unfold grows in *. simpl. rewrite Hg1. unfold wl. simpl.
    rewrite <- !app_assoc. reflexivity.
  - rewrite !events_app, He1. reflexivity.
  - apply keeps_app; [repeat constructor|].
    apply keeps_app; [|repeat constructor].
    eapply keeps_impl; [|exact Hk1]. intros s Hs.
    apply control_fields in Hs. destruct Hs as (Hs & _). exact Hs.
  - exact Hc1.
  - exact Ht1.
  - exact Htab1.
  - simpl. rewrite Hf1. reflexivity.
Qed.

(** One closure of [release], up to the call of [oldReleaseMethod]. *)
Lemma released_grows w :
  exists h, grows w (released env w) h
    /\ dispatched "rollback" (events h) = (if isWithinTransaction (state w) then 1 else 0)
    /\ count is_dispatch (events h) = (if isWithinTransaction (state w) then 1 else 0)
    /\ count arms_timer (events h) = 0
    /\ isWithinTransaction (state (released env w)) = false
    /\ isQueryRunning (state (released env w)) = false
    /\ sanityTimeout (state (released env w)) = None
    /\ table (state (released env w)) = table (state w)
    /\ floating (released env w) =
       floating w ++
       (if isWithinTransaction (state w)
        then [mkFloating (Query "rollback" VUndefined) (rollback_rest (query (state w)))]
        else []).
Proof.
  unfold released.
  set (w0 := did (Log LTrace "Releasing client" (VObj [("id", uniqueId (state w))])) w).
  assert (Hg0 : grows w w0 [Did (Log LTrace "Releasing client"
                                   (VObj [("id", uniqueId (state w))]))])
    by apply grows_did.
  destruct (isWithinTransaction (state w)) eqn:Hin.
  - destruct (rollback_floats w0 Hin) as (h1 & Hg1 & He1 & _ & Hc1 & Ht1 & Htab1 & Hf1).
    set (w1 := detach (prefix env Tx.rollbackTransactionIfNotCommitted w0)) in *.
    destruct (settle_down_grows w1) as (h2 & Hg2 & He2 & _ & Hc2 & Hr2 & Ht2 & Htab2 & Hf2).
    exists (([Did (Log LTrace "Releasing client" (VObj [("id", uniqueId (state w))]))]
             ++ h1) ++ h2).
    split; [eapply grows_trans; [eapply grows_trans|]; eassumption|].
    rewrite !events_app, He1, He2. unfold dispatched. rewrite !count_app.
    rewrite Hc2, Hc1, Htab2, Htab1, Hf2, Hf1.
    destruct (sanityTimeout (state w1)); repeat split; auto.
  - rewrite (prefix_rollback_out w0 Hin). unfold detach.
    destruct (settle_down_grows w0) as (h2 & Hg2 & He2 & _ & Hc2 & Hr2 & Ht2 & Htab2 & Hf2).
    exists ([Did (Log LTrace "Releasing client" (VObj [("id", uniqueId (state w))]))]
            ++ h2).
    split; [eapply grows_trans; eassumption|].
    rewrite !events_app, He2. unfold dispatched. rewrite !count_app.
    rewrite Hc2, Htab2, Hf2, app_nil_r.
    destruct (sanityTimeout (state w0)); repeat split; auto.
Qed.

Lemma exec_modify {S} (f : S -> S) (w : World S) :
  exec env (modify f) w = (Normal VUndefined, store (f (state w)) w).
Proof. reflexivity. Qed.

Lemma exec_log {S} lvl msg data (w : World S) :
  exec env (log lvl msg data) w = (Normal VUndefined, did (Log lvl msg data) w).
Proof. reflexivity. Qed.

Lemma exec_clearSanityTimeout w :
  exec env (do modify (set_isQueryRunning false); clearSanityTimeout) w =
  (Normal VUndefined, settle_down w).
Proof.
  rewrite exec_bind, exec_modify. unfold clearSanityTimeout, settle_down.
  cbn [exec]. destruct (sanityTimeout _); reflexivity.
Qed.

Lemma exec_release_pool w :
  exec env (Tx.call_release PoolRelease) w =
  (pool_release env (past w), did (NativeRelease (pool_release env (past w))) w).
Proof. simpl. apply exec_settled. Qed.

Lemma exec_release_patched old w :
  "rollbackTransactionIfNotCommitted" ∈ methods (state w) ->
  exec env (Tx.call_release (PatchedRelease old)) w =
  exec env (Tx.call_release old) (released env w).
Proof.
  intros Hin. cbn [Tx.call_release exec]. unfold log. cbn [bind exec].
  unfold unawaited. cbn [exec state did].
  destruct (decide ("rollbackTransactionIfNotCommitted" ∈ methods (state w))) as [_|Hn];
    [|contradiction].
  cbn [exec].
  change (do modify (set_isQueryRunning false); do clearSanityTimeout; Tx.call_release old)
    with (do (do modify (set_isQueryRunning false); clearSanityTimeout); Tx.call_release old).
  rewrite exec_bind, exec_clearSanityTimeout. reflexivity.
Qed.

Lemma exec_release_missing old w :
  "rollbackTransactionIfNotCommitted" ∉ methods (state w) ->
  exec env (Tx.call_release (PatchedRelease old)) w =
  (Raised (not_a_function "rollbackTransactionIfNotCommitted"),
   did (Log LTrace "Releasing client" (VObj [("id", uniqueId (state w))])) w).
Proof.
  intros Hout. cbn [Tx.call_release exec]. unfold log. cbn [bind exec].
  unfold unawaited. cbn [exec state did].
  destruct (decide ("rollbackTransactionIfNotCommitted" ∈ methods (state w))) as [Hin|_];
    [contradiction|]. reflexivity.
Qed.

(** Outside a transaction [release] hands nothing to the driver, whatever
    the stack of closures. *)
Lemma release_quiet m w :
  isWithinTransaction (state w) = false ->
  exists r w' h,
    exec env (Tx.call_release m) w = (r, w')
    /\ grows w w' h
    /\ count is_dispatch (events h) = 0
    /\ count arms_timer (events h) = 0
    /\ isWithinTransaction (state w') = false
    /\ table (state w') = table (state w)
    /\ floating w' = floating w
    /\ (sanityTimeout (state w) = None -> sanityTimeout (state w') = None).
Proof.
  revert w. induction m as [|old IH]; intros w Hout.
  - rewrite exec_release_pool. do 3 eexists. split; [reflexivity|].
    split; [apply grows_did|]. simpl. repeat split; auto.
  - destruct (decide ("rollbackTransactionIfNotCommitted" ∈ methods (state w))) as [Hin|Hn].
    + rewrite (exec_release_patched old w Hin).
      destruct (released_grows w) as (h1 & Hg1 & _ & Hd1 & Ha1 & Hc1 & _ & Ht1 & Htab1 & Hf1).
      rewrite Hout in *. rewrite app_nil_r in Hf1.
      destruct (IH (released env w) Hc1) as (r & w' & h2 & He & Hg2 & Hd2 & Ha2 & Hc2 & Htab2 & Hf2 & Ht2).
      exists r, w', (h1 ++ h2). split; [exact He|].
      split; [eapply grows_trans; eassumption|].
      rewrite events_app, !count_app, Hd1, Hd2, Ha1, Ha2, Htab2, Htab1, Hf2, Hf1.
      repeat split; auto.
    + rewrite (exec_release_missing old w Hn). do 3 eexists. split; [reflexivity|].
      split; [apply grows_did|]. simpl. repeat split; auto.
Qed.

Lemma dispatched_le text evs : dispatched text evs <= count is_dispatch evs.
Proof.
  unfold dispatched. induction evs as [|e evs IH]; simpl; [lia|].
  destruct e; simpl; try exact IH. destruct (is_statement text c); lia.
Qed.

(** [this.release()] on any client. *)
Lemma release_run w :
  exists r w' h,
    exec env Tx.this_release w = (r, w')
    /\ grows w w' h
    /\ count arms_timer (events h) = 0
    /\ table (state w') = table (state w)
    /\ (rolls (state w) = true ->
        isWithinTransaction (state w') = false
        /\ dispatched "rollback" (events h) = (if isWithinTransaction (state w) then 1 else 0)
        /\ count is_dispatch (events h) = (if isWithinTransaction (state w) then 1 else 0)
        /\ sanityTimeout (state w') = None
        /\ floating w' =
           floating w ++
           (if isWithinTransaction (state w)
            then [mkFloating (Query "rollback" VUndefined) (rollback_rest (query (state w)))]
            else []))
    /\ (rolls (state w) = false ->
        count is_dispatch (events h) = 0
        /\ isWithinTransaction (state w') = isWithinTransaction (state w)
        /\ floating w' = floating w
        /\ sanityTimeout (state w') = sanityTimeout (state w)).
Proof.
  unfold Tx.this_release, rolls. cbn [exec].
  destruct (release (state w)) as [|old] eqn:Hrel.
  - rewrite exec_release_pool. do 3 eexists. split; [reflexivity|].
    split; [apply grows_did|]. simpl. repeat split; auto; discriminate.
  - destruct (decide ("rollbackTransactionIfNotCommitted" ∈ methods (state w))) as [Hin|Hn].
    + rewrite (exec_release_patched old w Hin).
      destruct (released_grows w) as (h1 & Hg1 & Hr1 & Hd1 & Ha1 & Hc1 & _ & Ht1 & Htab1 & Hf1).
      destruct (release_quiet old (released env w) Hc1)
        as (r & w' & h2 & He & Hg2 & Hd2 & Ha2 & Hc2 & Htab2 & Hf2 & Ht2).
      exists r, w', (h1 ++ h2). split; [exact He|].
      split; [eapply grows_trans; eassumption|].
      assert (Hz : dispatched "rollback" (events h2) = 0).
      { pose proof (dispatched_le "rollback" (events h2)). lia. }
      unfold dispatched in *.
      rewrite events_app, !count_app, Hr1, Hd1, Hd2, Ha1, Ha2, Hz, Htab2, Htab1, Hf2, Hf1.
      rewrite bool_decide_eq_true_2 by exact Hin.
      repeat split; auto; try discriminate; lia.
    + rewrite (exec_release_missing old w Hn). do 3 eexists. split; [reflexivity|].
      split; [apply grows_did|]. simpl.
      rewrite bool_decide_eq_false_2 by exact Hn.
      repeat split; auto; discriminate.
Qed.

Lemma rolls_table (a b : Client) : table a = table b -> rolls a = rolls b.
Proof. unfold table, rolls. intros H. injection H as _ _ _ _ -> ->. reflexivity. Qed.

Lemma resume_idle {S} (w : World S) : floating w = [] -> resume env w = w.
Proof. unfold resume. now intros ->. Qed.

(** When the driver answers the floating rollback, the rest of the function
    only writes [isQueryRunning] and logs. *)
Lemma resume_rollback m w :
  floating w = [mkFloating (Query "rollback" VUndefined) (rollback_rest m)] ->
  exists h, grows w (resume env w) h
    /\ count is_dispatch (events h) = 0
    /\ count arms_timer (events h) = 0
    /\ control (state (resume env w)) = control (state w)
    /\ floating (resume env w) = [].
Proof.
  intros Hf. unfold resume. rewrite Hf. cbn [fl_call fl_resume].
  set (o := driver env (past w) (Query "rollback" VUndefined)).
  set (w1 := mkWorld (state w) (history w ++ [Did (Settle (Query "rollback" VUndefined) o)]) []).
  unfold rollback_rest. rewrite exec_bind, exec_query_rest.
  destruct (leave_grows (layers m) o w1) as (h & Hg & He & _ & Hc & _ & Hfl).
  assert (Hg1 : grows w w1 [Did (Settle (Query "rollback" VUndefined) o)]) by reflexivity.
  assert (Hn : forall p, (forall lvl msg data, p (Log lvl msg data) = false) ->
                 count p (events h) = 0).
  { intros p Hp. rewrite He. now apply count_error_logs. }
  destruct o as [v|e]; cbn [exec].
  - exists ([Did (Settle (Query "rollback" VUndefined) (Normal v))] ++ h).
    split; [eapply grows_trans; eassumption|].
    rewrite events_app, !count_app, !Hn by reflexivity. repeat split; assumption.
  - exists (([Did (Settle (Query "rollback" VUndefined) (Raised e))] ++ h) ++ [Did (Unhandled e)]).
    split; [eapply grows_trans; [eapply grows_trans; eassumption|apply grows_did]|].
    rewrite !events_app, !count_app, !Hn by reflexivity. repeat split; assumption.
Qed.

(** *** [beginTransaction] and [commitTransaction] of part_001 *)

Lemma exec_begin_misuse w :
  isWithinTransaction (state w) = true ->
  exec env Tx.beginTransaction w =
  (Normal (VBool false),
   did (Log LError "Tried to start transaction in transaction" VUndefined) w).
Proof. intros H. unfold Tx.beginTransaction. cbn [exec]. now rewrite H. Qed.

Lemma exec_begin_fresh w :
  isWithinTransaction (state w) = false ->
  exec env Tx.beginTransaction w =
  match exec env (this_query "begin" VUndefined)
          (did (Log LTrace "begin transaction" VUndefined) w) with
  | (Normal _, w1) => (Normal VUndefined, store (set_isWithinTransaction true (state w1)) w1)
  | (Raised e, w1) => (Raised e, w1)
  end.
Proof.
  intros H. unfold Tx.beginTransaction. cbn [exec]. rewrite H.
  unfold log. cbn [bind exec]. rewrite exec_bind.
  destruct (exec env (this_query "begin" VUndefined) _) as [[v|e] w1]; reflexivity.
Qed.

Lemma exec_commit_misuse w :
  isWithinTransaction (state w) = false ->
  exec env Tx.commitTransaction w =
  (Normal (VBool false),
   did (Log LError "Tried to commit transaction outside of transaction" VUndefined) w).
Proof. intros H. unfold Tx.commitTransaction. cbn [exec]. now rewrite H. Qed.

Lemma exec_commit_open w :
  isWithinTransaction (state w) = true ->
  exec env Tx.commitTransaction w =
  match exec env (this_query "commit" VUndefined)
          (store (set_isWithinTransaction false (state w)) w) with
  | (Normal _, w1) => (Normal VUndefined, w1)
  | (Raised e, w1) => (Raised e, w1)
  end.
Proof.
  intros H. unfold Tx.commitTransaction. cbn [exec]. rewrite H.
  cbn [negb modify bind exec]. rewrite exec_bind.
  destruct (exec env (this_query "commit" VUndefined) _) as [[v|e] w1]; reflexivity.
Qed.

(** [beginTransaction], whatever the client: what it returns, what it
    writes and what it hands to the driver. *)
Lemma begin_run w :
  exists r w1 h,
    exec env Tx.beginTransaction w = (r, w1)
    /\ grows w w1 h
    /\ table (state w1) = table (state w)
    /\ floating w1 = floating w
    /\ dispatched "begin" (events h) = (if isWithinTransaction (state w) then 0 else 1)
    /\ isWithinTransaction (state w1) = (isWithinTransaction (state w) || returns r)
    /\ (forall v, r = Normal v ->
        v = if isWithinTransaction (state w) then VBool false else VUndefined).
Proof.
  destruct (isWithinTransaction (state w)) eqn:Hin.
  - rewrite (exec_begin_misuse w Hin). do 3 eexists. split; [reflexivity|].
    split; [apply grows_did|]. simpl. repeat split; auto. intros; congruence.
  - rewrite (exec_begin_fresh w Hin).
    set (w0 := did (Log LTrace "begin transaction" VUndefined) w).
    destruct (exec_this_query env "begin" VUndefined w0)
      as (w1 & h & He & Hg & Hev & _ & Hc & Hf).
    rewrite He. apply control_fields in Hc. destruct Hc as (Hc & _ & Htab).
    assert (Hd : dispatched "begin"
                   (events ([Did (Log LTrace "begin transaction" VUndefined)] ++ h)) = 1).
    { rewrite events_app, Hev. unfold dispatched. simpl.
      rewrite count_error_logs by reflexivity. reflexivity. }
    assert (Hg0 : grows w w1 ([Did (Log LTrace "begin transaction" VUndefined)] ++ h)).
    { eapply grows_trans; [apply grows_did|exact Hg]. }
    destruct (answer env "begin" VUndefined w0) as [v|e].
    + exists (Normal VUndefined), (store (set_isWithinTransaction true (state w1)) w1).
      eexists. split; [reflexivity|].
      split; [eapply grows_trans; [exact Hg0|apply grows_store]|].
      rewrite events_app. unfold dispatched in *. rewrite count_app, Hd.
      simpl. repeat split; auto. intros; congruence.
    + do 3 eexists. split; [reflexivity|]. split; [exact Hg0|].
      rewrite Hd. simpl. repeat split; auto; [now rewrite Hc|intros; discriminate].
Qed.

(** [commitTransaction] alike; inside a transaction its first step is the
    write of the flag. *)
Lemma commit_run w :
  exists r w1 h,
    exec env Tx.commitTransaction w = (r, w1)
    /\ grows w w1 h
    /\ table (state w1) = table (state w)
    /\ floating w1 = floating w
    /\ dispatched "commit" (events h) = (if isWithinTransaction (state w) then 1 else 0)
    /\ isWithinTransaction (state w1) = false
    /\ (forall v, r = Normal v ->
        v = if isWithinTransaction (state w) then VUndefined else VBool false)
    /\ (isWithinTransaction (state w) = true ->
        exists h', h = Stored (set_isWithinTransaction false (state w)) :: h'
                   /\ keeps (fun s => isWithinTransaction s = false) h').
Proof.
  destruct (isWithinTransaction (state w)) eqn:Hin.
  - rewrite (exec_commit_open w Hin).
    set (w0 := store (set_isWithinTransaction false (state w)) w).
    destruct (exec_this_query env "commit" VUndefined w0)
      as (w1 & h & He & Hg & Hev & Hk & Hc & Hf).
    rewrite He. apply control_fields in Hc. destruct Hc as (Hc & _ & Htab).
    assert (Hg0 : grows w w1 ([Stored (set_isWithinTransaction false (state w))] ++ h)).
    { eapply grows_trans; [apply grows_store|exact Hg]. }
    assert (Hd : dispatched "commit" (events h) = 1).
    { rewrite Hev. unfold dispatched. simpl.
      rewrite count_error_logs by reflexivity. reflexivity. }
    assert (Hk' : keeps (fun s => isWithinTransaction s = false) h).
    { eapply keeps_impl; [|exact Hk]. intros s Hs.
      apply control_fields in Hs. now destruct Hs as (-> & _). }
    destruct (answer env "commit" VUndefined w0) as [v|e];
      do 3 eexists; (split; [reflexivity|]); (split; [exact Hg0|]);
      simpl; rewrite Hd; repeat split; auto; try (intros; discriminate);
      try (intros; congruence); try (intros _; eauto).
  - rewrite (exec_commit_misuse w Hin). do 3 eexists. split; [reflexivity|].
    split; [apply grows_did|]. simpl. repeat split; auto; try (intros; discriminate).
    intros; congruence.
Qed.

(** The queries of a handler leave the transaction flag, the timer and
    the methods alone. *)
Lemma run_queries_grows qs w :
  exists h, grows w (run_queries env qs w) h
    /\ control (state (run_queries env qs w)) = control (state w)
    /\ floating (run_queries env qs w) = floating w.
Proof.
  revert w. induction qs as [|[text params] qs IH]; intros w.
  - exists []. split; [apply grows_refl|]. auto.
  - change (run_queries env ((text, params) :: qs) w)
      with (run_queries env qs (snd (exec env (this_query text params) w))).
    destruct (exec_this_query env text params w) as (w1 & h1 & He & Hg & _ & _ & Hc & Hf).
    rewrite He. cbn [snd]. destruct (IH w1) as (h2 & Hg2 & Hc2 & Hf2).
    exists (h1 ++ h2). split; [eapply grows_trans; eassumption|].
    now rewrite Hc2, Hc, Hf2, Hf.
Qed.

End TxRuns.

(** ** Moments of a run *)

Section Moments.
Context {S : Type}.
Implicit Types (s : S) (h : list (Entry S)) (fl : list Call).

Lemma moments_app s fl h1 h2 :
  moments s fl (h1 ++ h2) =
  moments s fl h1 ++ moments (state_after s h1) (flight_after fl h1) h2.
Proof.
  revert s fl. induction h1 as [|[e|s'] h1 IH]; intros s fl; simpl;
    [reflexivity | f_equal; apply IH | f_equal; apply IH].
Qed.

Lemma never_app (bad : S * list Call -> bool) s fl h1 h2 :
  never bad s fl (h1 ++ h2) =
  never bad s fl h1 && never bad (state_after s h1) (flight_after fl h1) h2.
Proof. unfold never. rewrite moments_app. apply forallb_app. Qed.

Lemma state_after_keeps (P : S -> Prop) s h : P s -> keeps P h -> P (state_after s h).
Proof.
  revert s. induction h as [|[e|s'] h IH]; intros s Hs Hh; simpl; [exact Hs| |];
    inversion Hh; subst; now apply IH.
Qed.

Lemma flight_after_silent fl h : events h = [] -> flight_after fl h = fl.
Proof.
  revert fl. induction h as [|[e|s'] h IH]; intros fl He; simpl;
    [reflexivity | discriminate | now apply IH].
Qed.

(** While every write keeps the object out of [bad], no moment is bad. *)
Lemma never_keeps (bad : S * list Call -> bool) (P : S -> Prop) s fl h :
  (forall s' fl', P s' -> bad (s', fl') = false) ->
  P s -> keeps P h -> never bad s fl h = true.
Proof.
  intros Hbad Hs Hh. unfold never. apply forallb_forall. intros [s' fl'] Hm.
  pose proof (moments_keeps P s fl h Hs Hh) as Hall.
  rewrite Forall_forall in Hall. apply list_elem_of_In in Hm.
  specialize (Hall _ Hm). simpl in Hall. now rewrite Hbad.
Qed.

End Moments.

(** ** Calls in flight *)

Lemma call_eqb_statement text params c :
  call_eqb (Query text params) c = is_statement text c.
Proof. destruct c; [apply String.eqb_sym | reflexivity]. Qed.

(** A statement that is dispatched and answered leaves in flight what was
    in flight, when no other statement of that text was. *)
Lemma settle_dispatched text params fl :
  existsb (is_statement text) fl = false ->
  settle_one (Query text params) (fl ++ [Query text params]) = fl.
Proof.
  induction fl as [|c fl IH]; intros Hfl.
  - cbn [app settle_one]. rewrite call_eqb_statement. cbn [is_statement].
    now rewrite String.eqb_refl.
  - cbn [existsb] in Hfl. apply orb_false_elim in Hfl. destruct Hfl as [Hc Hfl].
    cbn [app settle_one]. rewrite call_eqb_statement, Hc. now rewrite IH.
Qed.

Lemma fly_logs logs fl :
  (forall e, In e logs -> exists l m d, e = Log l m d) ->
  fold_left (fun fl e => fly e fl) logs fl = fl.
Proof.
  revert fl. induction logs as [|e logs IH]; intros fl Hlogs; [reflexivity|].
  destruct (Hlogs e (or_introl eq_refl)) as (l & m & d & ->). cbn [fold_left fly].
  apply IH. intros e' He'. apply Hlogs. now right.
Qed.

Lemma error_logs_are_logs n o e : In e (error_logs n o) -> exists l m d, e = Log l m d.
Proof.
  destruct o; simpl; [tauto|]. intros Hr. apply repeat_spec in Hr. eauto.
Qed.

(** ** part_000, lines 190-453: the [async] transaction methods *)

Section AsyncTxRuns.
Context (env : Env).
Implicit Types (w : World Client).

Lemma exec_asyncBegin_misuse w :
  isWithinTransaction (state w) = true ->
  exec env AsyncTx.asyncBeginTransaction w =
  (Normal (VBool false),
   did (Log LError "Tried to start transaction in transaction" VUndefined) w).
Proof. intros H. unfold AsyncTx.asyncBeginTransaction. cbn [exec]. now rewrite H. Qed.

Lemma exec_asyncBegin_fresh w :
  isWithinTransaction (state w) = false ->
  exec env AsyncTx.asyncBeginTransaction w =
  match exec env (this_query "begin" VUndefined)
          (store (set_isWithinTransaction true (state w))
             (did (Log LTrace "BEGIN <" (uniqueId (state w))) w)) with
  | (Normal _, w1) => (Normal VUndefined, did (Log LTrace "BEGIN < Done" (uniqueId (state w1))) w1)
  | (Raised e, w1) => (Raised e, w1)
  end.
Proof.
  intros H. unfold AsyncTx.asyncBeginTransaction. cbn [exec]. rewrite H.
  unfold log. cbn [modify bind exec]. rewrite exec_bind.
  destruct (exec env (this_query "begin" VUndefined) _) as [[v|e] w1]; reflexivity.
Qed.

Lemma exec_asyncCommit_misuse w :
  isWithinTransaction (state w) = false ->
  exec env AsyncTx.asyncCommitTransaction w =
  (Normal (VBool false),
   did (Log LError "Tried to commit transaction outside of transaction on client"
          (uniqueId (state w))) w).
Proof. intros H. unfold AsyncTx.asyncCommitTransaction. cbn [exec]. now rewrite H. Qed.

Lemma exec_asyncCommit_open w :
  isWithinTransaction (state w) = true ->
  exec env AsyncTx.asyncCommitTransaction w =
  match exec env (this_query "commit" VUndefined)
          (did (Log LTrace "COMMIT <" (uniqueId (state w))) w) with
  | (Normal _, w1) =>
      (Normal VUndefined,
       did (Log LTrace "COMMIT < Done" (uniqueId (state w1)))
         (store (set_isWithinTransaction false (state w1)) w1))
  | (Raised e, w1) => (Raised e, w1)
  end.
Proof.
  intros H. unfold AsyncTx.asyncCommitTransaction. cbn [exec]. rewrite H.
  unfold log. cbn [negb bind exec]. rewrite exec_bind.
  destruct (exec env (this_query "commit" VUndefined) _) as [[v|e] w1]; reflexivity.
Qed.

Lemma exec_asyncTryRollback_out w :
  isWithinTransaction (state w) = false ->
  exec env AsyncTx.asyncTryRollback w =
  (Normal VUndefined,
   did (Log LTrace "Called rollbackIfNotCommitted, within transaction = "
          (VObj [("0", VBool false); ("1", VStr "on client with id");
                 ("2", uniqueId (state w))])) w).
Proof. intros H. unfold AsyncTx.asyncTryRollback. cbn [exec]. now rewrite H. Qed.

Lemma exec_asyncTryRollback_in w :
  isWithinTransaction (state w) = true ->
  exec env AsyncTx.asyncTryRollback w =
  match exec env (this_query "rollback" VUndefined)
          (store (set_isWithinTransaction false (state w))
             (did (Log LWarn "ROLLBACK <" (uniqueId (state w)))
                (did (Log LTrace "Called rollbackIfNotCommitted, within transaction = "
                        (VObj [("0", VBool true); ("1", VStr "on client with id");
                               ("2", uniqueId (state w))])) w))) with
  | (Normal _, w1) =>
      (Normal VUndefined, did (Log LWarn "ROLLBACK < Done" (uniqueId (state w1))) w1)
  | (Raised e, w1) => (Raised e, w1)
  end.
Proof.
  intros H. unfold AsyncTx.asyncTryRollback. cbn [exec]. rewrite H.
  unfold log. cbn [modify bind exec]. rewrite exec_bind.
  destruct (exec env (this_query "rollback" VUndefined) _) as [[v|e] w1]; reflexivity.
Qed.

Lemma settle_down_written w : grows w (settle_down w) (settle_entries (state w)).
Proof.
  unfold settle_down, settle_entries, grows. cbn [state store].
  change (sanityTimeout (set_isQueryRunning false (state w))) with (sanityTimeout (state w)).
  destruct (sanityTimeout (state w)); simpl; rewrite <- ?app_assoc; reflexivity.
Qed.

(** The closure of the [async] [release]: it goes on only when the
    rollback has returned. *)
Lemma exec_async_release_patched old w :
  "asyncTryRollback" ∈ methods (state w) ->
  exec env (AsyncTx.call_release (PatchedRelease old)) w =
  match exec env AsyncTx.asyncTryRollback
          (did (Log LTrace "Releasing client" (VObj [("id", uniqueId (state w))])) w) with
  | (Normal _, wr) => exec env (AsyncTx.call_release old) (settle_down wr)
  | (Raised e, wr) => (Raised e, wr)
  end.
Proof.
  intros Hin. cbn [AsyncTx.call_release exec]. unfold log at 1. cbn [bind exec].
  rewrite exec_bind. unfold method at 1. cbn [exec state did].
  destruct (decide ("asyncTryRollback" ∈ methods (state w))) as [_|Hn]; [|contradiction].
  destruct (exec env AsyncTx.asyncTryRollback _) as [[v|e] wr]; [|reflexivity].
  change (do modify (set_isQueryRunning false); do clearSanityTimeout;
          AsyncTx.call_release old)
    with (do (do modify (set_isQueryRunning false); clearSanityTimeout);
          AsyncTx.call_release old).
  rewrite exec_bind, (exec_clearSanityTimeout env). reflexivity.
Qed.

(** [asyncTryRollback], awaited: what it adds to the history.  When it
    returns, the statement it sent has been answered. *)
Lemma asyncTryRollback_run w :
  exists o wr h,
    exec env AsyncTx.asyncTryRollback w = (o, wr)
    /\ grows w wr h
    /\ floating wr = floating w
    /\ isWithinTransaction (state wr) = false
    /\ sanityTimeout (state wr) = sanityTimeout (state w)
    /\ dispatched "rollback" (events h) = (if isWithinTransaction (state w) then 1 else 0)
    /\ (forall fl, existsb (is_statement "rollback") fl = false ->
        existsb (is_statement "rollback") (fold_left (fun fl e => fly e fl) (events h) fl)
        = false)
    /\ count arms_timer (events h) = 0.
Proof.
  destruct (isWithinTransaction (state w)) eqn:Hin.
  - rewrite (exec_asyncTryRollback_in w Hin).
    set (w0 := store _ (did _ (did _ w))).
    destruct (exec_this_query env "rollback" VUndefined w0)
      as (w1 & h & He & Hg & Hev & _ & Hc & Hf).
    apply control_fields in Hc. destruct Hc as (Hc & Ht & _).
    rewrite He.
    assert (Hg0 : exists h0, grows w w0 h0 /\ events h0 =
              [Log LTrace "Called rollbackIfNotCommitted, within transaction = "
                 (VObj [("0", VBool true); ("1", VStr "on client with id");
                        ("2", uniqueId (state w))]);
               Log LWarn "ROLLBACK <" (uniqueId (state w))]).
    { eexists. split; [unfold grows, w0; simpl; rewrite <- !app_assoc; reflexivity|].
      reflexivity. }
    destruct Hg0 as (h0 & Hg0 & Hev0).
    pose proof (error_logs_are_logs (layers (query (state w0)))
                  (answer env "rollback" VUndefined w0)) as Hlogs.
    assert (Hd : dispatched "rollback" (events h) = 1).
    { rewrite Hev. unfold dispatched. cbn [count dispatches is_statement].
      rewrite String.eqb_refl. rewrite count_error_logs by reflexivity. reflexivity. }
    assert (Ha : count arms_timer (events h) = 0).
    { rewrite Hev. cbn [count arms_timer]. now apply count_error_logs. }
    assert (Hfl : forall fl, existsb (is_statement "rollback") fl = false ->
              fold_left (fun fl e => fly e fl) (events h) fl = fl).
    { intros fl Hfl. rewrite Hev. cbn [fold_left fly].
      rewrite (settle_dispatched _ _ _ Hfl). now apply fly_logs. }
    destruct (answer env "rollback" VUndefined w0) as [v|e].
    + do 3 eexists. split; [reflexivity|].
      split; [eapply grows_trans; [eapply grows_trans; [exact Hg0|exact Hg]|apply grows_did]|].
      rewrite !events_app, Hev0. unfold dispatched in *.
      rewrite !count_app, Hd, Ha.
      split; [exact Hf|]. split; [exact Hc|]. split; [exact Ht|].
      split; [reflexivity|]. split; [|reflexivity].
      intros fl Hf0. rewrite !fold_left_app. cbn [events fold_left fly].
      now rewrite (Hfl fl Hf0).
    + do 3 eexists. split; [reflexivity|].
      split; [eapply grows_trans; [exact Hg0|exact Hg]|].
      rewrite !events_app, Hev0. unfold dispatched in *.
      rewrite !count_app, Hd, Ha.
      split; [exact Hf|]. split; [exact Hc|]. split; [exact Ht|].
      split; [reflexivity|]. split; [|reflexivity].
      intros fl Hf0. rewrite !fold_left_app. cbn [events fold_left fly].
      now rewrite (Hfl fl Hf0).
  - rewrite (exec_asyncTryRollback_out w Hin). do 3 eexists. split; [reflexivity|].
    split; [apply grows_did|]. simpl. repeat split; auto.
Qed.

Lemma exec_async_release_missing old w :
  "asyncTryRollback" ∉ methods (state w) ->
  exec env (AsyncTx.call_release (PatchedRelease old)) w =
  (Raised (not_a_function "asyncTryRollback"),
   did (Log LTrace "Releasing client" (VObj [("id", uniqueId (state w))])) w).
Proof.
  intros Hout. cbn [AsyncTx.call_release exec]. unfold log at 1. cbn [bind exec].
  rewrite exec_bind. unfold method at 1. cbn [exec state did].
  destruct (decide ("asyncTryRollback" ∈ methods (state w))) as [Hin|_];
    [contradiction|]. reflexivity.
Qed.

Lemma async_release_quiet m w :
  isWithinTransaction (state w) = false ->
  exists r w' h,
    exec env (AsyncTx.call_release m) w = (r, w')
    /\ grows w w' h
    /\ count is_dispatch (events h) = 0
    /\ isWithinTransaction (state w') = false.
Proof.
  revert w. induction m as [|old IH]; intros w Hout.
  - cbn [AsyncTx.call_release exec]. rewrite exec_settled. do 3 eexists.
    split; [reflexivity|]. split; [apply grows_did|]. auto.
  - destruct (decide ("asyncTryRollback" ∈ methods (state w))) as [Hin|Hn].
    + rewrite (exec_async_release_patched old w Hin).
      rewrite exec_asyncTryRollback_out by exact Hout.
      set (w0 := did _ (did _ w)).
      destruct (settle_down_grows w0) as (h1 & Hg1 & He1 & _ & Hc1 & _).
      destruct (IH (settle_down w0)) as (r & w' & h2 & He & Hg2 & Hd2 & Hc2).
      { rewrite Hc1. exact Hout. }
      exists r, w'. eexists. split; [exact He|].
      split; [eapply grows_trans; [|eapply grows_trans; [exact Hg1|exact Hg2]]|].
      { unfold grows, w0. simpl. rewrite <- app_assoc. reflexivity. }
      rewrite !events_app, !count_app, He1, Hd2.
      split; [|exact Hc2]. destruct (sanityTimeout (state w0)); reflexivity.
    + rewrite (exec_async_release_missing old w Hn). do 3 eexists.
      split; [reflexivity|]. split; [apply grows_did|]. auto.
Qed.

End AsyncTxRuns.

(** ** What [patchClient] of part_001 leaves on the client *)

Lemma install_in name c : name ∈ methods (install name c).
Proof.
  unfold install. destruct (decide (name ∈ methods c)); [assumption|].
  simpl. set_solver.
Qed.

Lemma install_keeps name x c : x ∈ methods c -> x ∈ methods (install name c).
Proof.
  unfold install. intros H. destruct (decide (name ∈ methods c)); [assumption|].
  simpl. set_solver.
Qed.

Lemma install_release name c : release (install name c) = release c.
Proof. unfold install. destruct (decide (name ∈ methods c)); reflexivity. Qed.

Lemma install_query name c : query (install name c) = query c.
Proof. unfold install. destruct (decide (name ∈ methods c)); reflexivity. Qed.

Lemma patch_release_patched (x : Client) :
  releaseWasPatched
    (release (if releaseWasPatched (release x) then x
              else set_release (PatchedRelease (release x)) x)) = true.
Proof. destruct (release x) eqn:E; simpl; [reflexivity | now rewrite E]. Qed.

Lemma rolls_unfold c :
  rolls c = releaseWasPatched (release c)
            && bool_decide ("rollbackTransactionIfNotCommitted" ∈ methods c).
Proof. unfold rolls. destruct (release c); reflexivity. Qed.

Lemma patchClient_rolls c : rolls (Tx.patchClient c) = true.
Proof.
  rewrite rolls_unfold. unfold Tx.patchClient. rewrite !install_release.
  rewrite patch_release_patched.
  rewrite bool_decide_eq_true_2 by apply install_in. reflexivity.
Qed.

Lemma install_namedParameters name c :
  namedParameters (install name c) = namedParameters c.
Proof. unfold install. destruct (decide (name ∈ methods c)); reflexivity. Qed.

Lemma install_id name c : name ∈ methods c -> install name c = c.
Proof. unfold install. intros H. destruct (decide (name ∈ methods c)); [reflexivity|contradiction]. Qed.

Lemma patch_query_patched (x : Client) :
  queryWasPatched
    (query (if queryWasPatched (query x) then x
            else set_query (PatchedQuery (query x)) x)) = true.
Proof. destruct (queryWasPatched (query x)) eqn:E; [exact E | reflexivity]. Qed.

(** A client on which everything is in place is left as it is. *)
Lemma patchClient_fixed c :
  namedParameters c = true ->
  queryWasPatched (query c) = true ->
  releaseWasPatched (release c) = true ->
  "beginTransaction" ∈ methods c ->
  "commitTransaction" ∈ methods c ->
  "rollbackTransactionIfNotCommitted" ∈ methods c ->
  Tx.patchClient c = c.
Proof.
  intros Hn Hq Hr Hb Hc Hrb. unfold Tx.patchClient. rewrite Hn, Hq, Hr.
  rewrite (install_id "beginTransaction" c Hb).
  rewrite (install_id "commitTransaction" c Hc).
  apply (install_id "rollbackTransactionIfNotCommitted" c Hrb).
Qed.

Lemma patchClient_complete c :
  let c' := Tx.patchClient c in
  namedParameters c' = true
  /\ queryWasPatched (query c') = true
  /\ releaseWasPatched (release c') = true
  /\ "beginTransaction" ∈ methods c'
  /\ "commitTransaction" ∈ methods c'
  /\ "rollbackTransactionIfNotCommitted" ∈ methods c'.
Proof.
  intros c'. subst c'. unfold Tx.patchClient.
  rewrite !install_namedParameters, !install_query, !install_release.
  split; [|split; [|split; [|split; [|split]]]].
  - destruct (namedParameters c) eqn:E; simpl;
      repeat match goal with |- context [if ?b then _ else _] => destruct b; simpl end;
      auto.
  - match goal with
    | |- queryWasPatched (query (if releaseWasPatched _ then ?x else _)) = true =>
        assert (Hx : queryWasPatched (query x) = true) by apply patch_query_patched;
        destruct (releaseWasPatched (release x)); simpl; exact Hx
    end.
  - apply patch_release_patched.
  - do 2 apply install_keeps. apply install_in.
  - apply install_keeps. apply install_in.
  - apply install_in.
Qed.

(** src/database.js: the guard of [getClient] on a client that carries the
    marker does nothing. *)
Lemma exec_patchOnce_marked env r (w : World Server) :
  patched (client_at r (state w)) = true ->
  exec env (Plain.patchOnce r) w = (Normal VUndefined, w).
Proof. intros H. unfold Plain.patchOnce. cbn [exec]. now rewrite H. Qed.

Lemma client_at_update r f (s : Server) : client_at r (update r f s) = f (client_at r s).
Proof. unfold client_at, update. simpl. now rewrite lookup_insert_eq. Qed.

Lemma patchOnce_marks env r (w : World Server) :
  patched (client_at r (state (snd (exec env (Plain.patchOnce r) w)))) = true.
Proof.
  unfold Plain.patchOnce. cbn [exec].
  destruct (patched (client_at r (state w))) eqn:E; cbn [negb exec snd]; [exact E|].
  unfold log. cbn [modify bind exec state store did snd].
  rewrite !client_at_update. reflexivity.
Qed.

(** ** The hooks *)

Section Hooks.
Context (env : Env).
Implicit Types (w : World Server).

(** After [request[name] = client], listing the client in
    [request.dbClients] leaves [request[name]] as it is, whether it
    succeeds or throws; it succeeds when the request is [listable]. *)
Lemma remember_keeps_binding r name w :
  let w0 := store (assign name (Bound (VRef r)) (state w)) w in
  let (o, w') := exec env (rememberClient (VRef r)) w0 in
  request (state w') !! name = Some (Bound (VRef r))
  /\ (listable name (state w) = true -> o = Normal VUndefined).
Proof.
  intros w0. unfold rememberClient, listable. cbn [exec].
  assert (Hb : request (state w0) !! name = Some (Bound (VRef r))).
  { unfold w0. simpl. apply lookup_insert_eq. }
  destruct (String.eqb_spec name "dbClients") as [->|Hne].
  - rewrite Hb. cbn [truthy exec negb andb]. split; [exact Hb|discriminate].
  - assert (Hl : request (state w0) !! "dbClients" = request (state w) !! "dbClients").
    { unfold w0. simpl. now apply lookup_insert_ne. }
    rewrite Hl. cbn [negb andb].
    assert (Hk : forall v, request (state (store (assign "dbClients" v (state w0)) w0)) !! name
                           = Some (Bound (VRef r))).
    { intros v. simpl. rewrite lookup_insert_ne by congruence. apply lookup_insert_eq. }
    destruct (request (state w) !! "dbClients") as [[v|vs]|].
    + destruct (truthy v); cbn [exec modify negb].
      * split; [exact Hb|discriminate].
      * split; [apply Hk|reflexivity].
    + cbn [exec modify]. split; [apply Hk|reflexivity].
    + cbn [exec modify]. split; [apply Hk|reflexivity].
Qed.

(** Acquisition works on the client and on the counter; the request is
    not touched. *)
Lemma getClientUnsafe_request w :
  request (state (snd (exec env TxHandler.getClientUnsafe w))) = request (state w).
Proof.
  unfold TxHandler.getClientUnsafe, connect. cbn [exec].
  destruct (driver env _ PoolConnect) as [[]|e]; try reflexivity.
  unfold assignUniqueId, log. cbn [bind exec modify state store did].
  repeat match goal with
         | |- context [if ?b then _ else _] => destruct b; cbn [bind exec modify state store did]
         | |- context [match sanityTimeout ?c with _ => _ end] =>
             destruct (sanityTimeout c); cbn [bind exec modify state store did]
         end; reflexivity.
Qed.

Lemma plain_getClient_request w :
  request (state (snd (exec env Plain.getClient w))) = request (state w).
Proof.
  unfold Plain.getClient, connect, log. cbn [bind exec].
  destruct (driver env _ PoolConnect) as [[]|e]; try reflexivity.
  unfold Plain.patchOnce, log. cbn [bind exec modify state store did].
  repeat match goal with
         | |- context [if ?b then _ else _] => destruct b; cbn [bind exec modify state store did]
         | |- context [match sanityTimeout ?c with _ => _ end] =>
             destruct (sanityTimeout c); cbn [bind exec modify state store did]
         end; reflexivity.
Qed.

Lemma listed_getClient_request w :
  request (state (snd (exec env Listed.getClient w))) = request (state w).
Proof.
  unfold Listed.getClient, connect. cbn [exec].
  destruct (driver env _ PoolConnect) as [[]|e]; try reflexivity.
  unfold assignUniqueId, Listed.patchClient, log. cbn [bind exec modify state store did].
  repeat match goal with
         | |- context [if ?b then _ else _] => destruct b; cbn [bind exec modify state store did]
         | |- context [match sanityTimeout ?c with _ => _ end] =>
             destruct (sanityTimeout c); cbn [bind exec modify state store did]
         end; reflexivity.
Qed.

Lemma listable_request name (s s' : Server) :
  request s' = request s -> listable name s' = listable name s.
Proof. unfold listable. now intros ->. Qed.

End Hooks.

(** ** Further facts about the variants *)

(** part_001: inside a transaction the first step of [commitTransaction]
    is the write of [isWithinTransaction], and at no moment of the call is
    a [commit] with the driver while the flag is set. *)
Lemma commit_clears_flag_first env (w : World Client) :
  isWithinTransaction (state w) = true ->
  never commit_in_transaction (state w) (in_flight (past w))
    (written w (snd (exec env Tx.commitTransaction w))) = true.
Proof.
  intros Hin.
  destruct (commit_run env w) as (r & w1 & h & He & Hg & _ & _ & _ & _ & _ & Hfirst).
  rewrite He. cbn [snd]. rewrite (grows_written _ _ _ Hg).
  destruct (Hfirst Hin) as (h' & -> & Hk).
  change (Stored (set_isWithinTransaction false (state w)) :: h')
    with ([Stored (set_isWithinTransaction false (state w))] ++ h').
  rewrite never_app. apply andb_true_intro. split.
  { unfold never, commit_in_transaction. cbn [moments forallb fst snd].
    change (isWithinTransaction (set_isWithinTransaction false (state w))) with false.
    now rewrite andb_false_r. }
  apply (never_keeps _ (fun s => isWithinTransaction s = false)); [|reflexivity|exact Hk].
  intros s' fl' Hs. unfold commit_in_transaction. simpl. rewrite Hs. apply andb_false_r.
Qed.

(** src/database.js: [patchClient] itself, run twice without the guard of
    [getClient], puts a second closure around the first. *)
Lemma plain_patchClient_unguarded :
  release (Plain.patchClient (Plain.patchClient rawClient))
  = PatchedRelease (PatchedRelease PoolRelease)
  /\ query (Plain.patchClient (Plain.patchClient rawClient))
     = PatchedQuery (NamedQuery (PatchedQuery (NamedQuery NativeQuery))).
Proof. split; reflexivity. Qed.

(** On part_001 the promise of the rollback is dropped: within a
    transaction [release()] hands the connection back while the [rollback]
    is with the driver. *)
Lemma release_hands_back_during_rollback env (c : Client) :
  release c = PatchedRelease PoolRelease ->
  "rollbackTransactionIfNotCommitted" ∈ methods c ->
  isWithinTransaction c = true ->
  returned_while "rollback" [] (past (snd (exec env Tx.this_release (start c)))) = true.
Proof.
  intros Hrel Hin Hc. unfold Tx.this_release. cbn [exec]. change (state (start c)) with c.
  rewrite Hrel, (exec_release_patched env PoolRelease (start c) Hin), exec_release_pool.
  cbn [snd]. rewrite past_did. unfold released. change (state (start c)) with c.
  set (w0 := did (Log LTrace "Releasing client" (VObj [("id", uniqueId c)])) (start c)).
  destruct (rollback_floats env w0 Hc) as (hr & Hg & Hev & _).
  set (w1 := detach (prefix env Tx.rollbackTransactionIfNotCommitted w0)) in *.
  rewrite (grows_past _ _ _ (grows_trans _ _ _ _ _ Hg (settle_down_written w1))).
  rewrite events_app, Hev. unfold settle_entries.
  destruct (sanityTimeout (state w1)); reflexivity.
Qed.

(** The [async] variant of part_000: [asyncBeginTransaction] sets the flag
    before it sends the [begin], so that [release()] hands one [rollback]
    to the driver after every begin, also one that failed. *)
Lemma async_rollback_on_release env (c : Client) (qs : list (string * Value)) :
  let w := start (AsyncTx.patchClient c) in
  let w1 := snd (exec env AsyncTx.asyncBeginTransaction w) in
  let w2 := run_queries env qs w1 in
  let w3 := snd (exec env AsyncTx.this_release w2) in
  dispatched "rollback" (since w2 w3) = 1 /\ isWithinTransaction (state w3) = false.
Proof.
  intros w w1 w2 w3.
  assert (Hw1 : isWithinTransaction (state w1) = true /\ table (state w1) = table (state w)).
  { unfold w1. destruct (isWithinTransaction (state w)) eqn:Hin.
    - rewrite (exec_asyncBegin_misuse env w Hin). auto.
    - rewrite (exec_asyncBegin_fresh env w Hin).
      destruct (exec_this_query env "begin" VUndefined
                  (store (set_isWithinTransaction true (state w))
                     (did (Log LTrace "BEGIN <" (uniqueId (state w))) w)))
        as (wq & h & He & _ & _ & _ & Hc & _).
      rewrite He. apply control_fields in Hc. destruct Hc as (Hc & _ & Htab).
      destruct (answer env "begin" VUndefined _); cbn [snd]; auto. }
  destruct Hw1 as (Hin1 & Htab1).
  destruct (run_queries_grows env qs w1) as (h2 & _ & Hc2 & _).
  apply control_fields in Hc2. destruct Hc2 as (Hin2 & _ & Htab2).
  fold w2 in Hin2, Htab2. rewrite Hin1 in Hin2. rewrite Htab1 in Htab2.
  assert (Hm : "asyncTryRollback" ∈ methods (state w2)
               /\ releaseWasPatched (release (state w2)) = true).
  { unfold table in Htab2. injection Htab2 as _ _ _ _ -> ->.
    unfold w. cbn [state start]. unfold AsyncTx.patchClient.
    rewrite !install_release. split; [apply install_in|apply patch_release_patched]. }
  destruct Hm as (Hm & Hp).
  unfold w3, AsyncTx.this_release. cbn [exec].
  destruct (release (state w2)) as [|old]; [discriminate|].
  rewrite (exec_async_release_patched env old w2 Hm).
  set (w0 := did (Log LTrace "Releasing client" (VObj [("id", uniqueId (state w2))])) w2).
  destruct (asyncTryRollback_run env w0) as (o & wr & h & He & Hg & _ & Hc & _ & Hd & _).
  rewrite He. change (isWithinTransaction (state w0)) with (isWithinTransaction (state w2)) in Hd.
  rewrite Hin2 in Hd.
  assert (Hg0 : grows w2 wr ([Did (Log LTrace "Releasing client"
                                      (VObj [("id", uniqueId (state w2))]))] ++ h)).
  { eapply grows_trans; [apply grows_did|exact Hg]. }
  destruct o as [v|e].
  - destruct (settle_down_grows wr) as (h1 & Hg1 & He1 & _ & Hc1 & _).
    destruct (async_release_quiet env old (settle_down wr)) as (r & w' & h3 & He3 & Hg3 & Hd3 & Hc3).
    { now rewrite Hc1. }
    rewrite He3. cbn [snd].
    rewrite (grows_since _ _ _ (grows_trans _ _ _ _ _ Hg0 (grows_trans _ _ _ _ _ Hg1 Hg3))).
    pose proof (dispatched_le "rollback" (events h3)) as Hle.
    unfold dispatched in *. rewrite !events_app, !count_app, Hd, He1.
    split; [|exact Hc3]. cbn [events count dispatches].
    destruct (sanityTimeout (state wr)); cbn [count dispatches]; lia.
  - cbn [snd]. rewrite (grows_since _ _ _ Hg0).
    unfold dispatched in *. rewrite events_app, count_app, Hd. auto.
Qed.

(** * The statements of the specification, C1 to C10 *)

(** C1 on the [async] variant of part_000.  Inside a transaction
    [asyncCommitTransaction] hands the [commit] to the driver while
    [isWithinTransaction] still reads true; the note at line 419 asks for
    the write to come before the call. *)
Theorem asyncCommit_in_flight_within_transaction env (w : World Client) :
  isWithinTransaction (state w) = true ->
  never commit_in_transaction (state w) (in_flight (past w))
    (written w (snd (exec env AsyncTx.asyncCommitTransaction w))) = false.
Proof.
  intros Hin. rewrite (exec_asyncCommit_open env w Hin).
  set (w0 := did (Log LTrace "COMMIT <" (uniqueId (state w))) w).
  destruct (exec_this_query_shape env "commit" VUndefined w0)
    as (w1 & h1 & h2 & He & Hg & He1 & Hk1 & _ & _).
  rewrite He.
  assert (Hw : exists r w2 h3, (let (o, w1') := (answer env "commit" VUndefined w0, w1) in
              match o with
              | Normal _ => (Normal VUndefined,
                  did (Log LTrace "COMMIT < Done" (uniqueId (state w1')))
                    (store (set_isWithinTransaction false (state w1')) w1'))
              | Raised e => (Raised e, w1')
              end) = (r, w2) /\ grows w1 w2 h3).
  { destruct (answer env "commit" VUndefined w0); do 3 eexists; split; try reflexivity.
    - unfold grows. simpl. rewrite <- app_assoc. reflexivity.
    - apply grows_refl. }
  destruct Hw as (r & w2 & h3 & Hr & Hg3).
  match goal with |- context [snd ?x] => replace x with (r, w2) by (symmetry; exact Hr) end.
  cbn [snd].
  pose proof (grows_trans _ _ _ _ _ (grows_trans _ _ _ _ _ (grows_did _ w) Hg) Hg3) as Hall.
  rewrite (grows_written _ _ _ Hall).
  rewrite <- !app_assoc. rewrite app_assoc. rewrite never_app.
  apply andb_false_intro2.
  assert (Hs : isWithinTransaction
                 (state_after (state w) ([Did (Log LTrace "COMMIT <" (uniqueId (state w)))] ++ h1))
               = true).
  { apply (state_after_keeps (fun s => isWithinTransaction s = true)); [exact Hin|].
    apply keeps_app; [repeat constructor|].
    eapply keeps_impl; [|exact Hk1]. intros s Hs.
    apply control_fields in Hs. destruct Hs as (-> & _). exact Hin. }
  unfold never. cbn [app moments forallb fly]. unfold commit_in_transaction at 1.
  cbn [fst snd]. cbn [app] in Hs. rewrite Hs, existsb_app. cbn [existsb is_statement].
  rewrite orb_true_r. reflexivity.
Qed.

Lemma asyncCommit_in_flight_within_transaction_witness :
  let w := start (set_isWithinTransaction true (AsyncTx.patchClient rawClient)) in
  isWithinTransaction (state w) = true
  /\ never commit_in_transaction (state w) (in_flight (past w))
       (written w (snd (exec healthy AsyncTx.asyncCommitTransaction w))) = false.
Proof.
  split; [reflexivity|].
  apply (asyncCommit_in_flight_within_transaction healthy
           (start (set_isWithinTransaction true (AsyncTx.patchClient rawClient)))).
  reflexivity.
Defined.

(** C2, as it is written, fails on part_001 when the database rejects the
    [begin]: [beginTransaction] throws and leaves [isWithinTransaction]
    false, so the [release()] that follows has nothing to roll back. *)
Lemma rollback_on_release_needs_begin :
  ~ rollback_on_release unreachable (start (Tx.patchClient rawClient)) [].
Proof.
  unfold rollback_on_release. vm_compute. intros [H _]. discriminate H.
Qed.

(** C2, amended.  On a client that [patchClient] of part_001 has patched:
    when [beginTransaction] returns (it does not throw), then after any
    calls of [query], whatever their outcome, and no [commitTransaction],
    [release()] hands exactly one [rollback] to the driver and leaves
    [isWithinTransaction] false. *)
Theorem rollback_on_release_after_begin env (c : Client) (h0 : list (Entry Client))
    (qs : list (string * Value)) :
  let w := mkWorld (Tx.patchClient c) h0 [] in
  returns (fst (exec env Tx.beginTransaction w)) = true ->
  rollback_on_release env w qs.
Proof.
  intros w Hret. unfold rollback_on_release.
  destruct (begin_run env w) as (r & w1 & h1 & He1 & _ & Htab1 & _ & _ & Hin1 & _).
  rewrite He1 in *. cbn [fst snd] in *. rewrite Hret, orb_true_r in Hin1.
  destruct (run_queries_grows env qs w1) as (h2 & _ & Hc2 & _).
  apply control_fields in Hc2. destruct Hc2 as (Hin2 & _ & Htab2).
  set (w2 := run_queries env qs w1) in *.
  destruct (release_run env w2) as (r3 & w3 & h3 & He3 & Hg3 & _ & _ & Hyes & _).
  rewrite He3. cbn [snd]. rewrite (grows_since _ _ _ Hg3).
  assert (Hr : rolls (state w2) = true).
  { rewrite (rolls_table _ (Tx.patchClient c)); [apply patchClient_rolls|].
    now rewrite Htab2, Htab1. }
  destruct (Hyes Hr) as (Hout & Hd & _). rewrite Hin2, Hin1 in Hd. auto.
Qed.

Lemma rollback_on_release_after_begin_witness :
  let w := mkWorld (Tx.patchClient rawClient) [] [] in
  returns (fst (exec healthy Tx.beginTransaction w)) = true
  /\ rollback_on_release healthy w [("select 1", VUndefined)].
Proof.
  split; [reflexivity|].
  apply (rollback_on_release_after_begin healthy rawClient [] [("select 1", VUndefined)]).
  reflexivity.
Defined.

(** C3, as it is written, fails on the [async] variant of part_000 when the
    database rejects the [rollback]: [release()] throws at its [await],
    the timer stays armed and the connection is not handed back. *)
Lemma async_release_gives_up :
  ~ releases_in_order AsyncTx.this_release unreachable
      (start (set_sanityTimeout (Some 7)
                (set_isWithinTransaction true (AsyncTx.patchClient rawClient)))).
Proof.
  unfold releases_in_order. vm_compute. intros (_ & H & _). discriminate H.
Qed.

(** C3, amended.  [release()], on a client whose [release] is the closure
    over the pool's own:

    - [async] variant of part_000: it logs, runs [asyncTryRollback] and
      awaits it; when that throws, [release()] throws the same and does
      nothing more; otherwise it writes [isQueryRunning = false], cancels
      and clears the timer if one is armed, and calls the pool's release
      last, at which moment no [rollback] is in flight;
    - part_001: it logs, calls [rollbackTransactionIfNotCommitted], which
      hands one [rollback] to the driver exactly when the client is within
      a transaction, then does the same writes and calls the pool's release
      last;
    - src/database.js: it logs, does the same writes and calls the pool's
      release last; there is no rollback. *)
Theorem release_in_order env (c : Client) :
  let w := start c in
  let said := Did (Log LTrace "Releasing client" (VObj [("id", uniqueId c)])) in
  (release c = PatchedRelease PoolRelease ->
   "asyncTryRollback" ∈ methods c ->
   let (rr, wr) := exec env AsyncTx.asyncTryRollback (did (Log LTrace "Releasing client" (VObj [("id", uniqueId c)])) w) in
   let (r, w') := exec env AsyncTx.this_release w in
   match rr with
   | Raised e => r = Raised e /\ w' = wr
   | Normal _ =>
       written wr w' = settle_entries (state wr) ++ [Did (NativeRelease r)]
       /\ existsb (is_statement "rollback") (in_flight (past (settle_down wr))) = false
   end)
  /\ (release c = PatchedRelease PoolRelease ->
      "rollbackTransactionIfNotCommitted" ∈ methods c ->
      let (r, w') := exec env Tx.this_release w in
      exists hr s1,
        written w w' = said :: hr ++ settle_entries s1 ++ [Did (NativeRelease r)]
        /\ dispatched "rollback" (events hr) = (if isWithinTransaction c then 1 else 0)
        /\ isWithinTransaction s1 = false
        /\ sanityTimeout s1 = sanityTimeout c)
  /\ (release c = PatchedRelease PoolRelease ->
      let (r, w') := exec env (Plain.call_release (release c)) w in
      written w w' =
      Did (Log LTrace "Releasing client" VUndefined)
      :: settle_entries c ++ [Did (NativeRelease r)]).
Proof.
  intros w said. split; [|split].
  - intros Hrel Hin. unfold AsyncTx.this_release. cbn [exec]. change (state w) with c.
    rewrite Hrel, (exec_async_release_patched env PoolRelease w Hin).
    change (state w) with c.
    set (w0 := did (Log LTrace "Releasing client" (VObj [("id", uniqueId c)])) w).
    destruct (asyncTryRollback_run env w0) as (o & wr & h & He & Hg & _ & _ & _ & _ & Hfl & _).
    rewrite He. destruct o as [v|e]; [|auto].
    cbn [AsyncTx.call_release exec]. rewrite exec_settled. split.
    + apply grows_written. eapply grows_trans; [apply settle_down_written|apply grows_did].
    + pose proof (grows_trans _ _ _ _ _ Hg (settle_down_written wr)) as Hg2.
      rewrite (grows_past _ _ _ Hg2). unfold in_flight.
      change (past w0) with [Log LTrace "Releasing client" (VObj [("id", uniqueId c)])].
      rewrite events_app. cbn [app fold_left fly]. rewrite fold_left_app.
      assert (Hs : fold_left (fun fl e => fly e fl) (events (settle_entries (state wr)))
                     (fold_left (fun fl e => fly e fl) (events h) [])
                   = fold_left (fun fl e => fly e fl) (events h) []).
      { unfold settle_entries. destruct (sanityTimeout (state wr)); reflexivity. }
      rewrite Hs. now apply Hfl.
  - intros Hrel Hin. unfold Tx.this_release. cbn [exec]. change (state w) with c.
    rewrite Hrel, (exec_release_patched env PoolRelease w Hin), exec_release_pool.
    unfold released. change (state w) with c.
    set (w0 := did (Log LTrace "Releasing client" (VObj [("id", uniqueId c)])) w).
    set (w1 := detach (prefix env Tx.rollbackTransactionIfNotCommitted w0)).
    assert (H1 : exists hr, grows w0 w1 hr
              /\ dispatched "rollback" (events hr) = (if isWithinTransaction c then 1 else 0)
              /\ isWithinTransaction (state w1) = false
              /\ sanityTimeout (state w1) = sanityTimeout c).
    { destruct (isWithinTransaction c) eqn:Hc.
      - destruct (rollback_floats env w0 Hc) as (hr & Hg & Hev & _ & Hout & Ht & _).
        exists hr. split; [exact Hg|]. rewrite Hev. auto.
      - unfold w1. rewrite (prefix_rollback_out env w0 Hc). exists [].
        split; [apply grows_refl|]. auto. }
    destruct H1 as (hr & Hg1 & Hd). exists hr, (state w1). split; [|exact Hd].
    apply grows_written.
    change (said :: hr ++ settle_entries (state w1) ++ [Did (NativeRelease (pool_release env (past (settle_down w1))))])
      with ([said] ++ hr ++ settle_entries (state w1) ++ [Did (NativeRelease (pool_release env (past (settle_down w1))))]).
    eapply grows_trans; [apply grows_did|].
    eapply grows_trans; [exact Hg1|].
    eapply grows_trans; [apply settle_down_written|apply grows_did].
  - intros Hrel. rewrite Hrel. cbn [Plain.call_release]. unfold log. cbn [bind exec].
    change (do modify (set_isQueryRunning false); do clearSanityTimeout; Native settled)
      with (do (do modify (set_isQueryRunning false); clearSanityTimeout); Native settled).
    rewrite exec_bind, (exec_clearSanityTimeout env). cbn [exec]. rewrite exec_settled.
    apply grows_written.
    change (Did (Log LTrace "Releasing client" VUndefined) :: settle_entries c ++ ?x)
      with ([Did (Log LTrace "Releasing client" VUndefined)] ++ settle_entries c ++ x).
    eapply grows_trans; [apply (grows_did _ w)|].
    eapply grows_trans; [apply settle_down_written|apply grows_did].
Qed.

Lemma release_in_order_witness :
  let c := set_isWithinTransaction true (AsyncTx.patchClient rawClient) in
  release c = PatchedRelease PoolRelease
  /\ "asyncTryRollback" ∈ methods c
  /\ (let (rr, wr) := exec healthy AsyncTx.asyncTryRollback
                        (did (Log LTrace "Releasing client" (VObj [("id", uniqueId c)]))
                           (start c)) in
      let (r, w') := exec healthy AsyncTx.this_release (start c) in
      match rr with
      | Raised e => r = Raised e /\ w' = wr
      | Normal _ =>
          written wr w' = settle_entries (state wr) ++ [Did (NativeRelease r)]
          /\ existsb (is_statement "rollback") (in_flight (past (settle_down wr))) = false
      end).
Proof.
  intros c.
  assert (Hin : "asyncTryRollback" ∈ methods c).
  { apply (bool_decide_unpack _). vm_compute. exact I. }
  split; [reflexivity|]. split; [exact Hin|].
  exact (proj1 (release_in_order healthy c) eq_refl Hin).
Defined.

(** C4.  Whatever the client, two calls of [release()] in succession (of
    part_001) hand at most one [rollback] to the driver, the second call
    hands over none, and the second call arms no timer: it calls
    [setTimeout] never, and a [sanityTimeout] left on the client is the one
    that was there before the calls.  [settles] tells whether the driver
    answers the rollback of the first call before the second call. *)
Theorem release_twice env (c : Client) (h0 : list (Entry Client)) (settles : bool) :
  let w := mkWorld c h0 [] in
  let w1 := snd (exec env Tx.this_release w) in
  let w1' := if settles then resume env w1 else w1 in
  let w2 := snd (exec env Tx.this_release w1') in
  dispatched "rollback" (since w w2) <= 1
  /\ dispatched "rollback" (since w1' w2) = 0
  /\ count arms_timer (since w1' w2) = 0
  /\ (sanityTimeout (state w2) = None \/ sanityTimeout (state w2) = sanityTimeout c).
Proof.
  intros w w1 w1' w2.
  destruct (release_run env w) as (r1 & wa & h1 & He1 & Hg1 & Ha1 & Htab1 & Hyes1 & Hno1).
  assert (Hw1 : w1 = wa) by (unfold w1; now rewrite He1). clearbody w1. subst wa.
  assert (Hres : exists hr, grows w1 w1' hr
            /\ count is_dispatch (events hr) = 0 /\ count arms_timer (events hr) = 0
            /\ control (state w1') = control (state w1)).
  { unfold w1'. destruct settles.
    - destruct (rolls (state w)) eqn:Hr.
      + destruct (Hyes1 eq_refl) as (_ & _ & _ & _ & Hf). simpl in Hf.
        destruct (isWithinTransaction c).
        * destruct (resume_rollback env _ _ Hf) as (hr & ? & ? & ? & ? & _). eauto.
        * rewrite (resume_idle env _ Hf). exists []. split; [apply grows_refl|]. auto.
      + destruct (Hno1 eq_refl) as (_ & _ & Hf & _).
        rewrite (resume_idle env _ Hf). exists []. split; [apply grows_refl|]. auto.
    - exists []. split; [apply grows_refl|]. auto. }
  destruct Hres as (hr & Hgr & Hdr & Har & Hcr).
  apply control_fields in Hcr. destruct Hcr as (Hflag & Htim & Htabr).
  destruct (release_run env w1') as (r2 & wb & h2 & He2 & Hg2 & Ha2 & Htab2 & Hyes2 & Hno2).
  assert (Hw2 : w2 = wb) by (unfold w2; now rewrite He2). clearbody w2 w1'. subst wb.
  assert (Hrolls : rolls (state w1') = rolls (state w)).
  { apply rolls_table. now rewrite Htabr. }
  rewrite (grows_since _ _ _ (grows_trans _ _ _ _ _ (grows_trans _ _ _ _ _ Hg1 Hgr) Hg2)).
  rewrite (grows_since _ _ _ Hg2).
  pose proof (dispatched_le "rollback" (events hr)) as Hler.
  pose proof (dispatched_le "rollback" (events h1)) as Hle1.
  pose proof (dispatched_le "rollback" (events h2)) as Hle2.
  unfold dispatched in *. rewrite !events_app, !count_app.
  destruct (rolls (state w)) eqn:Hr.
  - destruct (Hyes1 eq_refl) as (Hc1 & Hd1 & _ & Ht1 & _).
    destruct (Hyes2 Hrolls) as (_ & Hd2 & _ & Ht2 & _).
    rewrite Hflag, Hc1 in Hd2. rewrite Hd1, Hd2.
    repeat split; auto; destruct (isWithinTransaction (state w)); lia.
  - destruct (Hno1 eq_refl) as (Hd1 & Hc1 & _ & Ht1).
    destruct (Hno2 Hrolls) as (Hd2 & Hc2 & _ & Ht2).
    repeat split; try lia. right. now rewrite Ht2, Htim, Ht1.
Qed.

(** C5.  The patched [query] of part_001 (and part_000), and the one of
    src/database.js: whatever the delegated call [oldQueryMethod.call(this,
    text, params)] ends with, [query] ends with the same; when that is an
    error it is logged first; and after the delegated call nothing happens
    but this logging and the write [isQueryRunning = false], on either
    path: the call is not made again. *)
Theorem query_rethrows env (old : QueryMethod) (text : string) (params : Value)
    (w : World Client) :
  (let c1 := set_lastQuery (Some (trimmedText text, params)) (state w) in
   let w0 := store (set_isQueryRunning true c1) (store c1 w) in
   let (o, w1) := exec env (call_query old text params) w0 in
   let (r, w') := exec env (call_query (PatchedQuery old) text params) w in
   r = o
   /\ isQueryRunning (state w') = false
   /\ written w1 w' =
      match o with
      | Normal _ => []
      | Raised err => [Did (Log LError "Database query error" (VObj [("error", err)]))]
      end ++ [Stored (set_isQueryRunning false (state w1))])
  /\ (let c1 := set_lastQuery (Some (text, params)) (state w) in
      let w0 := store (set_isQueryRunning true c1)
                  (store c1 (did (Log LTrace "Issuing query"
                                    (VObj [("text", VStr text); ("params", params)])) w)) in
      let (o, w1) := exec env (Plain.call_query old text params) w0 in
      let (r, w') := exec env (Plain.call_query (PatchedQuery old) text params) w in
      r = o
      /\ isQueryRunning (state w') = false
      /\ written w1 w' =
         match o with
         | Normal _ => []
         | Raised err => [Did (Log LError "Database query error" (VObj [("error", err)]))]
         end ++ [Stored (set_isQueryRunning false (state w1))]).
Proof.
  split.
  - cbn [call_query]. cbn [modify bind exec state store].
    rewrite exec_finally, exec_catch, exec_bind.
    destruct (exec env (call_query old text params) _) as [[v|e] w1];
      cbn [exec modify log bind state store did];
      (split; [reflexivity|]); (split; [reflexivity|]);
      apply grows_written; unfold grows; simpl; rewrite <- ?app_assoc; reflexivity.
  - cbn [Plain.call_query]. unfold log at 1. cbn [modify bind exec state store did].
    rewrite exec_finally, exec_catch, exec_bind.
    destruct (exec env (Plain.call_query old text params) _) as [[v|e] w1];
      cbn [exec modify log bind state store did];
      (split; [reflexivity|]); (split; [reflexivity|]);
      apply grows_written; unfold grows; simpl; rewrite <- ?app_assoc; reflexivity.
Qed.

(** C6.  On part_001: [beginTransaction] on a client that is within a
    transaction, and [commitTransaction] on one that is not, log one error,
    return [false], which is falsy, hand no statement to the driver and
    write nothing, so [isWithinTransaction] is as before.  For a double
    begin: when the first call left the client within a transaction, the
    second returns [false], the client stays within the transaction, and
    the one [begin] of the first call is all the driver was given. *)
Theorem protocol_misuse_is_refused env (w : World Client) :
  (isWithinTransaction (state w) = true ->
   let (r, w') := exec env Tx.beginTransaction w in
   r = Normal (VBool false)
   /\ written w w' = [Did (Log LError "Tried to start transaction in transaction" VUndefined)]
   /\ state w' = state w)
  /\ (isWithinTransaction (state w) = false ->
      let (r, w') := exec env Tx.commitTransaction w in
      r = Normal (VBool false)
      /\ written w w' =
         [Did (Log LError "Tried to commit transaction outside of transaction" VUndefined)]
      /\ state w' = state w)
  /\ truthy (VBool false) = false
  /\ (isWithinTransaction (state w) = false ->
      let w1 := snd (exec env Tx.beginTransaction w) in
      isWithinTransaction (state w1) = true ->
      let (r2, w2) := exec env Tx.beginTransaction w1 in
      r2 = Normal (VBool false)
      /\ isWithinTransaction (state w2) = true
      /\ dispatched "begin" (since w w2) = 1).
Proof.
  split; [|split; [|split; [reflexivity|]]].
  - intros Hin. rewrite (exec_begin_misuse env w Hin).
    rewrite (grows_written _ _ _ (grows_did _ w)). auto.
  - intros Hout. rewrite (exec_commit_misuse env w Hout).
    rewrite (grows_written _ _ _ (grows_did _ w)). auto.
  - intros Hout w1 Hin1.
    destruct (begin_run env w) as (r1 & wa & h1 & He1 & Hg1 & _ & _ & Hd1 & _).
    assert (Hw1 : w1 = wa) by (unfold w1; now rewrite He1). clearbody w1. subst wa.
    rewrite (exec_begin_misuse env w1 Hin1).
    rewrite (grows_since _ _ _ (grows_trans _ _ _ _ _ Hg1 (grows_did _ w1))).
    rewrite events_app. unfold dispatched in *. rewrite count_app, Hd1, Hout.
    auto.
Qed.

Lemma protocol_misuse_is_refused_witness :
  let c := Tx.patchClient rawClient in
  (let w := start (set_isWithinTransaction true c) in
   isWithinTransaction (state w) = true
   /\ fst (exec healthy Tx.beginTransaction w) = Normal (VBool false)
   /\ state (snd (exec healthy Tx.beginTransaction w)) = state w)
  /\ (let w := start c in
      isWithinTransaction (state w) = false
      /\ fst (exec healthy Tx.commitTransaction w) = Normal (VBool false)
      /\ isWithinTransaction (state (snd (exec healthy Tx.beginTransaction w))) = true
      /\ dispatched "begin"
           (since w (snd (exec healthy Tx.beginTransaction
                            (snd (exec healthy Tx.beginTransaction w))))) = 1).
Proof.
  intros c. split.
  - intros w. split; [reflexivity|].
    destruct (protocol_misuse_is_refused healthy w) as (H & _).
    specialize (H eq_refl).
    destruct (exec healthy Tx.beginTransaction w) as [r w'].
    destruct H as (Hr & _ & Hs). auto.
  - intros w. split; [reflexivity|].
    destruct (protocol_misuse_is_refused healthy w) as (_ & H & _ & H2).
    specialize (H eq_refl). specialize (H2 eq_refl eq_refl).
    destruct (exec healthy Tx.commitTransaction w) as [r w'].
    destruct H as (Hr & _). split; [exact Hr|]. split; [reflexivity|].
    destruct (exec healthy Tx.beginTransaction
                (snd (exec healthy Tx.beginTransaction w))) as [r2 w2].
    destruct H2 as (_ & _ & Hd). exact Hd.
Defined.

(** C7.  The patch applied twice is the patch applied once.  On part_001,
    [patchClient] of a patched client returns that client: the same fields
    and the same methods, so no closure is put around another and every
    operation runs as after one patch.  On src/database.js, where
    [patchClient] is guarded by the marker [patched] in [getClient], the
    guarded patch run again returns at once: nothing is logged and nothing
    is written. *)
Theorem patch_is_idempotent env (c : Client) (r : nat) (w : World Server) :
  Tx.patchClient (Tx.patchClient c) = Tx.patchClient c
  /\ layers (query (Tx.patchClient (Tx.patchClient c))) = layers (query (Tx.patchClient c))
  /\ (forall text params w',
        exec env (call_query (query (Tx.patchClient (Tx.patchClient c))) text params) w'
        = exec env (call_query (query (Tx.patchClient c)) text params) w')
  /\ (forall w',
        exec env (Tx.call_release (release (Tx.patchClient (Tx.patchClient c)))) w'
        = exec env (Tx.call_release (release (Tx.patchClient c))) w')
  /\ (let w1 := snd (exec env (Plain.patchOnce r) w) in
      exec env (Plain.patchOnce r) w1 = (Normal VUndefined, w1)).
Proof.
  assert (H : Tx.patchClient (Tx.patchClient c) = Tx.patchClient c).
  { destruct (patchClient_complete c) as (Hn & Hq & Hr & Hb & Hc & Hrb).
    now apply patchClient_fixed. }
  rewrite H. repeat split.
  apply exec_patchOnce_marked, patchOnce_marks.
Qed.

(** C8, as it is written, fails on src/database.js, whose [query] stores
    the text as it came: [this.lastQuery = { text, params }]. *)
Lemma plain_lastQuery_is_raw :
  ~ records_normalized_text Plain.call_query healthy (start rawClient) "select  1 " VUndefined.
Proof.
  unfold records_normalized_text. vm_compute. intros [H _]. discriminate H.
Qed.

(** C8, amended.  Every [query] hands the text to the driver as it came.
    The [query] of part_001 and part_000 records the whitespace-normalised
    text ([trimmedText]: no tab, line feed or carriage return, no two
    adjacent spaces, no white space at the ends, all else unchanged) in
    [lastQuery]; the [query] of src/database.js records the text as it
    came. *)
Theorem query_records_and_sends env (old : QueryMethod) (text : string) (params : Value)
    (w : World Client) :
  (let w' := snd (exec env (call_query (PatchedQuery old) text params) w) in
   lastQuery (state w') = Some (trimmedText text, params)
   /\ normalized (trimmedText text) = true
   /\ squeeze (trimmedText text) = squeeze text
   /\ sent (since w w') = [text])
  /\ (let w' := snd (exec env (Plain.call_query (PatchedQuery old) text params) w) in
      lastQuery (state w') = Some (text, params)
      /\ sent (since w w') = [text]).
Proof.
  split.
  - destruct (query_records env old text params w) as (Hl & _ & Hs).
    destruct (trimmedText_normalized text) as (Hn & Hq). auto.
  - destruct (plain_query_run env (PatchedQuery old) text params w)
      as (o & w' & h & He & Hg & Hs & Hl).
    rewrite He. cbn [snd]. rewrite (grows_since _ _ _ Hg). auto.
Qed.

(** C9, as it is written, fails on src/database.js, whose hook has no
    [return]: with a pool that hands out client 0, the hook returns
    [undefined]. *)
Lemma plain_hook_returns_nothing :
  ~ binds_and_returns Plain.getClient (Plain.requireDbClient "dbClient") "dbClient"
      healthy (start idle).
Proof.
  unfold binds_and_returns. intros H. specialize (H 0 eq_refl).
  vm_compute in H. destruct H as [H _]. discriminate H.
Qed.

(** C9, amended.  Every hook binds the client it acquired on the request
    under the configured name.  The hook of part_001 returns that same
    client, when the cleanup plugin is installed or [request.dbClients] can
    take the client; the hook of src/database.js returns [undefined], and
    so does the hook of part_000 (lines 108-120) when [request.dbClients]
    can take the client. *)
Theorem requireDbClient_binds env (name : string) (addCleanupWork : bool)
    (w : World Server) (r : nat) :
  (fst (exec env TxHandler.getClientUnsafe w) = Normal (VRef r) ->
   let (o, w') := exec env (TxHandler.requireDbClient addCleanupWork name) w in
   request (state w') !! name = Some (Bound (VRef r))
   /\ (addCleanupWork || listable name (state w) = true -> o = Normal (VRef r)))
  /\ (fst (exec env Plain.getClient w) = Normal (VRef r) ->
      let (o, w') := exec env (Plain.requireDbClient name) w in
      request (state w') !! name = Some (Bound (VRef r)) /\ o = Normal VUndefined)
  /\ (fst (exec env Listed.getClient w) = Normal (VRef r) ->
      let (o, w') := exec env (Listed.requireDbClient name) w in
      request (state w') !! name = Some (Bound (VRef r))
      /\ (listable name (state w) = true -> o = Normal VUndefined)).
Proof.
  split; [|split].
  - intros Hget. unfold TxHandler.requireDbClient. rewrite exec_bind.
    pose proof (getClientUnsafe_request env w) as Hreq.
    destruct (exec env TxHandler.getClientUnsafe w) as [[v|e] w1]; cbn [fst snd] in *;
      [|discriminate]. injection Hget as ->.
    cbn [modify bind exec]. rewrite exec_bind.
    destruct addCleanupWork.
    + cbn [exec]. split; [apply lookup_insert_eq|reflexivity].
    + pose proof (remember_keeps_binding env r name w1) as Hrem. cbv zeta in Hrem.
      destruct (exec env (rememberClient (VRef r)) _) as [[x|e] w2];
        destruct Hrem as (Hb & Hl); cbn [exec orb]; (split; [exact Hb|]);
        rewrite <- (listable_request name _ _ Hreq); intros Hok; [reflexivity|].
      specialize (Hl Hok). discriminate Hl.
  - intros Hget. unfold Plain.requireDbClient. rewrite exec_bind.
    destruct (exec env Plain.getClient w) as [[v|e] w1]; cbn [fst snd] in *;
      [|discriminate]. injection Hget as ->.
    cbn [modify bind exec]. split; [apply lookup_insert_eq|reflexivity].
  - intros Hget. unfold Listed.requireDbClient. rewrite exec_bind.
    pose proof (listed_getClient_request env w) as Hreq.
    destruct (exec env Listed.getClient w) as [[v|e] w1]; cbn [fst snd] in *;
      [|discriminate]. injection Hget as ->.
    cbn [modify bind exec]. rewrite exec_bind.
    pose proof (remember_keeps_binding env r name w1) as Hrem. cbv zeta in Hrem.
    destruct (exec env (rememberClient (VRef r)) _) as [[x|e] w2];
      destruct Hrem as (Hb & Hl); cbn [exec]; (split; [exact Hb|]);
      rewrite <- (listable_request name _ _ Hreq); intros Hok; [reflexivity|].
    specialize (Hl Hok). discriminate Hl.
Qed.

Lemma requireDbClient_binds_witness :
  let w := start idle in
  fst (exec healthy TxHandler.getClientUnsafe w) = Normal (VRef 0)
  /\ fst (exec healthy (TxHandler.requireDbClient false "dbClient") w) = Normal (VRef 0)
  /\ request (state (snd (exec healthy (TxHandler.requireDbClient false "dbClient") w)))
       !! "dbClient" = Some (Bound (VRef 0))
  /\ fst (exec healthy (Plain.requireDbClient "dbClient") w) = Normal VUndefined
  /\ fst (exec healthy (Listed.requireDbClient "dbClient") w) = Normal VUndefined.
Proof.
  intros w.
  destruct (requireDbClient_binds healthy "dbClient" false w 0) as (Htx & Hplain & Hlisted).
  specialize (Htx eq_refl). specialize (Hplain eq_refl). specialize (Hlisted eq_refl).
  destruct (exec healthy (TxHandler.requireDbClient false "dbClient") w) as [o1 w1].
  destruct (exec healthy (Plain.requireDbClient "dbClient") w) as [o2 w2].
  destruct (exec healthy (Listed.requireDbClient "dbClient") w) as [o3 w3].
  destruct Htx as (Hb & Ho). destruct Hplain as (_ & Ho2). destruct Hlisted as (_ & Ho3).
  split; [reflexivity|]. split; [exact (Ho eq_refl)|]. split; [exact Hb|].
  split; [exact Ho2 | exact (Ho3 eq_refl)].
Defined.

(** C10.  On part_001 and on the [async] variant of part_000: a begin or a
    commit whose precondition holds and which returns, returns [undefined];
    a call that breaks the protocol returns [false]; both values are falsy,
    though they are not the same value. *)
Theorem success_is_falsy env (w : World Client) :
  (forall v, isWithinTransaction (state w) = false ->
             fst (exec env Tx.beginTransaction w) = Normal v -> v = VUndefined)
  /\ (forall v, isWithinTransaction (state w) = true ->
                fst (exec env Tx.commitTransaction w) = Normal v -> v = VUndefined)
  /\ (isWithinTransaction (state w) = true ->
      fst (exec env Tx.beginTransaction w) = Normal (VBool false))
  /\ (isWithinTransaction (state w) = false ->
      fst (exec env Tx.commitTransaction w) = Normal (VBool false))
  /\ (forall v, isWithinTransaction (state w) = false ->
                fst (exec env AsyncTx.asyncBeginTransaction w) = Normal v -> v = VUndefined)
  /\ (forall v, isWithinTransaction (state w) = true ->
                fst (exec env AsyncTx.asyncCommitTransaction w) = Normal v -> v = VUndefined)
  /\ (isWithinTransaction (state w) = true ->
      fst (exec env AsyncTx.asyncBeginTransaction w) = Normal (VBool false))
  /\ (isWithinTransaction (state w) = false ->
      fst (exec env AsyncTx.asyncCommitTransaction w) = Normal (VBool false))
  /\ truthy VUndefined = false /\ truthy (VBool false) = false
  /\ VUndefined <> VBool false.
Proof.
  repeat split; try discriminate.
  - intros v Hout Hv.
    destruct (begin_run env w) as (r & w1 & h & He & _ & _ & _ & _ & _ & Hval).
    rewrite He in Hv. cbn [fst] in Hv. rewrite (Hval v Hv), Hout. reflexivity.
  - intros v Hin Hv.
    destruct (commit_run env w) as (r & w1 & h & He & _ & _ & _ & _ & _ & Hval & _).
    rewrite He in Hv. cbn [fst] in Hv. rewrite (Hval v Hv), Hin. reflexivity.
  - intros Hin. now rewrite (exec_begin_misuse env w Hin).
  - intros Hout. now rewrite (exec_commit_misuse env w Hout).
  - intros v Hout. rewrite (exec_asyncBegin_fresh env w Hout).
    destruct (exec env (this_query "begin" VUndefined) _) as [[x|e] w1]; cbn [fst];
      congruence.
  - intros v Hin. rewrite (exec_asyncCommit_open env w Hin).
    destruct (exec env (this_query "commit" VUndefined) _) as [[x|e] w1]; cbn [fst];
      congruence.
  - intros Hin. now rewrite (exec_asyncBegin_misuse env w Hin).
  - intros Hout. now rewrite (exec_asyncCommit_misuse env w Hout).
Qed.

Lemma success_is_falsy_witness :
  let c := Tx.patchClient rawClient in
  fst (exec healthy Tx.beginTransaction (start c)) = Normal VUndefined
  /\ fst (exec healthy Tx.commitTransaction (start (set_isWithinTransaction true c)))
     = Normal VUndefined
  /\ fst (exec healthy Tx.beginTransaction (start (set_isWithinTransaction true c)))
     = Normal (VBool false)
  /\ fst (exec healthy Tx.commitTransaction (start c)) = Normal (VBool false).
Proof.
  intros c.
  destruct (success_is_falsy healthy (start c)) as (Hb & _ & _ & Hc & _).
  destruct (success_is_falsy healthy (start (set_isWithinTransaction true c)))
    as (_ & Hc' & Hb' & _).
  split; [reflexivity|]. split; [reflexivity|].
  split; [exact (Hb' eq_refl) | exact (Hc eq_refl)].
Defined.

(** * The rest of the handler: properties *)

(** ** A run only adds to the history *)

Section Growth.
Context {S : Type} (env : Env).
Implicit Types (t : Async S) (w : World S).

Lemma detach_grows (st : Status S) w :
  exists h, grows w (detach (st, w)) h
    /\ events h = match st with
                  | Finished (Raised e) => [Unhandled e]
                  | _ => []
                  end.
Proof.
  destruct st as [[v|e]|c k]; simpl.
  - exists []. split; [apply grows_refl|reflexivity].
  - exists [Did (Unhandled e)]. split; [apply grows_did|reflexivity].
  - exists []. split; [apply grows_float|reflexivity].
Qed.

Lemma prefix_grows t w : exists h, grows w (snd (prefix env t w)) h.
Proof.
  revert w. induction t as [v|e|k IH|s k IH|e k IH|c k IH|k IH|ms k IH|t1 IH1 t2 IH2];
    intros w; simpl.
  - exists []. apply grows_refl.
  - exists []. apply grows_refl.
  - apply IH.
  - destruct (IH (store s w)) as [h Hh]. exists ([Stored s] ++ h).
    eapply grows_trans; [apply grows_store|exact Hh].
  - destruct (IH (did e w)) as [h Hh]. exists ([Did e] ++ h).
    eapply grows_trans; [apply grows_did|exact Hh].
  - eexists. apply grows_did.
  - destruct (IH (pool_release env (past w)) (did (NativeRelease (pool_release env (past w))) w))
      as [h Hh].
    eexists. eapply grows_trans; [apply grows_did|exact Hh].
  - destruct (IH (length (history w)) (did (SetTimeout (length (history w)) ms) w)) as [h Hh].
    eexists. eapply grows_trans; [apply grows_did|exact Hh].
  - destruct (IH1 w) as [h1 H1]. destruct (prefix env t1 w) as [st w1]. cbn [snd] in H1.
    destruct (detach_grows st w1) as (hd & Hd & _).
    destruct (IH2 (detach (st, w1))) as [h2 H2].
    eexists. eapply grows_trans; [exact H1|]. eapply grows_trans; [exact Hd|exact H2].
Qed.

Lemma exec_grows t w : exists h, grows w (snd (exec env t w)) h.
Proof.
  revert w. induction t as [v|e|k IH|s k IH|e k IH|c k IH|k IH|ms k IH|t1 IH1 t2 IH2];
    intros w; simpl.
  - exists []. apply grows_refl.
  - exists []. apply grows_refl.
  - apply IH.
  - destruct (IH (store s w)) as [h Hh]. exists ([Stored s] ++ h).
    eapply grows_trans; [apply grows_store|exact Hh].
  - destruct (IH (did e w)) as [h Hh]. exists ([Did e] ++ h).
    eapply grows_trans; [apply grows_did|exact Hh].
  - match goal with |- context [exec env (k ?o) ?w1] => destruct (IH o w1) as [h Hh] end.
    eexists. eapply grows_trans; [apply grows_did|].
    eapply grows_trans; [apply grows_did|exact Hh].
  - destruct (IH (pool_release env (past w)) (did (NativeRelease (pool_release env (past w))) w))
      as [h Hh].
    eexists. eapply grows_trans; [apply grows_did|exact Hh].
  - destruct (IH (length (history w)) (did (SetTimeout (length (history w)) ms) w)) as [h Hh].
    eexists. eapply grows_trans; [apply grows_did|exact Hh].
  - destruct (prefix_grows t1 w) as [h1 H1]. destruct (prefix env t1 w) as [st w1].
    cbn [snd] in H1.
    destruct (detach_grows st w1) as (hd & Hd & _).
    destruct (IH2 (detach (st, w1))) as [h2 H2].
    eexists. eapply grows_trans; [exact H1|]. eapply grows_trans; [exact Hd|exact H2].
Qed.

End Growth.

(** ** A method of a client, run from the handler *)

Lemma client_at_update_ne r r' f (s : Server) :
  r' <> r -> client_at r' (update r f s) = client_at r' s.
Proof. intros H. unfold client_at, update. simpl. now rewrite lookup_insert_ne by congruence. Qed.

Lemma apart_refl r s : apart r s s.
Proof. repeat split. Qed.

Lemma apart_trans r s1 s2 s3 : apart r s1 s2 -> apart r s2 s3 -> apart r s1 s3.
Proof.
  intros (Ha & Hb & Hc) (Ha' & Hb' & Hc'). repeat split; try congruence.
  intros r' Hr. rewrite (Hc' r' Hr). now apply Hc.
Qed.

Lemma apart_update r f s : apart r s (update r f s).
Proof.
  repeat split. intros r' Hr. unfold update. simpl. now rewrite lookup_insert_ne by congruence.
Qed.

Lemma apart_client_at r r' s s' : apart r s s' -> r' <> r -> client_at r' s' = client_at r' s.
Proof. intros (_ & _ & H) Hr. unfold client_at. now rewrite (H r' Hr). Qed.

Lemma events_view r (h : list (Entry Server)) :
  events (map (fun e => match e with
                        | Did e => Did e
                        | Stored s => Stored (client_at r s)
                        end) h) = events h.
Proof. induction h as [|[e|s] h IH]; simpl; [reflexivity | now rewrite IH | exact IH]. Qed.

Lemma sees_view r w : sees r (view r w) w.
Proof.
  unfold sees, view, past. simpl. split; [reflexivity|].
  split; [apply events_view|]. now rewrite length_map.
Qed.

Lemma sees_did r e wc w : sees r wc w -> sees r (did e wc) (did e w).
Proof.
  intros (Hs & Hp & Hl). unfold sees. rewrite !past_did.
  cbn [state did history]. rewrite !length_app, Hp, Hl. auto.
Qed.

Lemma sees_store r c wc w :
  sees r wc w -> sees r (store c wc) (store (update r (fun _ => c) (state w)) w).
Proof.
  intros (Hs & Hp & Hl). unfold sees. rewrite !past_store.
  cbn [state store history]. rewrite !length_app, Hl, client_at_update. auto.
Qed.

Lemma sees_float r c k k' wc w : sees r wc w -> sees r (float c k wc) (float c k' w).
Proof. intros H. exact H. Qed.

Section OnClient.
Context (env : Env) (r : nat).

(** The synchronous part of the method is the same from the handler: the
    same completion or the same call to wait for, the same events, and
    nothing but the client is written. *)
Lemma on_client_prefix (t : Async Client) : forall wc w, sees r wc w ->
  match prefix env t wc, prefix env (on_client r t) w with
  | (Finished o, wc'), (Finished o', w') =>
      o' = o /\ sees r wc' w' /\ apart r (state w) (state w')
  | (Suspended c k, wc'), (Suspended c' k', w') =>
      c' = c /\ k' = (fun o => on_client r (k o))
      /\ sees r wc' w' /\ apart r (state w) (state w')
  | _, _ => False
  end.
Proof.
  induction t as [v|e|k IH|s k IH|e k IH|c k IH|k IH|ms k IH|t1 IH1 t2 IH2];
    intros wc w Hsee; cbn [on_client prefix].
  - split; [reflexivity|]. split; [exact Hsee|apply apart_refl].
  - split; [reflexivity|]. split; [exact Hsee|apply apart_refl].
  - assert (Hs : state wc = client_at r (state w)) by apply Hsee.
    rewrite <- Hs. apply IH. exact Hsee.
  - specialize (IH _ _ (sees_store r s wc w Hsee)).
    destruct (prefix env k (store s wc)) as [[o|c k1] wc'];
      destruct (prefix env (on_client r k) _) as [[o'|c' k1'] w']; try contradiction.
    + destruct IH as (Ho & Hs' & Ha). split; [exact Ho|]. split; [exact Hs'|].
      eapply apart_trans; [apply apart_update|exact Ha].
    + destruct IH as (Ho & Hk & Hs' & Ha). repeat (split; [assumption|]).
      eapply apart_trans; [apply apart_update|exact Ha].
  - exact (IH _ _ (sees_did r e wc w Hsee)).
  - split; [reflexivity|]. split; [reflexivity|].
    split; [apply sees_did; exact Hsee|apply apart_refl].
  - assert (Hp : past wc = past w) by apply Hsee. rewrite Hp.
    exact (IH _ _ _ (sees_did r _ wc w Hsee)).
  - assert (Hl : length (history wc) = length (history w)) by apply Hsee. rewrite Hl.
    exact (IH _ _ _ (sees_did r _ wc w Hsee)).
  - specialize (IH1 _ _ Hsee).
    destruct (prefix env t1 wc) as [[[v|e]|c k1] wc1];
      destruct (prefix env (on_client r t1) w) as [[[v'|e']|c' k1'] w1]; try contradiction;
      try (destruct IH1 as (Ho & _); discriminate Ho).
    + destruct IH1 as (_ & Hs1 & Ha1). cbn [detach].
      specialize (IH2 _ _ Hs1).
      destruct (prefix env t2 wc1) as [[o|c k2] wc'];
        destruct (prefix env (on_client r t2) w1) as [[o'|c' k2'] w']; try contradiction.
      * destruct IH2 as (Ho & Hs' & Ha). repeat (split; [assumption|]).
        eapply apart_trans; eassumption.
      * destruct IH2 as (Ho & Hk & Hs' & Ha). repeat (split; [assumption|]).
        eapply apart_trans; eassumption.
    + destruct IH1 as (Ho & Hs1 & Ha1). injection Ho as ->. cbn [detach].
      specialize (IH2 _ _ (sees_did r (Unhandled e) _ _ Hs1)).
      destruct (prefix env t2 (did (Unhandled e) wc1)) as [[o|c k2] wc'];
        destruct (prefix env (on_client r t2) (did (Unhandled e) w1)) as [[o'|c' k2'] w'];
        try contradiction.
      * destruct IH2 as (Ho & Hs' & Ha). repeat (split; [assumption|]).
        eapply apart_trans; eassumption.
      * destruct IH2 as (Ho & Hk & Hs' & Ha). repeat (split; [assumption|]).
        eapply apart_trans; eassumption.
    + destruct IH1 as (-> & -> & Hs1 & Ha1). cbn [detach].
      specialize (IH2 _ _ (sees_float r c k1 (fun o => on_client r (k1 o)) _ _ Hs1)).
      destruct (prefix env t2 (float c k1 wc1)) as [[o|c2 k2] wc'];
        destruct (prefix env (on_client r t2) (float c (fun o => on_client r (k1 o)) w1))
          as [[o'|c2' k2'] w']; try contradiction.
      * destruct IH2 as (Ho & Hs' & Ha). repeat (split; [assumption|]).
        eapply apart_trans; eassumption.
      * destruct IH2 as (Ho & Hk & Hs' & Ha). repeat (split; [assumption|]).
        eapply apart_trans; eassumption.
Qed.

(** The same for a method that the handler awaits. *)
Lemma on_client_exec (t : Async Client) : forall wc w, sees r wc w ->
  let (o, wc') := exec env t wc in
  let (o', w') := exec env (on_client r t) w in
  o' = o /\ sees r wc' w' /\ apart r (state w) (state w').
Proof.
  induction t as [v|e|k IH|s k IH|e k IH|c k IH|k IH|ms k IH|t1 IH1 t2 IH2];
    intros wc w Hsee; cbn [on_client exec].
  - split; [reflexivity|]. split; [exact Hsee|apply apart_refl].
  - split; [reflexivity|]. split; [exact Hsee|apply apart_refl].
  - assert (Hs : state wc = client_at r (state w)) by apply Hsee.
    rewrite <- Hs. apply IH. exact Hsee.
  - specialize (IH _ _ (sees_store r s wc w Hsee)).
    destruct (exec env k (store s wc)) as [o wc'];
      destruct (exec env (on_client r k) _) as [o' w'].
    destruct IH as (Ho & Hs' & Ha). split; [exact Ho|]. split; [exact Hs'|].
    eapply apart_trans; [apply apart_update|exact Ha].
  - exact (IH _ _ (sees_did r e wc w Hsee)).
  - pose proof (sees_did r (Dispatch c) wc w Hsee) as H1.
    assert (Hp : past (did (Dispatch c) wc) = past (did (Dispatch c) w)) by apply H1.
    rewrite Hp. exact (IH _ _ _ (sees_did r _ _ _ H1)).
  - assert (Hp : past wc = past w) by apply Hsee. rewrite Hp.
    exact (IH _ _ _ (sees_did r _ wc w Hsee)).
  - assert (Hl : length (history wc) = length (history w)) by apply Hsee. rewrite Hl.
    exact (IH _ _ _ (sees_did r _ wc w Hsee)).
  - pose proof (on_client_prefix t1 _ _ Hsee) as H1.
    destruct (prefix env t1 wc) as [[[v|e]|c k1] wc1];
      destruct (prefix env (on_client r t1) w) as [[[v'|e']|c' k1'] w1]; try contradiction;
      try (destruct H1 as (Ho & _); discriminate Ho).
    + destruct H1 as (_ & Hs1 & Ha1). cbn [detach].
      specialize (IH2 _ _ Hs1).
      destruct (exec env t2 wc1) as [o wc']; destruct (exec env (on_client r t2) w1) as [o' w'].
      destruct IH2 as (Ho & Hs' & Ha). repeat (split; [assumption|]).
      eapply apart_trans; eassumption.
    + destruct H1 as (Ho & Hs1 & Ha1). injection Ho as ->. cbn [detach].
      specialize (IH2 _ _ (sees_did r (Unhandled e) _ _ Hs1)).
      destruct (exec env t2 (did (Unhandled e) wc1)) as [o wc'];
        destruct (exec env (on_client r t2) (did (Unhandled e) w1)) as [o' w'].
      destruct IH2 as (Ho & Hs' & Ha). repeat (split; [assumption|]).
      eapply apart_trans; eassumption.
    + destruct H1 as (-> & -> & Hs1 & Ha1). cbn [detach].
      specialize (IH2 _ _ (sees_float r c k1 (fun o => on_client r (k1 o)) _ _ Hs1)).
      destruct (exec env t2 (float c k1 wc1)) as [o wc'];
        destruct (exec env (on_client r t2) (float c (fun o => on_client r (k1 o)) w1))
          as [o' w'].
      destruct IH2 as (Ho & Hs' & Ha). repeat (split; [assumption|]).
      eapply apart_trans; eassumption.
Qed.

(** What the handler sees of a method it awaits: the completion, the
    events and the client are those of the method run on the client alone. *)
Lemma on_client_run (t : Async Client) (w : World Server) :
  let (o, wc') := exec env t (view r w) in
  let (o', w') := exec env (on_client r t) w in
  o' = o
  /\ client_at r (state w') = state wc'
  /\ since w w' = since (view r w) wc'
  /\ apart r (state w) (state w')
  /\ length (history w') = length (history wc').
Proof.
  pose proof (on_client_exec t _ _ (sees_view r w)) as H.
  destruct (exec_grows env t (view r w)) as [hc Hc].
  destruct (exec_grows env (on_client r t) w) as [h Hh].
  destruct (exec env t (view r w)) as [o wc'].
  destruct (exec env (on_client r t) w) as [o' w'].
  cbn [snd] in *. destruct H as (Ho & (Hs & Hp & Hl) & Ha).
  split; [exact Ho|]. split; [now rewrite Hs|]. split; [|split; [exact Ha|now rewrite Hl]].
  rewrite (grows_since _ _ _ Hh), (grows_since _ _ _ Hc).
  rewrite (grows_past _ _ _ Hh), (grows_past _ _ _ Hc) in Hp.
  destruct (sees_view r w) as (_ & Hp0 & _). rewrite Hp0 in Hp.
  symmetry. now apply app_inv_head in Hp.
Qed.

End OnClient.

(** ** Timers *)

Lemma armed_app evs1 evs2 : armed (evs1 ++ evs2) = fold_left tick evs2 (armed evs1).
Proof. unfold armed. apply fold_left_app. Qed.

Lemma tick_logs logs live :
  (forall e, In e logs -> exists l m d, e = Log l m d) ->
  fold_left tick logs live = live.
Proof.
  revert live. induction logs as [|e logs IH]; intros live Hlogs; [reflexivity|].
  destruct (Hlogs e (or_introl eq_refl)) as (l & m & d & ->). cbn [fold_left tick].
  apply IH. intros e' He'. apply Hlogs. now right.
Qed.

Lemma count_hands_over_logs logs :
  (forall e, In e logs -> exists l m d, e = Log l m d) -> count hands_over logs = 0.
Proof.
  induction logs as [|e logs IH]; intros Hlogs; [reflexivity|].
  destruct (Hlogs e (or_introl eq_refl)) as (l & m & d & ->). cbn [count hands_over].
  apply IH. intros e' He'. apply Hlogs. now right.
Qed.

(** ** part_001: what [release()] leaves behind *)

Section TxRelease.
Context (env : Env).
Implicit Types (w : World Client).

(** One closure of [release], event by event. *)
Lemma released_events w :
  exists h, grows w (released env w) h
    /\ events h =
       Log LTrace "Releasing client" (VObj [("id", uniqueId (state w))])
       :: (if isWithinTransaction (state w)
           then [Log LWarn "Rolling back transaction" VUndefined;
                 Dispatch (Query "rollback" VUndefined)]
           else [])
       ++ match sanityTimeout (state w) with
          | Some t => [ClearTimeout t]
          | None => []
          end
    /\ isWithinTransaction (state (released env w)) = false
    /\ isQueryRunning (state (released env w)) = false
    /\ sanityTimeout (state (released env w)) = None
    /\ table (state (released env w)) = table (state w).
Proof.
  unfold released.
  set (w0 := did (Log LTrace "Releasing client" (VObj [("id", uniqueId (state w))])) w).
  assert (Hg0 : grows w w0 [Did (Log LTrace "Releasing client"
                                   (VObj [("id", uniqueId (state w))]))])
    by apply grows_did.
  destruct (isWithinTransaction (state w)) eqn:Hin.
  - destruct (rollback_floats env w0 Hin) as (h1 & Hg1 & He1 & _ & Hc1 & Ht1 & Htab1 & Hf1).
    set (w1 := detach (prefix env Tx.rollbackTransactionIfNotCommitted w0)) in *.
    destruct (settle_down_grows w1) as (h2 & Hg2 & He2 & _ & Hc2 & Hr2 & Ht2 & Htab2 & Hf2).
    exists (([Did (Log LTrace "Releasing client" (VObj [("id", uniqueId (state w))]))]
             ++ h1) ++ h2).
    split; [eapply grows_trans; [eapply grows_trans|]; eassumption|].
    rewrite !events_app, He1, He2, Ht1, Hc2, Hc1, Htab2, Htab1.
    repeat split; auto.
  - rewrite (prefix_rollback_out env w0 Hin). unfold detach.
    destruct (settle_down_grows w0) as (h2 & Hg2 & He2 & _ & Hc2 & Hr2 & Ht2 & Htab2 & Hf2).
    exists ([Did (Log LTrace "Releasing client" (VObj [("id", uniqueId (state w))]))]
            ++ h2).
    split; [eapply grows_trans; eassumption|].
    rewrite !events_app, He2, Hc2, Htab2. repeat split; auto.
Qed.

Lemma reaches_pool_table (a b : Client) : table a = table b -> reaches_pool a = reaches_pool b.
Proof. unfold table, reaches_pool. intros H. injection H as _ _ _ _ -> ->. reflexivity. Qed.

(** [release()] that gets to the pool: the connection is handed back once,
    by the last step; a timer is cancelled when a closure of [patchClient]
    is passed, and none is armed. *)
Lemma tx_release_reaches m w :
  (m = PoolRelease \/ "rollbackTransactionIfNotCommitted" ∈ methods (state w)) ->
  exists o w' h,
    exec env (Tx.call_release m) w = (o, w')
    /\ grows w w' h
    /\ (exists evs, o = pool_release env evs)
    /\ count hands_over (events h) = 1
    /\ count arms_timer (events h) = 0
    /\ (forall live, fold_left tick (events h) live =
                     if releaseWasPatched m then cancel (sanityTimeout (state w)) live
                     else live)
    /\ isQueryRunning (state w') =
       (if releaseWasPatched m then false else isQueryRunning (state w))
    /\ sanityTimeout (state w') =
       (if releaseWasPatched m then None else sanityTimeout (state w))
    /\ isWithinTransaction (state w') =
       (if releaseWasPatched m then false else isWithinTransaction (state w))
    /\ table (state w') = table (state w).
Proof.
  revert w. induction m as [|old IH]; intros w Hr.
  - rewrite exec_release_pool. do 3 eexists. split; [reflexivity|].
    split; [apply grows_did|]. split; [eauto|]. simpl. repeat split; auto.
  - destruct Hr as [Hr|Hin]; [discriminate|].
    rewrite (exec_release_patched env old w Hin).
    destruct (released_events w) as (h1 & Hg1 & He1 & Hc1 & Hq1 & Ht1 & Htab1).
    destruct (IH (released env w))
      as (o & w' & h2 & He & Hg2 & Ho & Hn2 & Ha2 & Hk2 & Hq2 & Ht2 & Hc2 & Htab2).
    { right. unfold table in Htab1. injection Htab1 as _ _ _ _ _ ->. exact Hin. }
    exists o, w', (h1 ++ h2). split; [exact He|].
    split; [eapply grows_trans; eassumption|]. split; [exact Ho|].
    rewrite events_app, !count_app, Hn2, Ha2, He1.
    rewrite Hq2, Ht2, Hc2, Hq1, Ht1, Hc1, Htab2, Htab1. cbn [releaseWasPatched].
    split; [|split; [|split; [|split; [|split; [|split]]]]]; auto.
    + cbn [count hands_over]. rewrite count_app.
      destruct (isWithinTransaction (state w)), (sanityTimeout (state w)); reflexivity.
    + cbn [count arms_timer]. rewrite count_app.
      destruct (isWithinTransaction (state w)), (sanityTimeout (state w)); reflexivity.
    + intros live. rewrite fold_left_app, Hk2, Ht1. cbn [fold_left tick].
      rewrite fold_left_app.
      assert (Hx : cancel None = fun l => l) by reflexivity.
      destruct (releaseWasPatched old); rewrite ?Hx;
        destruct (isWithinTransaction (state w)), (sanityTimeout (state w)); reflexivity.
    + destruct (releaseWasPatched old); reflexivity.
    + destruct (releaseWasPatched old); reflexivity.
    + destruct (releaseWasPatched old); reflexivity.
Qed.

End TxRelease.

(** ** part_001: [client.release()] called by the handler *)

Section TxHandlerRelease.
Context (env : Env).
Implicit Types (w : World Server).

Lemma reaches_pool_cases (c : Client) :
  reaches_pool c = true ->
  release c = PoolRelease \/ "rollbackTransactionIfNotCommitted" ∈ methods c.
Proof.
  unfold reaches_pool. destruct (release c); [auto|].
  intros H. right. exact (bool_decide_eq_true_1 _ H).
Qed.

Lemma rolls_reaches (c : Client) :
  rolls c = true -> reaches_pool c = true /\ releaseWasPatched (release c) = true.
Proof. unfold rolls, reaches_pool. destruct (release c); [discriminate|auto]. Qed.

(** The release of a client that gets to the pool, seen from the handler. *)
Lemma tx_release_from_handler r w :
  reaches_pool (client_at r (state w)) = true ->
  exists o w' h,
    exec env (on_client r Tx.this_release) w = (o, w')
    /\ grows w w' h
    /\ (exists evs, o = pool_release env evs)
    /\ count hands_over (events h) = 1
    /\ count arms_timer (events h) = 0
    /\ (forall live, fold_left tick (events h) live =
                     if releaseWasPatched (release (client_at r (state w)))
                     then cancel (sanityTimeout (client_at r (state w))) live
                     else live)
    /\ (releaseWasPatched (release (client_at r (state w))) = true ->
        isQueryRunning (client_at r (state w')) = false
        /\ sanityTimeout (client_at r (state w')) = None
        /\ isWithinTransaction (client_at r (state w')) = false)
    /\ (releaseWasPatched (release (client_at r (state w))) = false ->
        sanityTimeout (client_at r (state w')) = sanityTimeout (client_at r (state w)))
    /\ table (client_at r (state w')) = table (client_at r (state w))
    /\ apart r (state w) (state w').
Proof.
  intros Hr. pose proof (on_client_run env r Tx.this_release w) as Hrun.
  destruct (exec_grows env (on_client r Tx.this_release) w) as [h Hh].
  unfold Tx.this_release in Hrun at 1. cbn [exec] in Hrun.
  change (state (view r w)) with (client_at r (state w)) in Hrun.
  destruct (tx_release_reaches env (release (client_at r (state w))) (view r w))
    as (o & wc' & hc & He & Hg & Ho & Hn & Harm & Hk & Hq & Ht & Hc & Htab).
  { apply reaches_pool_cases in Hr. destruct Hr as [Hr|Hr]; [left; exact Hr|right; exact Hr]. }
  rewrite He in Hrun.
  destruct (exec env (on_client r Tx.this_release) w) as [o' w']. cbn [snd] in Hh.
  destruct Hrun as (-> & Hs & Hsince & Ha & _).
  rewrite (grows_since _ _ _ Hh), (grows_since _ _ _ Hg) in Hsince.
  change (state (view r w)) with (client_at r (state w)) in *.
  exists o, w', h. split; [reflexivity|]. split; [exact Hh|]. split; [exact Ho|].
  rewrite Hsince, Hs. split; [exact Hn|]. split; [exact Harm|]. split; [exact Hk|].
  split; [|split; [|split; [exact Htab|exact Ha]]].
  - intros Hp. rewrite Hp in *. auto.
  - intros Hp. rewrite Hp in *. auto.
Qed.

End TxHandlerRelease.

(** ** The hooks over [request.dbClients] *)

Section ListedHooksRuns.
Context (env : Env).
Implicit Types (w : World Server).

(** The hook, step by step. *)
Lemma exec_releaseListed this_release w :
  exec env (releaseListed this_release) w =
  match request (state w) !! "dbClients" with
  | Some (ClientList clients) =>
      if (0 <? Z.of_nat (length clients))%Z then
        match exec env (forEach clients (release_of this_release))
                (did (Log LTrace "Releasing clients automatically on send"
                        (VObj [("amount", VNum (Z.of_nat (length clients)))])) w) with
        | (Normal _, w1) =>
            (Normal VUndefined, store (assign "dbClients" (ClientList []) (state w1)) w1)
        | (Raised e, w1) => (Raised e, w1)
        end
      else (Normal VUndefined, store (assign "dbClients" (ClientList []) (state w)) w)
  | Some (Bound clients) =>
      if truthy clients && greater_than_zero (length_of clients) then
        (Raised (VError "TypeError: clients.forEach is not a function"),
         did (Log LTrace "Releasing clients automatically on send"
                (VObj [("amount", length_of clients)])) w)
      else (Normal VUndefined, store (assign "dbClients" (ClientList []) (state w)) w)
  | None => (Normal VUndefined, store (assign "dbClients" (ClientList []) (state w)) w)
  end.
Proof.
  unfold releaseListed. cbn [exec]. rewrite exec_bind.
  destruct (request (state w) !! "dbClients") as [[v|clients]|]; [| |reflexivity].
  - destruct (truthy v && greater_than_zero (length_of v)); reflexivity.
  - destruct (0 <? Z.of_nat (length clients))%Z; [|reflexivity].
    unfold log at 1. cbn [bind exec].
    destruct (exec env (forEach clients (release_of this_release)) _) as [[v|e] w1];
      reflexivity.
Qed.

Lemma exec_forEach_cons v vs f w :
  exec env (forEach (v :: vs) f) w =
  match exec env (f v) w with
  | (Normal _, w1) => exec env (forEach vs f) w1
  | (Raised e, w1) => (Raised e, w1)
  end.
Proof. cbn [forEach]. apply exec_bind. Qed.

(** Every listed client is released, in order, when no release throws. *)
Lemma tx_forEach_release rs : forall w,
  (forall evs, returns (pool_release env evs) = true) ->
  (forall r, In r rs -> rolls (client_at r (state w)) = true) ->
  exists w' h,
    exec env (forEach (map VRef rs) (release_of Tx.this_release)) w = (Normal VUndefined, w')
    /\ grows w w' h
    /\ count hands_over (events h) = length rs
    /\ count arms_timer (events h) = 0
    /\ request (state w') = request (state w)
    /\ (forall r, In r rs ->
          isWithinTransaction (client_at r (state w')) = false
          /\ isQueryRunning (client_at r (state w')) = false
          /\ sanityTimeout (client_at r (state w')) = None)
    /\ (forall r, ~ In r rs -> client_at r (state w') = client_at r (state w))
    /\ (forall r, table (client_at r (state w')) = table (client_at r (state w))).
Proof.
  induction rs as [|r0 rs IH]; intros w Hpool Hrolls.
  - exists w, []. split; [reflexivity|]. split; [apply grows_refl|].
    repeat split; auto; try easy.
  - cbn [map]. rewrite exec_forEach_cons. cbn [release_of].
    destruct (rolls_reaches _ (Hrolls r0 (or_introl eq_refl))) as (Hreach & Hpatched).
    destruct (tx_release_from_handler env r0 w Hreach)
      as (o & w1 & h1 & He & Hg1 & (evs & Ho) & Hn1 & Ha1 & Hk1 & Hyes & _ & Htab1 & Hap).
    rewrite He. pose proof (Hpool evs) as Hp1. rewrite <- Ho in Hp1.
    destruct o as [v|e]; [|discriminate]. destruct (Hyes Hpatched) as (Hq1 & Ht1 & Hc1).
    assert (Htabs : forall r', table (client_at r' (state w1)) = table (client_at r' (state w))).
    { intros r'. destruct (Nat.eq_dec r' r0) as [->|Hne]; [exact Htab1|].
      now rewrite (apart_client_at _ _ _ _ Hap Hne). }
    destruct (IH w1 Hpool) as (w' & h2 & He2 & Hg2 & Hn2 & Ha2 & Hreq2 & Hset2 & Hout2 & Htab2).
    { intros r' Hin. rewrite (rolls_table _ _ (Htabs r')). apply Hrolls. now right. }
    exists w', (h1 ++ h2). split; [exact He2|].
    split; [eapply grows_trans; eassumption|].
    rewrite events_app, !count_app, Hn1, Hn2, Ha1, Ha2.
    split; [reflexivity|]. split; [reflexivity|]. split; [|split; [|split]].
    + rewrite Hreq2. apply Hap.
    + intros r' [<-|Hin]; [|now apply Hset2].
      destruct (in_dec Nat.eq_dec r0 rs) as [Hin|Hout]; [now apply Hset2|].
      rewrite (Hout2 r0 Hout). auto.
    + intros r' Hnot. rewrite Hout2 by (intros Hin; apply Hnot; now right).
      apply (apart_client_at _ _ _ _ Hap). intros ->. apply Hnot. now left.
    + intros r'. now rewrite Htab2, Htabs.
Qed.

(** X1.  The hook [onSend] of part_001 when no release throws: every
    client listed in [request.dbClients], each with the [release] of
    [patchClient] on it, is handed back to the pool, once per entry of the
    list; each of them is left outside a transaction, with no query marked
    as running and no timer; no timer is armed; the clients that are not
    listed are not touched; and [request.dbClients] is the empty array
    afterwards. *)
Theorem onSend_releases_every_client w rs :
  (forall evs, returns (pool_release env evs) = true) ->
  request (state w) !! "dbClients" = Some (ClientList (map VRef rs)) ->
  (forall r, In r rs -> rolls (client_at r (state w)) = true) ->
  let (o, w') := exec env TxHooks.onSend w in
  o = Normal VUndefined
  /\ request (state w') !! "dbClients" = Some (ClientList [])
  /\ count hands_over (since w w') = length rs
  /\ count arms_timer (since w w') = 0
  /\ (forall r, In r rs ->
        isWithinTransaction (client_at r (state w')) = false
        /\ isQueryRunning (client_at r (state w')) = false
        /\ sanityTimeout (client_at r (state w')) = None)
  /\ (forall r, ~ In r rs -> client_at r (state w') = client_at r (state w)).
Proof.
  intros Hpool Hslot Hrolls. unfold TxHooks.onSend. rewrite exec_releaseListed, Hslot.
  rewrite length_map. destruct rs as [|r0 rs].
  - cbn [length Z.of_nat Z.ltb Z.compare]. split; [reflexivity|].
    split; [apply lookup_insert_eq|].
    rewrite (grows_since _ _ _ (grows_store _ w)). repeat split; auto; try easy.
  - change (0 <? Z.of_nat (length (r0 :: rs)))%Z with true. cbv iota.
    set (w0 := did _ w).
    destruct (tx_forEach_release (r0 :: rs) w0 Hpool Hrolls)
      as (w1 & h & He & Hg & Hn & Ha & Hreq & Hset & Hout & _).
    rewrite He. split; [reflexivity|]. split; [apply lookup_insert_eq|].
    assert (Hall : grows w (store (assign "dbClients" (ClientList []) (state w1)) w1)
                     (([Did (Log LTrace "Releasing clients automatically on send"
                               (VObj [("amount", VNum (Z.of_nat (length (r0 :: rs))))]))]
                       ++ h) ++ [Stored (assign "dbClients" (ClientList []) (state w1))])).
    { eapply grows_trans; [eapply grows_trans; [apply grows_did|exact Hg]|apply grows_store]. }
    rewrite (grows_since _ _ _ Hall), !events_app, !count_app, Hn, Ha.
    split; [cbn [events count hands_over length]; lia|].
    split; [reflexivity|]. split; [exact Hset|exact Hout].
Qed.

Lemma exec_async_releaseListed w :
  exec env AsyncTxHooks.releaseListed w =
  match request (state w) !! "dbClients" with
  | Some (ClientList clients) =>
      if (0 <? Z.of_nat (length clients))%Z then
        match exec env (forEach clients (release_of AsyncTx.this_release))
                (did (Log LTrace "Releasing clients automatically on send"
                        (VObj [("amount", VNum (Z.of_nat (length clients)))])) w) with
        | (Normal _, w1) =>
            (Normal VUndefined, store (assign "dbClients" (ClientList []) (state w1)) w1)
        | (Raised e, w1) => (Raised e, w1)
        end
      else (Normal VUndefined, store (assign "dbClients" (ClientList []) (state w)) w)
  | Some (Bound clients) =>
      if truthy clients && greater_than_zero (length_of clients) then
        (Raised not_a_client,
         did (Log LTrace "Releasing clients automatically on send"
                (VObj [("amount", length_of clients)])) w)
      else (Normal VUndefined, store (assign "dbClients" (ClientList []) (state w)) w)
  | None => (Normal VUndefined, store (assign "dbClients" (ClientList []) (state w)) w)
  end.
Proof.
  unfold AsyncTxHooks.releaseListed. cbn [exec]. rewrite exec_bind.
  destruct (request (state w) !! "dbClients") as [[v|clients]|]; [| |reflexivity].
  - destruct (truthy v && greater_than_zero (length_of v)); reflexivity.
  - destruct (0 <? Z.of_nat (length clients))%Z; [|reflexivity].
    unfold log at 1. cbn [bind exec].
    destruct (exec env (forEach clients (release_of AsyncTx.this_release)) _) as [[v|e] w1];
      reflexivity.
Qed.

(** Whatever [release] is, releasing the listed clients leaves the request
    and the counter of the handler alone. *)
Lemma release_of_apart this_release v w :
  request (state (snd (exec env (release_of this_release v) w))) = request (state w).
Proof.
  destruct v; try reflexivity. cbn [release_of].
  pose proof (on_client_run env r this_release w) as H.
  destruct (exec env this_release (view r w)) as [o wc'].
  destruct (exec env (on_client r this_release) w) as [o' w'].
  destruct H as (_ & _ & _ & (Hreq & _) & _). exact Hreq.
Qed.

Lemma forEach_request this_release vs : forall w,
  request (state (snd (exec env (forEach vs (release_of this_release)) w))) = request (state w).
Proof.
  induction vs as [|v vs IH]; intros w; [reflexivity|].
  rewrite exec_forEach_cons. pose proof (release_of_apart this_release v w) as H1.
  destruct (exec env (release_of this_release v) w) as [[x|e] w1]; cbn [snd] in *.
  - now rewrite IH.
  - exact H1.
Qed.

Lemma assign_same name v (s : Server) : request s !! name = Some v -> assign name v s = s.
Proof. intros H. unfold assign. now rewrite insert_id. Qed.

(** A hook that finds the empty array, or no array, does nothing but
    set [request.dbClients] to the empty array. *)
Lemma releaseListed_idle this_release w :
  request (state w) !! "dbClients" = None
  \/ request (state w) !! "dbClients" = Some (ClientList []) ->
  exec env (releaseListed this_release) w =
  (Normal VUndefined, store (assign "dbClients" (ClientList []) (state w)) w).
Proof. intros [H|H]; rewrite exec_releaseListed, H; reflexivity. Qed.

Lemma async_releaseListed_idle w :
  request (state w) !! "dbClients" = None
  \/ request (state w) !! "dbClients" = Some (ClientList []) ->
  exec env AsyncTxHooks.releaseListed w =
  (Normal VUndefined, store (assign "dbClients" (ClientList []) (state w)) w).
Proof. intros [H|H]; rewrite exec_async_releaseListed, H; reflexivity. Qed.

(** A hook that returns has set [request.dbClients] to the empty array. *)
Lemma releaseListed_returns this_release w :
  returns (fst (exec env (releaseListed this_release) w)) = true ->
  request (state (snd (exec env (releaseListed this_release) w))) !! "dbClients"
  = Some (ClientList []).
Proof.
  rewrite exec_releaseListed.
  destruct (request (state w) !! "dbClients") as [[v|clients]|].
  - destruct (truthy v && greater_than_zero (length_of v)); [discriminate|].
    intros _. apply lookup_insert_eq.
  - destruct (0 <? Z.of_nat (length clients))%Z; [|intros _; apply lookup_insert_eq].
    destruct (exec env (forEach clients (release_of this_release)) _) as [[v|e] w1];
      [intros _; apply lookup_insert_eq|discriminate].
  - intros _. apply lookup_insert_eq.
Qed.

Lemma async_releaseListed_returns w :
  returns (fst (exec env AsyncTxHooks.releaseListed w)) = true ->
  request (state (snd (exec env AsyncTxHooks.releaseListed w))) !! "dbClients"
  = Some (ClientList []).
Proof.
  rewrite exec_async_releaseListed.
  destruct (request (state w) !! "dbClients") as [[v|clients]|].
  - destruct (truthy v && greater_than_zero (length_of v)); [discriminate|].
    intros _. apply lookup_insert_eq.
  - destruct (0 <? Z.of_nat (length clients))%Z; [|intros _; apply lookup_insert_eq].
    destruct (exec env (forEach clients (release_of AsyncTx.this_release)) _) as [[v|e] w1];
      [intros _; apply lookup_insert_eq|discriminate].
  - intros _. apply lookup_insert_eq.
Qed.

(** X2.  The hooks of part_000 and part_001 over [request.dbClients]
    ([onSend] and [onError], which have the same body), whatever [release]
    does.  On a request with no array, or with the empty one, a hook calls
    nothing and logs nothing: it only sets [request.dbClients] to the empty
    array.  And once one hook has returned, a hook that runs after it on
    the same request finds nothing to release: no event, and the handler
    is left as it was.  So the two hooks never release a client twice. *)
Theorem hooks_release_once this_release w :
  (request (state w) !! "dbClients" = None
   \/ request (state w) !! "dbClients" = Some (ClientList []) ->
   let (o, w') := exec env (releaseListed this_release) w in
   o = Normal VUndefined
   /\ since w w' = []
   /\ request (state w') !! "dbClients" = Some (ClientList [])
   /\ objects (state w') = objects (state w))
  /\ (let (o1, w1) := exec env (releaseListed this_release) w in
      returns o1 = true ->
      let (o2, w2) := exec env (releaseListed this_release) w1 in
      o2 = Normal VUndefined /\ since w1 w2 = [] /\ state w2 = state w1)
  /\ (let (o1, w1) := exec env AsyncTxHooks.onError w in
      returns o1 = true ->
      let (o2, w2) := exec env AsyncTxHooks.onSend w1 in
      o2 = Normal VUndefined /\ since w1 w2 = [] /\ state w2 = state w1).
Proof.
  split; [|split].
  - intros Hslot. rewrite (releaseListed_idle this_release w Hslot).
    split; [reflexivity|]. rewrite (grows_since _ _ _ (grows_store _ w)).
    split; [reflexivity|]. split; [apply lookup_insert_eq|reflexivity].
  - pose proof (releaseListed_returns this_release w) as Hret.
    destruct (exec env (releaseListed this_release) w) as [o1 w1]. cbn [fst snd] in Hret.
    intros Ho. specialize (Hret Ho).
    rewrite (releaseListed_idle this_release w1 (or_intror Hret)).
    split; [reflexivity|]. rewrite (grows_since _ _ _ (grows_store _ w1)).
    split; [reflexivity|]. cbn [state store]. now apply assign_same.
  - unfold AsyncTxHooks.onError, AsyncTxHooks.onSend.
    pose proof (async_releaseListed_returns w) as Hret.
    destruct (exec env AsyncTxHooks.releaseListed w) as [o1 w1]. cbn [fst snd] in Hret.
    intros Ho. specialize (Hret Ho).
    rewrite (async_releaseListed_idle w1 (or_intror Hret)).
    split; [reflexivity|]. rewrite (grows_since _ _ _ (grows_store _ w1)).
    split; [reflexivity|]. cbn [state store]. now apply assign_same.
Qed.

(** X3.  A hook of part_000 or part_001 in which a [release] throws: the
    hook throws the same, [request.dbClients] is not reset and still lists
    every client, and when it is the release of the first client that
    throws, no other client has been touched: the others stay checked out,
    each with its timer. *)
Theorem hook_stops_at_the_release_that_throws this_release w :
  (forall e, let (o, w') := exec env (releaseListed this_release) w in
             o = Raised e -> request (state w') = request (state w))
  /\ (forall r rest e,
        request (state w) !! "dbClients" = Some (ClientList (VRef r :: rest)) ->
        fst (exec env (on_client r this_release)
               (did (Log LTrace "Releasing clients automatically on send"
                       (VObj [("amount", VNum (Z.of_nat (length (VRef r :: rest))))])) w))
        = Raised e ->
        let (o, w') := exec env (releaseListed this_release) w in
        o = Raised e
        /\ request (state w') !! "dbClients" = Some (ClientList (VRef r :: rest))
        /\ forall r', r' <> r -> objects (state w') !! r' = objects (state w) !! r').
Proof.
  split.
  - intros e. rewrite exec_releaseListed.
    destruct (request (state w) !! "dbClients") as [[v|clients]|]; [| |discriminate].
    + destruct (truthy v && greater_than_zero (length_of v)); [reflexivity|discriminate].
    + destruct (0 <? Z.of_nat (length clients))%Z; [|discriminate].
      match goal with |- context [exec env ?t ?w0] =>
        pose proof (forEach_request this_release clients w0) as Hreq;
        destruct (exec env t w0) as [[x|e'] w1] end; [discriminate|].
      intros _. exact Hreq.
  - intros r rest e Hslot Hfail. rewrite exec_releaseListed, Hslot.
    change (0 <? Z.of_nat (length (VRef r :: rest)))%Z with true. cbv iota.
    rewrite exec_forEach_cons. cbn [release_of].
    set (w0 := did _ w) in *.
    pose proof (on_client_run env r this_release w0) as Hrun.
    destruct (exec env this_release (view r w0)) as [oc wc'].
    destruct (exec env (on_client r this_release) w0) as [o' w']. cbn [fst] in Hfail.
    subst o'. destruct Hrun as (_ & _ & _ & (Hreq & _ & Hobj) & _).
    split; [reflexivity|]. split; [rewrite Hreq; exact Hslot|exact Hobj].
Qed.

End ListedHooksRuns.

Lemma onSend_releases_every_client_witness :
  request (state served) !! "dbClients" = Some (ClientList (map VRef [0]))
  /\ rolls (client_at 0 (state served)) = true
  /\ (let (o, w') := exec healthy TxHooks.onSend served in
      o = Normal VUndefined
      /\ request (state w') !! "dbClients" = Some (ClientList [])
      /\ count hands_over (since served w') = 1
      /\ sanityTimeout (client_at 0 (state w')) = None).
Proof.
  assert (Hrolls : forall r, In r [0] -> rolls (client_at r (state served)) = true).
  { intros r [<-|[]]. vm_compute. reflexivity. }
  split; [vm_compute; reflexivity|]. split; [apply Hrolls; now left|].
  pose proof (onSend_releases_every_client healthy served [0]
                (fun _ => eq_refl) eq_refl Hrolls) as H.
  destruct (exec healthy TxHooks.onSend served) as [o w'].
  destruct H as (Ho & Hr & Hc & _ & Hin & _).
  repeat split; try assumption. apply Hin. now left.
Defined.

Lemma hooks_release_once_witness :
  let (o1, w1) := exec healthy (releaseListed Tx.this_release) served in
  returns o1 = true
  /\ (let (o2, w2) := exec healthy (releaseListed Tx.this_release) w1 in
      o2 = Normal VUndefined /\ since w1 w2 = [] /\ state w2 = state w1).
Proof.
  destruct (hooks_release_once healthy Tx.this_release served) as (_ & H & _).
  assert (Ho : returns (fst (exec healthy (releaseListed Tx.this_release) served)) = true)
    by (vm_compute; reflexivity).
  revert H Ho. generalize (exec healthy (releaseListed Tx.this_release) served).
  intros [o1 w1]. cbn [fst]. intros H Ho. split; [exact Ho | exact (H Ho)].
Defined.

Lemma hook_stops_at_the_release_that_throws_witness :
  let e := VError "Release called on client which has already been released to the pool." in
  let (o, w') := exec released_already (releaseListed Tx.this_release) served in
  o = Raised e
  /\ request (state w') !! "dbClients" = Some (ClientList [VRef 0]).
Proof.
  intros e.
  destruct (hook_stops_at_the_release_that_throws released_already Tx.this_release served)
    as (_ & H).
  specialize (H 0 [] e).
  assert (H1 : request (state served) !! "dbClients" = Some (ClientList [VRef 0]))
    by (vm_compute; reflexivity).
  assert (H2 : fst (exec released_already (on_client 0 Tx.this_release)
                      (did (Log LTrace "Releasing clients automatically on send"
                              (VObj [("amount", VNum (Z.of_nat (length [VRef 0])))])) served))
               = Raised e)
    by (vm_compute; reflexivity).
  specialize (H H1 H2).
  destruct (exec released_already (releaseListed Tx.this_release) served) as [o w'].
  destruct H as (Ho & Hr & _). split; assumption.
Defined.


(** ** [release] of src/database.js and of part_000's first generation *)

Section PlainRelease.
Context (env : Env).
Implicit Types (w : World Client).

Lemma exec_plain_release_patched old w :
  exec env (Plain.call_release (PatchedRelease old)) w =
  exec env (Plain.call_release old)
    (settle_down (did (Log LTrace "Releasing client" VUndefined) w)).
Proof.
  cbn [Plain.call_release]. unfold log. cbn [bind exec].
  change (do modify (set_isQueryRunning false); do clearSanityTimeout; Plain.call_release old)
    with (do (do modify (set_isQueryRunning false); clearSanityTimeout); Plain.call_release old).
  rewrite exec_bind, (exec_clearSanityTimeout env). reflexivity.
Qed.

Lemma exec_listed_release_patched old w :
  exec env (ListedClient.call_release (PatchedRelease old)) w =
  exec env (ListedClient.call_release old)
    (settle_down (did (Log LTrace "Releasing client" (VObj [("id", uniqueId (state w))])) w)).
Proof.
  cbn [ListedClient.call_release exec]. unfold log. cbn [bind exec].
  change (do modify (set_isQueryRunning false); do clearSanityTimeout;
          ListedClient.call_release old)
    with (do (do modify (set_isQueryRunning false); clearSanityTimeout);
          ListedClient.call_release old).
  rewrite exec_bind, (exec_clearSanityTimeout env). reflexivity.
Qed.

(** What one closure writes and says, after its log. *)
Lemma settled_after_log lvl msg data w :
  let w1 := settle_down (did (Log lvl msg data) w) in
  exists h, grows w w1 h
    /\ events h = Log lvl msg data
                  :: match sanityTimeout (state w) with
                     | Some t => [ClearTimeout t]
                     | None => []
                     end
    /\ isQueryRunning (state w1) = false
    /\ sanityTimeout (state w1) = None
    /\ isWithinTransaction (state w1) = isWithinTransaction (state w)
    /\ lastQuery (state w1) = lastQuery (state w)
    /\ table (state w1) = table (state w).
Proof.
  intros w1. subst w1. set (w0 := did (Log lvl msg data) w).
  destruct (settle_down_grows w0) as (h & Hg & He & _ & Hc & Hq & Ht & Htab & _).
  exists ([Did (Log lvl msg data)] ++ h).
  split; [eapply grows_trans; [apply grows_did|exact Hg]|].
  rewrite events_app, He. repeat split; auto.
  unfold settle_down. cbn [state store].
  destruct (sanityTimeout _); reflexivity.
Qed.

(** [release()] of src/database.js: the connection is handed back once,
    whatever the client. *)
Lemma plain_release_run m w :
  exists o w' h,
    exec env (Plain.call_release m) w = (o, w')
    /\ grows w w' h
    /\ (exists evs, o = pool_release env evs)
    /\ count hands_over (events h) = 1
    /\ count arms_timer (events h) = 0
    /\ count is_dispatch (events h) = 0
    /\ (forall live, fold_left tick (events h) live =
                     if releaseWasPatched m then cancel (sanityTimeout (state w)) live
                     else live)
    /\ isQueryRunning (state w') =
       (if releaseWasPatched m then false else isQueryRunning (state w))
    /\ sanityTimeout (state w') =
       (if releaseWasPatched m then None else sanityTimeout (state w))
    /\ isWithinTransaction (state w') = isWithinTransaction (state w)
    /\ lastQuery (state w') = lastQuery (state w)
    /\ table (state w') = table (state w).
Proof.
  revert w. induction m as [|old IH]; intros w.
  - cbn [Plain.call_release exec]. rewrite exec_settled. do 3 eexists.
    split; [reflexivity|]. split; [apply grows_did|]. split; [eauto|].
    simpl. repeat split; auto.
  - rewrite exec_plain_release_patched.
    destruct (settled_after_log LTrace "Releasing client" VUndefined w)
      as (h1 & Hg1 & He1 & Hq1 & Ht1 & Hc1 & Hl1 & Htab1).
    destruct (IH (settle_down (did (Log LTrace "Releasing client" VUndefined) w)))
      as (o & w' & h2 & He & Hg2 & Ho & Hn2 & Ha2 & Hd2 & Hk2 & Hq2 & Ht2 & Hc2 & Hl2 & Htab2).
    exists o, w', (h1 ++ h2). split; [exact He|].
    split; [eapply grows_trans; eassumption|]. split; [exact Ho|].
    rewrite events_app, !count_app, Hn2, Ha2, Hd2, He1.
    rewrite Hq2, Ht2, Hc2, Hl2, Hq1, Ht1, Hc1, Hl1, Htab2, Htab1. cbn [releaseWasPatched].
    split; [|split; [|split; [|split; [|split; [|split]]]]]; auto.
    + destruct (sanityTimeout (state w)); reflexivity.
    + destruct (sanityTimeout (state w)); reflexivity.
    + destruct (sanityTimeout (state w)); reflexivity.
    + intros live. rewrite fold_left_app, Hk2, Ht1.
      assert (Hx : cancel None = fun l => l) by reflexivity.
      destruct (releaseWasPatched old); rewrite ?Hx;
        destruct (sanityTimeout (state w)); reflexivity.
    + destruct (releaseWasPatched old); reflexivity.
    + destruct (releaseWasPatched old); auto.
Qed.

(** [release()] of part_000's first generation, alike. *)
Lemma listed_release_run m w :
  exists o w' h,
    exec env (ListedClient.call_release m) w = (o, w')
    /\ grows w w' h
    /\ (exists evs, o = pool_release env evs)
    /\ count hands_over (events h) = 1
    /\ count arms_timer (events h) = 0
    /\ count is_dispatch (events h) = 0
    /\ (forall live, fold_left tick (events h) live =
                     if releaseWasPatched m then cancel (sanityTimeout (state w)) live
                     else live)
    /\ isQueryRunning (state w') =
       (if releaseWasPatched m then false else isQueryRunning (state w))
    /\ sanityTimeout (state w') =
       (if releaseWasPatched m then None else sanityTimeout (state w))
    /\ isWithinTransaction (state w') = isWithinTransaction (state w)
    /\ lastQuery (state w') = lastQuery (state w)
    /\ table (state w') = table (state w).
Proof.
  revert w. induction m as [|old IH]; intros w.
  - cbn [ListedClient.call_release exec]. rewrite exec_settled. do 3 eexists.
    split; [reflexivity|]. split; [apply grows_did|]. split; [eauto|].
    simpl. repeat split; auto.
  - rewrite exec_listed_release_patched.
    destruct (settled_after_log LTrace "Releasing client" (VObj [("id", uniqueId (state w))]) w)
      as (h1 & Hg1 & He1 & Hq1 & Ht1 & Hc1 & Hl1 & Htab1).
    destruct (IH (settle_down (did (Log LTrace "Releasing client"
                                      (VObj [("id", uniqueId (state w))])) w)))
      as (o & w' & h2 & He & Hg2 & Ho & Hn2 & Ha2 & Hd2 & Hk2 & Hq2 & Ht2 & Hc2 & Hl2 & Htab2).
    exists o, w', (h1 ++ h2). split; [exact He|].
    split; [eapply grows_trans; eassumption|]. split; [exact Ho|].
    rewrite events_app, !count_app, Hn2, Ha2, Hd2, He1.
    rewrite Hq2, Ht2, Hc2, Hl2, Hq1, Ht1, Hc1, Hl1, Htab2, Htab1. cbn [releaseWasPatched].
    split; [|split; [|split; [|split; [|split; [|split]]]]]; auto.
    + destruct (sanityTimeout (state w)); reflexivity.
    + destruct (sanityTimeout (state w)); reflexivity.
    + destruct (sanityTimeout (state w)); reflexivity.
    + intros live. rewrite fold_left_app, Hk2, Ht1.
      assert (Hx : cancel None = fun l => l) by reflexivity.
      destruct (releaseWasPatched old); rewrite ?Hx;
        destruct (sanityTimeout (state w)); reflexivity.
    + destruct (releaseWasPatched old); reflexivity.
    + destruct (releaseWasPatched old); auto.
Qed.

End PlainRelease.

(** ** From the client to the handler *)

Section FromHandler.
Context (env : Env).
Implicit Types (w : World Server).

(** A run of a method on the client alone gives the run from the
    handler. *)
Lemma from_handler r (t : Async Client) w o wc' hc :
  exec env t (view r w) = (o, wc') ->
  grows (view r w) wc' hc ->
  exists w' h,
    exec env (on_client r t) w = (o, w')
    /\ grows w w' h
    /\ events h = events hc
    /\ client_at r (state w') = state wc'
    /\ apart r (state w) (state w').
Proof.
  intros He Hg. pose proof (on_client_run env r t w) as Hrun. rewrite He in Hrun.
  destruct (exec_grows env (on_client r t) w) as [h Hh].
  destruct (exec env (on_client r t) w) as [o' w']. cbn [snd] in Hh.
  destruct Hrun as (-> & Hs & Hsince & Ha & _).
  rewrite (grows_since _ _ _ Hh), (grows_since _ _ _ Hg) in Hsince.
  exists w', h. auto.
Qed.

Lemma plain_release_from_handler r w :
  let c := client_at r (state w) in
  exists o w' h,
    exec env (on_client r PlainHooks.this_release) w = (o, w')
    /\ grows w w' h
    /\ (exists evs, o = pool_release env evs)
    /\ count hands_over (events h) = 1
    /\ count arms_timer (events h) = 0
    /\ (forall live, fold_left tick (events h) live =
                     if releaseWasPatched (release c) then cancel (sanityTimeout c) live
                     else live)
    /\ isQueryRunning (client_at r (state w')) =
       (if releaseWasPatched (release c) then false else isQueryRunning c)
    /\ sanityTimeout (client_at r (state w')) =
       (if releaseWasPatched (release c) then None else sanityTimeout c)
    /\ lastQuery (client_at r (state w')) = lastQuery c
    /\ table (client_at r (state w')) = table c
    /\ apart r (state w) (state w').
Proof.
  intros c.
  destruct (plain_release_run env (release c) (view r w))
    as (o & wc' & hc & He & Hg & Ho & Hn & Ha & _ & Hk & Hq & Ht & _ & Hl & Htab).
  destruct (from_handler r PlainHooks.this_release w o wc' hc He Hg)
    as (w' & h & He' & Hg' & Hev & Hs & Hap).
  exists o, w', h. rewrite Hev, Hs. auto 20.
Qed.

Lemma listed_release_from_handler r w :
  let c := client_at r (state w) in
  exists o w' h,
    exec env (on_client r ListedClient.this_release) w = (o, w')
    /\ grows w w' h
    /\ (exists evs, o = pool_release env evs)
    /\ count hands_over (events h) = 1
    /\ count arms_timer (events h) = 0
    /\ (forall live, fold_left tick (events h) live =
                     if releaseWasPatched (release c) then cancel (sanityTimeout c) live
                     else live)
    /\ isQueryRunning (client_at r (state w')) =
       (if releaseWasPatched (release c) then false else isQueryRunning c)
    /\ sanityTimeout (client_at r (state w')) =
       (if releaseWasPatched (release c) then None else sanityTimeout c)
    /\ lastQuery (client_at r (state w')) = lastQuery c
    /\ table (client_at r (state w')) = table c
    /\ apart r (state w) (state w').
Proof.
  intros c.
  destruct (listed_release_run env (release c) (view r w))
    as (o & wc' & hc & He & Hg & Ho & Hn & Ha & _ & Hk & Hq & Ht & _ & Hl & Htab).
  destruct (from_handler r ListedClient.this_release w o wc' hc He Hg)
    as (w' & h & He' & Hg' & Hev & Hs & Hap).
  exists o, w', h. rewrite Hev, Hs. auto 20.
Qed.

End FromHandler.

(** ** The hooks of src/database.js *)

Section PlainHooksRuns.
Context (env : Env).
Implicit Types (w : World Server).

(** A hook on a request that holds a client: the client is released, once,
    and stays on the request. *)
Lemma plain_hook_run name message r w :
  request (state w) !! name = Some (Bound (VRef r)) ->
  exists o w' h,
    exec env (PlainHooks.releaseBound name message) w = (o, w')
    /\ grows w w' h
    /\ count hands_over (events h) = 1
    /\ request (state w') !! name = Some (Bound (VRef r)).
Proof.
  intros Hslot. unfold PlainHooks.releaseBound. cbn [exec]. rewrite Hslot.
  cbn [truthy]. unfold log at 1. cbn [bind exec]. rewrite exec_bind. cbn [release_of].
  set (w0 := did (Log LTrace message VUndefined) w).
  destruct (plain_release_from_handler env r w0)
    as (o & w' & h & He & Hg & _ & Hn & _ & _ & _ & _ & _ & _ & (Hreq & _)).
  rewrite He.
  assert (Hg0 : grows w w' ([Did (Log LTrace message VUndefined)] ++ h)).
  { eapply grows_trans; [apply grows_did|exact Hg]. }
  destruct o as [v|e]; do 3 eexists; (split; [reflexivity|]); (split; [exact Hg0|]);
    rewrite events_app, count_app, Hn, Hreq; auto.
Qed.

(** X4.  The hooks of src/database.js do not take the client off the
    request.  When [onError] has run on a request that holds a client, the
    client is still there, and [onSend], which runs when the error reply is
    sent, releases it again: each of the two hooks hands the connection to
    the pool's release once, whether or not the first release threw. *)
Theorem plain_hooks_release_twice name r w :
  request (state w) !! name = Some (Bound (VRef r)) ->
  let w1 := snd (exec env (PlainHooks.onError name) w) in
  let w2 := snd (exec env (PlainHooks.onSend name) w1) in
  request (state w1) !! name = Some (Bound (VRef r))
  /\ request (state w2) !! name = Some (Bound (VRef r))
  /\ count hands_over (since w w1) = 1
  /\ count hands_over (since w1 w2) = 1.
Proof.
  intros Hslot w1 w2. unfold PlainHooks.onError, PlainHooks.onSend in *.
  destruct (plain_hook_run name "Releasing DB client automatically on error" r w Hslot)
    as (o1 & wa & h1 & He1 & Hg1 & Hn1 & Hs1).
  assert (Hw1 : w1 = wa) by (unfold w1; now rewrite He1). clearbody w1. subst wa.
  destruct (plain_hook_run name "Releasing DB client automatically on send" r w1 Hs1)
    as (o2 & wb & h2 & He2 & Hg2 & Hn2 & Hs2).
  assert (Hw2 : w2 = wb) by (unfold w2; now rewrite He2). clearbody w2. subst wb.
  rewrite (grows_since _ _ _ Hg1), (grows_since _ _ _ Hg2). auto.
Qed.

End PlainHooksRuns.

Lemma plain_hooks_release_twice_witness :
  request (state plain_served) !! "dbClient" = Some (Bound (VRef 0))
  /\ (let w1 := snd (exec healthy (PlainHooks.onError "dbClient") plain_served) in
      let w2 := snd (exec healthy (PlainHooks.onSend "dbClient") w1) in
      count hands_over (since plain_served w1) = 1
      /\ count hands_over (since w1 w2) = 1).
Proof.
  assert (H0 : request (state plain_served) !! "dbClient" = Some (Bound (VRef 0)))
    by (vm_compute; reflexivity).
  split; [exact H0|].
  destruct (plain_hooks_release_twice healthy "dbClient" 0 plain_served H0)
    as (_ & _ & H1 & H2).
  split; assumption.
Defined.


(** ** The callback of the leak timer *)

Section ForcedRelease.
Context (env : Env).
Implicit Types (w : World Server).

(** X5.  The callback of the timer of part_001 releases the client first
    and reports afterwards, and [release] has written [isQueryRunning =
    false] by then: on a client that carries the [release] of
    [patchClient], the callback does exactly what it would do if the
    [stillRunning] of its report were the constant [false], to the
    decorator [apmTrackError] and to the logger alike. *)
Theorem forced_release_reports_no_running_query
    (apmTrackError : option (string -> Value -> Async Server)) r w :
  rolls (client_at r (state w)) = true ->
  exec env (TxHooks.forcedRelease apmTrackError r) w =
  exec env (do on_client r Tx.this_release;
            do Get (fun this =>
                 let client := client_at r this in
                 TxHooks.report apmTrackError (lastQuery_of client) (VBool false)
                   (uniqueId client));
            Ret VUndefined) w.
Proof.
  intros Hrolls. destruct (rolls_reaches _ Hrolls) as (Hreach & Hpatched).
  unfold TxHooks.forcedRelease. rewrite !exec_bind.
  destruct (tx_release_from_handler env r w Hreach)
    as (o & w1 & h & He & _ & _ & _ & _ & _ & Hyes & _).
  rewrite He. destruct o as [v|e]; [|reflexivity].
  destruct (Hyes Hpatched) as (Hq & _). rewrite !exec_bind. cbn [exec]. cbv zeta.
  rewrite Hq. reflexivity.
Qed.


End ForcedRelease.

Lemma forced_release_reports_no_running_query_witness :
  let w := store (update 0 (set_isQueryRunning true) (state acquired)) acquired in
  isQueryRunning (client_at 0 (state w)) = true
  /\ rolls (client_at 0 (state w)) = true
  /\ exec healthy (TxHooks.forcedRelease None 0) w =
     exec healthy (do on_client 0 Tx.this_release;
                   do Get (fun this =>
                        let client := client_at 0 this in
                        TxHooks.report None (lastQuery_of client) (VBool false)
                          (uniqueId client));
                   Ret VUndefined) w.
Proof.
  intros w. split; [vm_compute; reflexivity|].
  assert (H : rolls (client_at 0 (state w)) = true) by (vm_compute; reflexivity).
  split; [exact H|].
  exact (forced_release_reports_no_running_query healthy None 0 w H).
Defined.



(** ** Acquiring a client *)

Ltac grow :=
  repeat first [ apply grows_refl
               | eapply grows_trans; [|first [apply grows_store | apply grows_did]] ].

Lemma install_fields name c :
  uniqueId (install name c) = uniqueId c
  /\ lastQuery (install name c) = lastQuery c
  /\ isQueryRunning (install name c) = isQueryRunning c
  /\ isWithinTransaction (install name c) = isWithinTransaction c
  /\ sanityTimeout (install name c) = sanityTimeout c.
Proof. unfold install. destruct (decide (name ∈ methods c)); repeat split. Qed.

(** [patchClient] of part_001 works on the methods; the fields of the
    client that hold its state are left as they are. *)
Lemma patchClient_fields c :
  uniqueId (Tx.patchClient c) = uniqueId c
  /\ lastQuery (Tx.patchClient c) = lastQuery c
  /\ isQueryRunning (Tx.patchClient c) = isQueryRunning c
  /\ isWithinTransaction (Tx.patchClient c) = isWithinTransaction c
  /\ sanityTimeout (Tx.patchClient c) = sanityTimeout c.
Proof.
  unfold Tx.patchClient.
  repeat match goal with
         | |- context [install ?n ?x] =>
             let H := fresh in
             pose proof (install_fields n x) as H; destruct H as (-> & -> & -> & -> & ->)
         end.
  destruct (namedParameters c); cbn [query patchNamedParameters set_query set_namedParameters];
    repeat match goal with
           | |- context [if ?b then _ else _] => destruct b
           end; repeat split.
Qed.

Lemma async_patchClient_fields c :
  uniqueId (AsyncTx.patchClient c) = uniqueId c
  /\ lastQuery (AsyncTx.patchClient c) = lastQuery c
  /\ isQueryRunning (AsyncTx.patchClient c) = isQueryRunning c
  /\ isWithinTransaction (AsyncTx.patchClient c) = isWithinTransaction c
  /\ sanityTimeout (AsyncTx.patchClient c) = sanityTimeout c.
Proof.
  unfold AsyncTx.patchClient.
  repeat match goal with
         | |- context [install ?n ?x] =>
             let H := fresh in
             pose proof (install_fields n x) as H; destruct H as (-> & -> & -> & -> & ->)
         end.
  destruct (namedParameters c); cbn [query patchNamedParameters set_query set_namedParameters];
    repeat match goal with
           | |- context [if ?b then _ else _] => destruct b
           end; repeat split.
Qed.

Lemma client_at_counter r n (s : Server) : client_at r (set_clientIdCounter n s) = client_at r s.
Proof. reflexivity. Qed.

Lemma client_at_assign r name v (s : Server) : client_at r (assign name v s) = client_at r s.
Proof. reflexivity. Qed.

Section Acquire.
Context (env : Env).
Implicit Types (w : World Server).

Lemma exec_connect k w :
  exec env (connect k) w =
  let w1 := did (Dispatch PoolConnect) w in
  let o := driver env (past w1) PoolConnect in
  let w2 := did (Settle PoolConnect o) w1 in
  match o with
  | Normal (VRef r) => exec env (k r) w2
  | Normal _ => (Raised (VError "TypeError: the pool returned no client"), w2)
  | Raised e => (Raised e, w2)
  end.
Proof.
  unfold connect. cbn [exec]. cbv zeta.
  destruct (driver env (past (did (Dispatch PoolConnect) w)) PoolConnect) as [[]|]; reflexivity.
Qed.

(** The end of every [getClient]: a timer that is still on the client is
    cancelled, and a new one is armed and kept on the client. *)
Lemma arm_run ms r w :
  let c := client_at r (state w) in
  exists w' h hN,
    exec env
      (do Get (fun this =>
            match sanityTimeout (client_at r this) with
            | Some h =>
                do log LError "Client is busy and still got returned from pool" (id_of r this);
                do Emit (ClearTimeout h) (Ret VUndefined);
                modify (update r (set_sanityTimeout None))
            | None => Ret VUndefined
            end);
       do Get (fun this =>
            if isQueryRunning (client_at r this) then
              log LError "Client is running query and still got returned from pool"
                (id_of r this)
            else Ret VUndefined);
       NewTimer ms (fun h =>
         do modify (update r (set_sanityTimeout (Some h)));
         Ret (VRef r))) w = (Normal (VRef r), w')
    /\ grows w w' h
    /\ client_at r (state w') = set_sanityTimeout (Some hN) c
    /\ clientIdCounter (state w') = clientIdCounter (state w)
    /\ request (state w') = request (state w)
    /\ (forall r', r' <> r -> client_at r' (state w') = client_at r' (state w))
    /\ (forall live, fold_left tick (events h) live = hN :: cancel (sanityTimeout c) live)
    /\ length (history w) <= hN < length (history w')
    /\ count hands_over (events h) = 0
    /\ count arms_timer (events h) = 1.
Proof.
  intros c. cbn [bind exec]. fold c.
  destruct (sanityTimeout c) as [t|] eqn:Hst; unfold log; cbn [bind exec modify state store did];
    rewrite ?client_at_update; fold c; cbn [isQueryRunning set_sanityTimeout];
    destruct (isQueryRunning c) eqn:Hrun; cbn [bind exec modify state store did];
    (eexists; eexists; eexists; split; [reflexivity|]);
    (split; [grow|]);
    (split; [cbn [state store]; rewrite !client_at_update; fold c; reflexivity|]);
    (split; [reflexivity|]); (split; [reflexivity|]);
    (split; [intros r' Hne; cbn [state store];
             rewrite !client_at_update_ne by exact Hne; reflexivity|]);
    (split; [intros live; reflexivity|]);
    (split; [cbn [history store did]; rewrite !length_app; cbn [length]; lia|]);
    split; reflexivity.
Qed.

(** [getClientUnsafe] when the pool hands out the client [r]: the client
    as it is handed on, and what else has changed. *)
Lemma acquire_run patch ms w r :
  (forall c, sanityTimeout (patch c) = sanityTimeout c) ->
  driver env (past w ++ [Dispatch PoolConnect]) PoolConnect = Normal (VRef r) ->
  let c0 := client_at r (state w) in
  let numbered :=
    if truthy (uniqueId c0) then c0
    else set_uniqueId (VNum (clientIdCounter (state w))) c0 in
  exists w' h hN,
    exec env (acquire patch ms) w = (Normal (VRef r), w')
    /\ grows w w' h
    /\ client_at r (state w') = set_sanityTimeout (Some hN) (patch numbered)
    /\ clientIdCounter (state w') =
       (if truthy (uniqueId c0) then clientIdCounter (state w)
        else clientIdCounter (state w) + 1)%Z
    /\ request (state w') = request (state w)
    /\ (forall r', r' <> r -> client_at r' (state w') = client_at r' (state w))
    /\ (forall live, fold_left tick (events h) live = hN :: cancel (sanityTimeout c0) live)
    /\ length (history w) <= hN < length (history w')
    /\ count hands_over (events h) = 0
    /\ count arms_timer (events h) = 1.
Proof.
  intros Hpatch Hd c0 numbered. unfold acquire. rewrite exec_connect. cbv zeta.
  rewrite past_did, Hd.
  set (w2 := did (Settle PoolConnect (Normal (VRef r))) (did (Dispatch PoolConnect) w)).
  assert (Hg2 : grows w w2 [Did (Dispatch PoolConnect);
                            Did (Settle PoolConnect (Normal (VRef r)))]).
  { unfold grows, w2. simpl. rewrite <- app_assoc. reflexivity. }
  rewrite exec_bind.
  set (w3 := if truthy (uniqueId c0) then w2
             else store (set_clientIdCounter (clientIdCounter (state w) + 1)
                           (update r (set_uniqueId (VNum (clientIdCounter (state w))))
                              (state w))) w2).
  assert (H3 : exec env (assignUniqueId r) w2 = (Normal VUndefined, w3)).
  { unfold assignUniqueId, w3. cbn [exec]. change (client_at r (state w2)) with c0.
    destruct (truthy (uniqueId c0)); reflexivity. }
  rewrite H3. rewrite exec_bind. cbn [exec]. unfold log at 1. cbn [exec].
  rewrite exec_bind, exec_modify.
  change (state (did (Log LTrace "Acquired client" (id_of r (state w3))) w3))
    with (state w3).
  set (w4 := store (update r patch (state w3))
               (did (Log LTrace "Acquired client" (id_of r (state w3))) w3)).
  assert (Hc3 : client_at r (state w3) = numbered
                /\ clientIdCounter (state w3) =
                   (if truthy (uniqueId c0) then clientIdCounter (state w)
                    else clientIdCounter (state w) + 1)%Z
                /\ request (state w3) = request (state w)
                /\ (forall r', r' <> r -> client_at r' (state w3) = client_at r' (state w))
                /\ exists h3, grows w2 w3 h3 /\ events h3 = []).
  { unfold w3, numbered. destruct (truthy (uniqueId c0)).
    - repeat split; auto. exists []. split; [apply grows_refl|reflexivity].
    - cbn [state store]. rewrite client_at_counter, client_at_update.
      repeat split; auto.
      + intros r' Hne. now rewrite client_at_counter, client_at_update_ne.
      + eexists. split; [apply grows_store|reflexivity]. }
  destruct Hc3 as (Hc3 & Hn3 & Hr3 & Ho3 & h3 & Hg3 & He3).
  assert (Hg4 : grows w3 w4 [Did (Log LTrace "Acquired client" (id_of r (state w3)));
                             Stored (update r patch (state w3))]).
  { unfold grows, w4. simpl. rewrite <- app_assoc. reflexivity. }
  destruct (arm_run ms r w4)
    as (w' & h & hN & He & Hg & Hc & Hn & Hr & Ho & Hk & Hb & Hh & Ha).
  rewrite He.
  assert (Hc4 : client_at r (state w4) = patch numbered).
  { unfold w4. cbn [state store]. now rewrite client_at_update, Hc3. }
  pose proof (Hpatch numbered) as Ht.
  assert (Hnt : sanityTimeout numbered = sanityTimeout c0).
  { unfold numbered. destruct (truthy (uniqueId c0)); reflexivity. }
  rewrite Hc4, Ht, Hnt in Hk.
  pose proof (grows_trans _ _ _ _ _ (grows_trans _ _ _ _ _ (grows_trans _ _ _ _ _ Hg2 Hg3) Hg4) Hg)
    as Hall.
  exists w'. eexists. exists hN. split; [reflexivity|]. split; [exact Hall|].
  split; [now rewrite Hc, Hc4|]. split; [now rewrite Hn|]. split; [now rewrite Hr|].
  split; [intros r' Hne; rewrite (Ho r' Hne); unfold w4; cbn [state store];
          rewrite (client_at_update_ne r r' _ _ Hne); now apply Ho3|].
  rewrite !events_app, He3, !count_app, Hh, Ha.
  split; [intros live; rewrite !fold_left_app; cbn [events fold_left tick app]; apply Hk|].
  split; [|split; reflexivity].
  destruct Hb as (Hb1 & Hb2). split; [|exact Hb2].
  assert (Hl : length (history w) <= length (history w4)).
  { rewrite (grows_trans _ _ _ _ _ (grows_trans _ _ _ _ _ Hg2 Hg3) Hg4), length_app. lia. }
  lia.
Qed.


Lemma getClientUnsafe_is_acquire : TxHandler.getClientUnsafe = acquire Tx.patchClient 25000.
Proof. reflexivity. Qed.

Lemma async_getClientUnsafe_is_acquire :
  AsyncTxHooks.getClientUnsafe = acquire AsyncTx.patchClient 25000.
Proof. reflexivity. Qed.

Lemma acquire_answer patch ms w r :
  (forall c, sanityTimeout (patch c) = sanityTimeout c) ->
  fst (exec env (acquire patch ms) w) = Normal (VRef r) ->
  driver env (past w ++ [Dispatch PoolConnect]) PoolConnect = Normal (VRef r).
Proof.
  intros Hpatch.
  destruct (driver env (past w ++ [Dispatch PoolConnect]) PoolConnect) as [v|e] eqn:Hd.
  - destruct v as [| | | | | |r'|];
      try (unfold acquire; rewrite exec_connect; cbv zeta;
           rewrite past_did, Hd; discriminate).
    destruct (acquire_run patch ms w r' Hpatch Hd) as (w' & h & hN & He & _).
    rewrite He. cbn [fst]. congruence.
  - unfold acquire. rewrite exec_connect. cbv zeta.
    rewrite past_did, Hd. discriminate.
Qed.

(** When the pool hands out no client, [getClientUnsafe] leaves the
    handler as it is. *)
Lemma acquire_refused patch ms w :
  (forall r, driver env (past w ++ [Dispatch PoolConnect]) PoolConnect <> Normal (VRef r)) ->
  exists o e,
    exec env (acquire patch ms) w =
    (Raised e, did (Settle PoolConnect o) (did (Dispatch PoolConnect) w))
    /\ o = driver env (past w ++ [Dispatch PoolConnect]) PoolConnect.
Proof.
  intros Hno. unfold acquire. rewrite exec_connect. cbv zeta.
  rewrite past_did.
  destruct (driver env (past w ++ [Dispatch PoolConnect]) PoolConnect) as [v|e] eqn:Hd.
  - destruct v as [| | | | | |r'|]; try (do 2 eexists; split; reflexivity).
    exfalso. exact (Hno r' eq_refl).
  - do 2 eexists; split; reflexivity.
Qed.

End Acquire.

(** ** The timers that are armed belong to the clients *)

Lemma cancel_In t live h :
  In h (cancel t live) <-> In h live /\ t <> Some h.
Proof.
  destruct t as [t|]; cbn [cancel].
  - rewrite List.filter_In. rewrite negb_true_iff, Nat.eqb_neq.
    split; intros (H1 & H2); (split; [exact H1|]); congruence.
  - split; [intros H; split; [exact H|discriminate]|tauto].
Qed.

Lemma owned_ext live (f g : nat -> option nat) n :
  (forall r, f r = g r) -> owned live f n -> owned live g n.
Proof.
  intros Hfg (H1 & H2 & H3). split; [|split].
  - intros h. rewrite H1. split; intros (r & Hr); exists r; congruence.
  - intros r r' h. rewrite <- !Hfg. apply H2.
  - exact H3.
Qed.

Lemma owned_mono live f n n' : n <= n' -> owned live f n -> owned live f n'.
Proof.
  intros Hn (H1 & H2 & H3). split; [exact H1|]. split; [exact H2|].
  intros h Hh. specialize (H3 h Hh). lia.
Qed.

Lemma at_client_same {A} r (x : A) f : at_client r x f r = x.
Proof. unfold at_client. now rewrite Nat.eqb_refl. Qed.

Lemma at_client_other {A} r r' (x : A) f : r' <> r -> at_client r x f r' = f r'.
Proof. unfold at_client. intros H. apply Nat.eqb_neq in H. now rewrite H. Qed.

(** [clearTimeout] of the timer of a client that forgets it. *)
Lemma owned_cancel live f n r :
  owned live f n -> owned (cancel (f r) live) (at_client r None f) n.
Proof.
  intros (H1 & H2 & H3). split; [|split].
  - intros h. rewrite cancel_In, H1. split.
    + intros ((r' & Hr') & Hne). exists r'.
      rewrite at_client_other; [exact Hr'|]. intros ->. congruence.
    + intros (r' & Hr'). destruct (Nat.eq_dec r' r) as [->|Hne].
      * rewrite at_client_same in Hr'. discriminate.
      * rewrite at_client_other in Hr' by exact Hne. split; [eauto|].
        intros Hr. apply Hne. exact (H2 _ _ _ Hr' Hr).
  - intros r1 r2 h. destruct (Nat.eq_dec r1 r) as [->|Hn1];
      [rewrite at_client_same; discriminate|].
    destruct (Nat.eq_dec r2 r) as [->|Hn2]; [rewrite (at_client_same r); discriminate|].
    rewrite !at_client_other by assumption. apply H2.
  - intros h Hh. apply cancel_In in Hh. apply H3, Hh.
Qed.

(** [setTimeout] by a client that has no timer. *)
Lemma owned_arm live f n n' r hN :
  owned live f n -> f r = None -> n <= hN < n' ->
  owned (hN :: live) (at_client r (Some hN) f) n'.
Proof.
  intros (H1 & H2 & H3) Hr Hb.
  assert (Hfresh : forall r', f r' <> Some hN).
  { intros r' Hr'. assert (Hin : In hN live) by (apply H1; eauto).
    specialize (H3 _ Hin). lia. }
  split; [|split].
  - intros h. cbn [In]. rewrite H1. split.
    + intros [<-|(r' & Hr')].
      * exists r. apply at_client_same.
      * exists r'. rewrite at_client_other; [exact Hr'|]. intros ->. congruence.
    + intros (r' & Hr'). destruct (Nat.eq_dec r' r) as [->|Hne].
      * rewrite at_client_same in Hr'. left. congruence.
      * rewrite at_client_other in Hr' by exact Hne. eauto.
  - intros r1 r2 h. destruct (Nat.eq_dec r1 r) as [->|Hn1];
      destruct (Nat.eq_dec r2 r) as [->|Hn2];
      rewrite ?at_client_same, ?at_client_other by assumption; auto.
    + intros [= <-] Hx. now apply Hfresh in Hx.
    + intros Hx [= <-]. now apply Hfresh in Hx.
    + apply H2.
  - intros h [<-|Hh]; [lia|]. specialize (H3 h Hh). lia.
Qed.

Lemma ref_or_not (v : Value) : (exists r, v = VRef r) \/ (forall r, v <> VRef r).
Proof. destruct v; try (right; discriminate). left. eauto. Qed.


Lemma idle_timers_owned : timers_owned (start idle).
Proof.
  unfold timers_owned, owned. cbn [start state history past events armed fold_left length].
  repeat split.
  - intros [].
  - intros (r & Hr). discriminate Hr.
  - intros r r' h Hr. discriminate Hr.
  - intros h [].
Qed.


Section TimersOwned.
Context (env : Env).
Implicit Types (w : World Server).

Lemma grows_length {S} (w w' : World S) h : grows w w' h -> length (history w) <= length (history w').
Proof. unfold grows. intros ->. rewrite length_app. lia. Qed.

Lemma armed_grows w w' h :
  grows w w' h -> armed (past w') = fold_left tick (events h) (armed (past w)).
Proof. intros Hg. rewrite (grows_past _ _ _ Hg). apply armed_app. Qed.

(** A step that touches no timer. *)
Lemma timers_owned_quiet w w' h :
  grows w w' h ->
  (forall live, fold_left tick (events h) live = live) ->
  (forall r, sanityTimeout (client_at r (state w')) = sanityTimeout (client_at r (state w))) ->
  timers_owned w -> timers_owned w'.
Proof.
  intros Hg Hk Hs H. unfold timers_owned. rewrite (armed_grows _ _ _ Hg), Hk.
  eapply owned_ext; [intros r; symmetry; apply Hs|].
  eapply owned_mono; [apply (grows_length _ _ _ Hg)|exact H].
Qed.

(** A step in which the client [r] cancels its timer and forgets it. *)
Lemma timers_owned_cancel r w w' h :
  grows w w' h ->
  (forall live, fold_left tick (events h) live =
                cancel (sanityTimeout (client_at r (state w))) live) ->
  sanityTimeout (client_at r (state w')) = None ->
  (forall r', r' <> r -> client_at r' (state w') = client_at r' (state w)) ->
  timers_owned w -> timers_owned w'.
Proof.
  intros Hg Hk Hs Ho H. unfold timers_owned. rewrite (armed_grows _ _ _ Hg), Hk.
  eapply owned_ext; [|eapply owned_mono; [apply (grows_length _ _ _ Hg)|]].
  2: exact (owned_cancel _ _ _ r H).
  intros r'. cbv beta. destruct (Nat.eq_dec r' r) as [->|Hne].
  - now rewrite at_client_same, Hs.
  - now rewrite at_client_other, Ho.
Qed.

(** A step in which the client [r] cancels its timer, if it has one, and
    arms a new one. *)
Lemma timers_owned_arm r hN w w' h :
  grows w w' h ->
  (forall live, fold_left tick (events h) live =
                hN :: cancel (sanityTimeout (client_at r (state w))) live) ->
  sanityTimeout (client_at r (state w')) = Some hN ->
  length (history w) <= hN < length (history w') ->
  (forall r', r' <> r -> client_at r' (state w') = client_at r' (state w)) ->
  timers_owned w -> timers_owned w'.
Proof.
  intros Hg Hk Hs Hb Ho H. unfold timers_owned. rewrite (armed_grows _ _ _ Hg), Hk.
  eapply owned_ext;
    [|apply (owned_arm _ _ _ _ r hN (owned_cancel _ _ _ r H)); [apply at_client_same|exact Hb]].
  intros r'. cbv beta. destruct (Nat.eq_dec r' r) as [->|Hne].
  - now rewrite at_client_same, Hs.
  - now rewrite !at_client_other, Ho by exact Hne.
Qed.

Lemma acquire_keeps_timers patch ms w :
  (forall c, sanityTimeout (patch c) = sanityTimeout c) ->
  timers_owned w -> timers_owned (snd (exec env (acquire patch ms) w)).
Proof.
  intros Hpatch H.
  destruct (driver env (past w ++ [Dispatch PoolConnect]) PoolConnect) as [v|e] eqn:Hd.
  2: { destruct (acquire_refused env patch ms w) as (o & e' & He & _);
         [intros r; congruence|].
       rewrite He. cbn [snd].
       apply (timers_owned_quiet w _ [Did (Dispatch PoolConnect); Did (Settle PoolConnect o)]);
         auto. unfold grows. simpl. now rewrite <- app_assoc. }
  destruct (ref_or_not v) as [[r ->]|Hno].
  - destruct (acquire_run env patch ms w r Hpatch Hd)
      as (w' & h & hN & He & Hg & Hc & _ & _ & Ho & Hk & Hb & _).
    rewrite He. cbn [snd].
    apply (timers_owned_arm r hN w w' h Hg Hk); auto.
    rewrite Hc. reflexivity.
  - destruct (acquire_refused env patch ms w) as (o & e' & He & _).
    { intros r Hr. rewrite Hd in Hr. injection Hr as ->. exact (Hno r eq_refl). }
    rewrite He. cbn [snd].
    apply (timers_owned_quiet w _ [Did (Dispatch PoolConnect); Did (Settle PoolConnect o)]);
      auto. unfold grows. simpl. now rewrite <- app_assoc.
Qed.

(** X7.  [getClientUnsafe] of part_001, and the one of part_000's [async]
    generation, keep the timers and the clients in agreement, whatever the
    pool answers: when every armed timer is the [sanityTimeout] of exactly
    one client before the call, it is so after it.  A timer that the
    client still carried is cancelled before the new one is armed, so no
    timer is left running without a client that can cancel it. *)
Theorem getClientUnsafe_keeps_timers w :
  timers_owned w ->
  timers_owned (snd (exec env TxHandler.getClientUnsafe w))
  /\ timers_owned (snd (exec env AsyncTxHooks.getClientUnsafe w)).
Proof.
  intros H. split.
  - rewrite getClientUnsafe_is_acquire. apply acquire_keeps_timers; [|exact H].
    intros c. apply patchClient_fields.
  - rewrite async_getClientUnsafe_is_acquire. apply acquire_keeps_timers; [|exact H].
    intros c. apply async_patchClient_fields.
Qed.

End TimersOwned.

Lemma acquired_timers_owned : timers_owned acquired.
Proof.
  unfold acquired. rewrite getClientUnsafe_is_acquire.
  apply acquire_keeps_timers; [|exact idle_timers_owned].
  intros c. apply patchClient_fields.
Qed.



Lemma getClientUnsafe_keeps_timers_witness :
  timers_owned (start idle) /\ timers_owned acquired.
Proof.
  split; [exact idle_timers_owned|].
  exact (proj1 (getClientUnsafe_keeps_timers healthy (start idle) idle_timers_owned)).
Defined.

Section TimersOwnedRelease.
Context (env : Env).
Implicit Types (w : World Server).

(** [release()] of part_001, called by the handler on any client. *)
Lemma tx_release_keeps_timers r w :
  timers_owned w -> timers_owned (snd (exec env (on_client r Tx.this_release) w)).
Proof.
  intros H. destruct (reaches_pool (client_at r (state w))) eqn:Hreach.
  - destruct (tx_release_from_handler env r w Hreach)
      as (o & w' & h & He & Hg & _ & _ & _ & Hk & Hyes & Hno & _ & Hap).
    rewrite He. cbn [snd].
    destruct (releaseWasPatched (release (client_at r (state w)))) eqn:Hp.
    + destruct (Hyes eq_refl) as (_ & Ht & _).
      apply (timers_owned_cancel r w w' h Hg Hk Ht); [|exact H].
      intros r' Hne. exact (apart_client_at _ _ _ _ Hap Hne).
    + apply (timers_owned_quiet w w' h Hg Hk); [|exact H].
      intros r'. destruct (Nat.eq_dec r' r) as [->|Hne]; [exact (Hno eq_refl)|].
      now rewrite (apart_client_at _ _ _ _ Hap Hne).
  - unfold reaches_pool in Hreach.
    destruct (release (client_at r (state w))) as [|old] eqn:Hrel; [discriminate|].
    apply bool_decide_eq_false_1 in Hreach.
    assert (He : exec env Tx.this_release (view r w) =
                 (Raised (not_a_function "rollbackTransactionIfNotCommitted"),
                  did (Log LTrace "Releasing client"
                         (VObj [("id", uniqueId (state (view r w)))])) (view r w))).
    { unfold Tx.this_release. cbn [exec].
      change (state (view r w)) with (client_at r (state w)). rewrite Hrel.
      apply exec_release_missing. exact Hreach. }
    destruct (from_handler env r Tx.this_release w _ _ _ He (grows_did _ _))
      as (w' & h & He' & Hg & Hev & Hs & Hap).
    rewrite He'. cbn [snd].
    apply (timers_owned_quiet w w' h Hg); [intros live; now rewrite Hev| |exact H].
    intros r'. destruct (Nat.eq_dec r' r) as [->|Hne]; [now rewrite Hs|].
    now rewrite (apart_client_at _ _ _ _ Hap Hne).
Qed.

Lemma tx_forEach_keeps_timers vs : forall w,
  timers_owned w ->
  timers_owned (snd (exec env (forEach vs (release_of Tx.this_release)) w)).
Proof.
  induction vs as [|v vs IH]; intros w H; [exact H|].
  rewrite exec_forEach_cons.
  assert (H1 : timers_owned (snd (exec env (release_of Tx.this_release v) w))).
  { destruct v; try exact H. cbn [release_of]. now apply tx_release_keeps_timers. }
  destruct (exec env (release_of Tx.this_release v) w) as [[x|e] w1]; cbn [snd] in *.
  - now apply IH.
  - exact H1.
Qed.

(** X8.  The hook [onSend] of part_001, the work that [requireDbClient]
    registers for the cleanup plugin and the callback of the leak timer
    (here without the decorator [apmTrackError]) keep the timers and the
    clients in agreement, whatever the clients and whatever the pool's
    release does: no release leaves an armed timer behind that no client
    holds. *)
Theorem releases_keep_timers w :
  timers_owned w ->
  timers_owned (snd (exec env TxHooks.onSend w))
  /\ (forall client, timers_owned (snd (exec env (TxHooks.cleanupWork client) w)))
  /\ (forall r, timers_owned (snd (exec env (TxHooks.forcedRelease None r) w))).
Proof.
  intros H. split; [|split].
  - unfold TxHooks.onSend. rewrite exec_releaseListed.
    assert (Hstore : forall w1, timers_owned w1 ->
              timers_owned (store (assign "dbClients" (ClientList []) (state w1)) w1)).
    { intros w1 H1. apply (timers_owned_quiet w1 _ _ (grows_store _ w1)); auto. }
    assert (Hlog : forall lvl msg data, timers_owned (did (Log lvl msg data) w)).
    { intros. apply (timers_owned_quiet w _ _ (grows_did _ w)); auto. }
    destruct (request (state w) !! "dbClients") as [[v|clients]|]; [| |now apply Hstore].
    + destruct (truthy v && greater_than_zero (length_of v)); [apply Hlog|now apply Hstore].
    + destruct (0 <? Z.of_nat (length clients))%Z; [|now apply Hstore].
      match goal with |- context [exec env ?t ?w0] =>
        pose proof (tx_forEach_keeps_timers clients w0 (Hlog _ _ _)) as H1;
        destruct (exec env t w0) as [[x|e] w1] end; cbn [snd] in *.
      * now apply Hstore.
      * exact H1.
  - intros client. unfold TxHooks.cleanupWork. rewrite exec_bind.
    assert (H1 : timers_owned (snd (exec env (release_of Tx.this_release client) w))).
    { destruct client; try exact H. cbn [release_of]. now apply tx_release_keeps_timers. }
    destruct (exec env (release_of Tx.this_release client) w) as [[x|e] w1]; exact H1.
  - intros r. unfold TxHooks.forcedRelease. rewrite exec_bind.
    pose proof (tx_release_keeps_timers r w H) as H1.
    destruct (exec env (on_client r Tx.this_release) w) as [[x|e] w1]; cbn [snd] in *;
      [|exact H1].
    rewrite exec_bind. cbn [exec TxHooks.report]. cbv zeta. unfold log. cbn [exec snd].
    apply (timers_owned_quiet w1 _ _ (grows_did _ w1)); auto.
Qed.

End TimersOwnedRelease.

Lemma releases_keep_timers_witness :
  timers_owned acquired
  /\ timers_owned (snd (exec healthy TxHooks.onSend acquired))
  /\ timers_owned (snd (exec healthy (TxHooks.cleanupWork (VRef 0)) acquired))
  /\ timers_owned (snd (exec healthy (TxHooks.forcedRelease None 0) acquired)).
Proof.
  split; [exact acquired_timers_owned|].
  destruct (releases_keep_timers healthy acquired acquired_timers_owned) as (H1 & H2 & H3).
  split; [exact H1|]. split; [apply H2 | apply H3].
Defined.


(** ** The numbers of the clients *)

Section UniqueIds.
Context (env : Env).
Implicit Types (w : World Server).



(** X10.  The client that [getClientUnsafe] of part_001 hands out carries
    the whole patch, whatever it carried before: the support of named
    parameters, the [query] and the [release] of [patchClient], and the
    three transaction methods; the [query] of a client that was patched
    before is the one it had, with no second closure around it, and a
    [query] that was not patched has got one closure; and the timer that
    was armed for it is on the client. *)
Theorem getClientUnsafe_hands_out_patched w r :
  fst (exec env TxHandler.getClientUnsafe w) = Normal (VRef r) ->
  let c0 := client_at r (state w) in
  let c := client_at r (state (snd (exec env TxHandler.getClientUnsafe w))) in
  namedParameters c = true
  /\ queryWasPatched (query c) = true
  /\ (namedParameters c0 = true -> queryWasPatched (query c0) = true -> query c = query c0)
  /\ (queryWasPatched (query c0) = false -> layers (query c) = 1)
  /\ rolls c = true
  /\ "beginTransaction" ∈ methods c
  /\ "commitTransaction" ∈ methods c
  /\ (exists h, sanityTimeout c = Some h)
  /\ isWithinTransaction c = isWithinTransaction c0
  /\ lastQuery c = lastQuery c0.
Proof.
  intros Hret c0 c. subst c. rewrite getClientUnsafe_is_acquire in *.
  apply acquire_answer in Hret; [|intros x; apply patchClient_fields].
  destruct (acquire_run env Tx.patchClient 25000 w r
              (fun x => proj2 (proj2 (proj2 (proj2 (patchClient_fields x))))) Hret)
    as (w' & h & hN & He & _ & Hc & _).
  rewrite He. cbn [snd]. rewrite Hc. fold c0.
  set (numbered := if truthy (uniqueId c0) then c0
                   else set_uniqueId (VNum (clientIdCounter (state w))) c0).
  destruct (patchClient_complete numbered) as (Hn & Hq & Hr & Hb & Hcm & Hrb).
  destruct (patchClient_fields numbered) as (_ & Hl & _ & Hin & _).
  assert (Hnum : query numbered = query c0 /\ isWithinTransaction numbered = isWithinTransaction c0
                 /\ lastQuery numbered = lastQuery c0
                 /\ namedParameters numbered = namedParameters c0).
  { unfold numbered. destruct (truthy (uniqueId c0)); auto. }
  destruct Hnum as (Hnq & Hni & Hnl & Hnn).
  cbn [namedParameters query methods sanityTimeout isWithinTransaction lastQuery
       set_sanityTimeout].
  split; [exact Hn|]. split; [exact Hq|].
  split; [|split; [|split; [|split; [exact Hb|split;
    [exact Hcm|split; [eauto|split; [now rewrite Hin|now rewrite Hl]]]]]]].
  - rewrite <- Hnq, <- Hnn. intros Hnamed Hpatched.
    unfold Tx.patchClient. rewrite !install_query, Hnamed, Hpatched.
    destruct (releaseWasPatched (release numbered)); reflexivity.
  - rewrite <- Hnq. intros Hraw.
    unfold Tx.patchClient. rewrite !install_query.
    destruct (namedParameters numbered);
      cbn [query patchNamedParameters set_query set_namedParameters queryWasPatched];
      rewrite ?Hraw;
      repeat match goal with
             | |- context [releaseWasPatched ?x] => destruct (releaseWasPatched x)
             end;
      cbn [query set_query set_release layers]; try reflexivity;
      destruct (query numbered); try discriminate Hraw; reflexivity.
  - rewrite (rolls_table _ (Tx.patchClient numbered)) by reflexivity.
    apply patchClient_rolls.
Qed.

(** X11.  When the pool refuses the connection, the hooks [requireDbClient]
    of the four generations throw the pool's error and leave the handler
    as it was: nothing is bound on the request, no client is patched or
    numbered, and no timer is armed. *)
Theorem requireDbClient_fails_with_the_pool name addCleanupWork e w :
  (forall evs, driver env evs PoolConnect = Raised e) ->
  (let (o, w') := exec env (Plain.requireDbClient name) w in
   o = Raised e /\ state w' = state w /\ count arms_timer (since w w') = 0)
  /\ (let (o, w') := exec env (Listed.requireDbClient name) w in
      o = Raised e /\ state w' = state w /\ count arms_timer (since w w') = 0)
  /\ (let (o, w') := exec env (TxHandler.requireDbClient addCleanupWork name) w in
      o = Raised e /\ state w' = state w /\ count arms_timer (since w w') = 0)
  /\ (let (o, w') := exec env (AsyncTxHooks.requireDbClient addCleanupWork name) w in
      o = Raised e /\ state w' = state w /\ count arms_timer (since w w') = 0).
Proof.
  intros Hpool. split; [|split; [|split]].
  - unfold Plain.requireDbClient, Plain.getClient. rewrite !exec_bind. unfold log at 1.
    cbn [exec]. rewrite exec_connect. cbv zeta. rewrite Hpool.
    split; [reflexivity|]. split; [reflexivity|].
    assert (Hg : grows w (did (Settle PoolConnect (Raised e))
                            (did (Dispatch PoolConnect)
                               (did (Log LTrace "Acquiring client" VUndefined) w))) _)
      by grow.
    now rewrite (grows_since _ _ _ Hg).
  - unfold Listed.requireDbClient, Listed.getClient. rewrite exec_bind, exec_connect.
    cbv zeta. rewrite Hpool. split; [reflexivity|]. split; [reflexivity|].
    assert (Hg : grows w (did (Settle PoolConnect (Raised e)) (did (Dispatch PoolConnect) w)) _)
      by grow.
    now rewrite (grows_since _ _ _ Hg).
  - unfold TxHandler.requireDbClient, TxHandler.getClientUnsafe.
    rewrite exec_bind, exec_connect.
    cbv zeta. rewrite Hpool. split; [reflexivity|]. split; [reflexivity|].
    assert (Hg : grows w (did (Settle PoolConnect (Raised e)) (did (Dispatch PoolConnect) w)) _)
      by grow.
    now rewrite (grows_since _ _ _ Hg).
  - unfold AsyncTxHooks.requireDbClient, AsyncTxHooks.getClientUnsafe.
    rewrite exec_bind, exec_connect.
    cbv zeta. rewrite Hpool. split; [reflexivity|]. split; [reflexivity|].
    assert (Hg : grows w (did (Settle PoolConnect (Raised e)) (did (Dispatch PoolConnect) w)) _)
      by grow.
    now rewrite (grows_since _ _ _ Hg).
Qed.

End UniqueIds.


Lemma getClientUnsafe_hands_out_patched_witness :
  fst (exec healthy TxHandler.getClientUnsafe (start idle)) = Normal (VRef 0)
  /\ rolls (client_at 0 (state acquired)) = true
  /\ layers (query (client_at 0 (state acquired))) = 1.
Proof.
  assert (H : fst (exec healthy TxHandler.getClientUnsafe (start idle)) = Normal (VRef 0))
    by (vm_compute; reflexivity).
  split; [exact H|].
  destruct (getClientUnsafe_hands_out_patched healthy (start idle) 0 H)
    as (_ & _ & _ & Hl & Hr & _).
  split; [exact Hr|]. apply Hl. vm_compute. reflexivity.
Defined.

Lemma requireDbClient_fails_with_the_pool_witness :
  let e := VError "connection terminated" in
  (forall evs, driver unreachable evs PoolConnect = Raised e)
  /\ fst (exec unreachable (TxHandler.requireDbClient false "dbClient") (start idle)) = Raised e
  /\ state (snd (exec unreachable (TxHandler.requireDbClient false "dbClient") (start idle)))
     = idle.
Proof.
  intros e.
  assert (H : forall evs, driver unreachable evs PoolConnect = Raised e)
    by (intros evs; reflexivity).
  split; [exact H|].
  destruct (requireDbClient_fails_with_the_pool unreachable "dbClient" false e (start idle) H)
    as (_ & _ & H3 & _).
  destruct (exec unreachable (TxHandler.requireDbClient false "dbClient") (start idle))
    as [o w'].
  destruct H3 as (Ho & Hs & _). split; [exact Ho | exact Hs].
Defined.


(** ** The pool-level [query] *)

(** X12.  [Database.query(text, params)] hands the statement to the pool
    once and changes nothing in the handler.  When the pool rejects, the
    call throws the pool's error and logs nothing.  When the pool answers
    with an object, the call logs one line, with the text as it came, the
    time between the two readings of the clock and the [rowCount] of the
    answer, and returns the answer itself.  When the pool answers with
    [undefined] or [null], reading [result.rowCount] throws: the call
    throws a [TypeError] and logs nothing, though the statement has been
    answered. *)
Theorem Database_query_passes_the_answer_on env t0 t1 text params (w : World Server) :
  let q := Query text params in
  let o := driver env (past w ++ [Dispatch q]) q in
  let (r, w') := exec env (Database_query t0 t1 text params) w in
  state w' = state w
  /\ match o with
     | Raised e => r = Raised e /\ since w w' = [Dispatch q; Settle q o]
     | Normal result =>
         match rowCount result with
         | Normal rows =>
             r = Normal result
             /\ since w w' =
                [Dispatch q; Settle q o;
                 Log LTrace "Executed single query"
                   (VObj [("text", VStr text); ("duration", VNum (t1 - t0));
                          ("rows", rows)])]
         | Raised err => r = Raised err /\ since w w' = [Dispatch q; Settle q o]
         end
     end.
Proof.
  intros q o. unfold Database_query. cbn [bind exec]. rewrite past_did. fold q. fold o.
  set (w2 := did (Settle q o) (did (Dispatch q) w)).
  assert (Hg2 : grows w w2 [Did (Dispatch q); Did (Settle q o)]).
  { unfold grows, w2. simpl. now rewrite <- app_assoc. }
  destruct o as [result|e]; cbn [settled bind exec].
  - destruct (rowCount result) as [rows|err]; cbn [settled bind exec log].
    + split; [reflexivity|]. split; [reflexivity|].
      assert (Hg : grows w (did (Log LTrace "Executed single query"
                                   (VObj [("text", VStr text); ("duration", VNum (t1 - t0));
                                          ("rows", rows)])) w2) _)
        by (eapply grows_trans; [exact Hg2|apply grows_did]).
      now rewrite (grows_since _ _ _ Hg).
    + split; [reflexivity|]. split; [reflexivity|]. now rewrite (grows_since _ _ _ Hg2).
  - split; [reflexivity|]. split; [reflexivity|]. now rewrite (grows_since _ _ _ Hg2).
Qed.

(** ** More on the text kept for diagnostics *)

Lemma collapse_tidy b s : tidy b s = true -> collapse b s = s.
Proof.
  revert b. induction s as [|a s IH]; intros b H; [reflexivity|].
  rewrite tidy_cons in H. cbn [collapse]. destruct (is_blank a) eqn:E.
  - apply andb_prop in H. destruct H as (H1 & H2). apply andb_prop in H1.
    destruct H1 as (Ha & Hb). apply negb_true_iff in Hb. subst b.
    apply Ascii.eqb_eq in Ha. subst a. now rewrite (IH true H2).
  - now rewrite (IH false H).
Qed.

Lemma drop_leading_id s : starts_with_space s = false -> drop_leading s = s.
Proof. destruct s as [|a s]; simpl; [reflexivity|]. now intros ->. Qed.

Lemma drop_trailing_id s : ends_with_space s = false -> drop_trailing s = s.
Proof.
  induction s as [|a s IH]; [reflexivity|]. intros H. cbn [drop_trailing].
  destruct s as [|b s'].
  - cbn [drop_trailing]. cbn [ends_with_space] in H. now rewrite H.
  - change (ends_with_space (String a (String b s'))) with (ends_with_space (String b s')) in H.
    now rewrite (IH H).
Qed.

Lemma trimmedText_of_normalized s : normalized s = true -> trimmedText s = s.
Proof.
  unfold normalized, trimmedText. intros H. apply andb_prop in H. destruct H as (H & He).
  apply andb_prop in H. destruct H as (Ht & Hs).
  apply negb_true_iff in He, Hs.
  now rewrite (collapse_tidy false s Ht), (drop_leading_id s Hs), (drop_trailing_id s He).
Qed.

(** X13.  The normalisation of the text kept in [lastQuery] leaves exactly
    the normalised texts as they are, and normalising twice is normalising
    once. *)
Theorem trimmedText_is_idempotent s :
  (trimmedText s = s <-> normalized s = true)
  /\ trimmedText (trimmedText s) = trimmedText s.
Proof.
  split.
  - split.
    + intros H. rewrite <- H. apply trimmedText_normalized.
    + apply trimmedText_of_normalized.
  - apply trimmedText_of_normalized, trimmedText_normalized.
Qed.

(** X14.  The text kept in [lastQuery] is empty exactly when the text of
    the call holds nothing but white space (or nothing at all). *)
Theorem trimmedText_empty_iff_blank s :
  trimmedText s = EmptyString <-> squeeze s = EmptyString.
Proof.
  destruct (trimmedText_normalized s) as (Hn & Hq). split.
  - intros H. rewrite <- Hq, H. reflexivity.
  - intros H. rewrite <- Hq in H. unfold normalized in Hn.
    destruct (trimmedText s) as [|a t]; [reflexivity|].
    apply andb_prop in Hn. destruct Hn as (Hn & _).
    apply andb_prop in Hn. destruct Hn as (_ & Hs).
    cbn [starts_with_space] in Hs. apply negb_true_iff in Hs.
    cbn [squeeze] in H. rewrite Hs in H. discriminate H.
Qed.

Lemma collapse_length b s : String.length (collapse b s) <= String.length s.
Proof.
  revert b. induction s as [|a s IH]; intros b; [reflexivity|]. cbn [collapse].
  destruct (is_blank a); [destruct b|]; cbn [String.length];
    pose proof (IH true); pose proof (IH false); lia.
Qed.

Lemma drop_leading_length s : String.length (drop_leading s) <= String.length s.
Proof.
  induction s as [|a s IH]; [reflexivity|]. cbn [drop_leading].
  destruct (is_space a); cbn [String.length]; lia.
Qed.

Lemma drop_trailing_length s : String.length (drop_trailing s) <= String.length s.
Proof.
  induction s as [|a s IH]; [reflexivity|]. cbn [drop_trailing].
  destruct (drop_trailing s) as [|b t].
  - destruct (is_space a); cbn [String.length]; lia.
  - cbn [String.length] in *. lia.
Qed.

(** X15.  The text kept in [lastQuery] is never longer than the text of the
    call. *)
Theorem trimmedText_is_no_longer s : String.length (trimmedText s) <= String.length s.
Proof.
  unfold trimmedText.
  pose proof (drop_trailing_length (drop_leading (collapse false s))).
  pose proof (drop_leading_length (collapse false s)).
  pose proof (collapse_length false s). lia.
Qed.

(** ** More on the patched [query] and the transaction methods *)

Section MoreOnTransactions.
Context (env : Env).
Implicit Types (w : World Client).

(** X16.  The patched [query] of part_000 and part_001 writes its
    diagnostics before it hands the statement over: when the call stands
    at the driver, the last thing that happened is the dispatch of the
    statement, the client says that a query is running, and [lastQuery] is
    the normalised text and the parameters of this call.  This is what the
    callback of the leak timer reads. *)
Theorem query_is_marked_running_at_the_driver old text params w :
  query (state w) = PatchedQuery old ->
  let (st, w') := prefix env (this_query text params) w in
  (exists k, st = Suspended (Query text params) k)
  /\ last (past w') = Some (Dispatch (Query text params))
  /\ isQueryRunning (state w') = true
  /\ lastQuery (state w') = Some (trimmedText text, params).
Proof.
  intros Hq. unfold this_query. cbn [prefix]. rewrite Hq, prefix_call_query.
  split; [eauto|]. rewrite past_did. split; [apply last_snoc|].
  cbn [layers state did]. destruct (enter_lastQuery (layers old) text params w) as (Hl & Hr).
  auto.
Qed.

(** X17.  A [begin] that the database rejects.  [beginTransaction] of
    part_001 writes the flag after the statement: when it throws, the
    client is outside a transaction.  [asyncBeginTransaction] of part_000
    writes the flag before the statement: when it throws, the client is
    left within a transaction, and a second [asyncBeginTransaction] is
    refused: it logs the error of a begin within a transaction, returns
    [false] and sends nothing. *)
Theorem begin_that_throws w e :
  (fst (exec env Tx.beginTransaction w) = Raised e ->
   isWithinTransaction (state (snd (exec env Tx.beginTransaction w))) = false)
  /\ (fst (exec env AsyncTx.asyncBeginTransaction w) = Raised e ->
      let w1 := snd (exec env AsyncTx.asyncBeginTransaction w) in
      isWithinTransaction (state w1) = true
      /\ exec env AsyncTx.asyncBeginTransaction w1 =
         (Normal (VBool false),
          did (Log LError "Tried to start transaction in transaction" VUndefined) w1)).
Proof.
  split.
  - destruct (begin_run env w) as (r & w1 & h & He & _ & _ & _ & _ & Hin & _).
    rewrite He. cbn [fst snd]. intros ->. rewrite Hin. cbn [returns].
    destruct (isWithinTransaction (state w)) eqn:Hw; [|reflexivity].
    rewrite (exec_begin_misuse env w Hw) in He. discriminate He.
  - destruct (isWithinTransaction (state w)) eqn:Hw.
    { rewrite (exec_asyncBegin_misuse env w Hw). discriminate. }
    rewrite (exec_asyncBegin_fresh env w Hw).
    destruct (exec_this_query env "begin" VUndefined
                (store (set_isWithinTransaction true (state w))
                   (did (Log LTrace "BEGIN <" (uniqueId (state w))) w)))
      as (wq & h & He & _ & _ & _ & Hc & _).
    rewrite He. apply control_fields in Hc. destruct Hc as (Hc & _).
    destruct (answer env "begin" VUndefined _) as [v|e']; cbn [fst snd]; [discriminate|].
    intros _. split; [exact Hc|]. apply exec_asyncBegin_misuse. exact Hc.
Qed.

(** X18.  A [commit] that the database rejects.  [commitTransaction] of
    part_001 has cleared the flag before the statement: when it throws,
    the client is outside a transaction, and the [release()] that follows
    sends no [rollback].  [asyncCommitTransaction] of part_000 clears the
    flag after the statement: when it throws, the client is still within
    the transaction, and [asyncTryRollback], which [release()] calls,
    sends the [rollback]. *)
Theorem commit_that_throws w e :
  (fst (exec env Tx.commitTransaction w) = Raised e ->
   let w1 := snd (exec env Tx.commitTransaction w) in
   isWithinTransaction (state w1) = false
   /\ dispatched "rollback" (since w1 (snd (exec env Tx.this_release w1))) = 0)
  /\ (fst (exec env AsyncTx.asyncCommitTransaction w) = Raised e ->
      let w1 := snd (exec env AsyncTx.asyncCommitTransaction w) in
      isWithinTransaction (state w1) = true
      /\ dispatched "rollback" (since w1 (snd (exec env AsyncTx.asyncTryRollback w1))) = 1).
Proof.
  split.
  - destruct (commit_run env w) as (r & w1 & h & He & _ & _ & _ & _ & Hout & _).
    rewrite He. cbn [fst snd]. intros _. split; [exact Hout|].
    destruct (release_run env w1) as (r2 & w2 & h2 & He2 & Hg2 & _ & _ & Hyes & Hno).
    rewrite He2. cbn [snd]. rewrite (grows_since _ _ _ Hg2).
    destruct (rolls (state w1)) eqn:Hr.
    + destruct (Hyes eq_refl) as (_ & Hd & _). now rewrite Hd, Hout.
    + destruct (Hno eq_refl) as (Hd & _).
      pose proof (dispatched_le "rollback" (events h2)). lia.
  - destruct (isWithinTransaction (state w)) eqn:Hw.
    2: { rewrite (exec_asyncCommit_misuse env w Hw). discriminate. }
    rewrite (exec_asyncCommit_open env w Hw).
    destruct (exec_this_query env "commit" VUndefined
                (did (Log LTrace "COMMIT <" (uniqueId (state w))) w))
      as (wq & h & He & _ & _ & _ & Hc & _).
    rewrite He. apply control_fields in Hc. destruct Hc as (Hc & _).
    change (isWithinTransaction (state (did (Log LTrace "COMMIT <" (uniqueId (state w))) w)))
      with (isWithinTransaction (state w)) in Hc. rewrite Hw in Hc.
    destruct (answer env "commit" VUndefined _) as [v|e']; cbn [fst snd]; [discriminate|].
    intros _. split; [exact Hc|].
    destruct (asyncTryRollback_run env wq) as (o & wr & hr & Her & Hgr & _ & _ & _ & Hd & _).
    rewrite Her. cbn [snd]. now rewrite (grows_since _ _ _ Hgr), Hd, Hc.
Qed.

(** X19.  The [rollback] that [release()] of part_001 starts and does not
    await, when the database rejects it: nobody is there to catch the
    error.  Every closure of the patched [query] logs it, and it ends as
    an unhandled rejection; the connection had gone back to the pool
    before. *)
Theorem rollback_of_release_fails_unhandled (c : Client) e :
  release c = PatchedRelease PoolRelease ->
  "rollbackTransactionIfNotCommitted" ∈ methods c ->
  isWithinTransaction c = true ->
  let w1 := snd (exec env Tx.this_release (start c)) in
  driver env (past w1) (Query "rollback" VUndefined) = Raised e ->
  hands_back (past w1) = true
  /\ since w1 (resume env w1) =
     Settle (Query "rollback" VUndefined) (Raised e)
     :: error_logs (layers (query c)) (Raised e) ++ [Unhandled e]
  /\ floating (resume env w1) = [].
Proof.
  intros Hrel Hin Hc w1.
  assert (Hw1 : w1 = did (NativeRelease (pool_release env (past (released env (start c)))))
                       (released env (start c))).
  { unfold w1, Tx.this_release. cbn [exec]. change (state (start c)) with c.
    rewrite Hrel, (exec_release_patched env PoolRelease (start c) Hin), exec_release_pool.
    reflexivity. }
  destruct (released_grows env (start c)) as (h & _ & _ & _ & _ & _ & _ & _ & _ & Hf).
  change (state (start c)) with c in Hf. rewrite Hc in Hf. cbn [start floating app] in Hf.
  assert (Hfl : floating w1 = [mkFloating (Query "rollback" VUndefined)
                                 (rollback_rest (query c))]).
  { rewrite Hw1. exact Hf. }
  intros Hd. split; [|split].
  - rewrite Hw1, past_did. unfold hands_back. now rewrite last_snoc.
  - unfold resume. rewrite Hfl. cbn [fl_call fl_resume]. rewrite Hd.
    set (w2 := mkWorld (state w1)
                 (history w1 ++ [Did (Settle (Query "rollback" VUndefined) (Raised e))]) []).
    unfold rollback_rest. rewrite exec_bind, exec_query_rest.
    destruct (leave_grows (layers (query c)) (Raised e) w2) as (hl & Hg & He & _).
    assert (Hall : grows w1 (did (Unhandled e) (leave (layers (query c)) (Raised e) w2))
                     (([Did (Settle (Query "rollback" VUndefined) (Raised e))] ++ hl)
                      ++ [Did (Unhandled e)])).
    { eapply grows_trans; [eapply grows_trans; [|exact Hg]|apply grows_did]. reflexivity. }
    rewrite (grows_since _ _ _ Hall), !events_app, He. reflexivity.
  - unfold resume. rewrite Hfl. cbn [fl_call fl_resume]. rewrite Hd.
    set (w2 := mkWorld (state w1)
                 (history w1 ++ [Did (Settle (Query "rollback" VUndefined) (Raised e))]) []).
    unfold rollback_rest. rewrite exec_bind, exec_query_rest.
    destruct (leave_grows (layers (query c)) (Raised e) w2) as (hl & _ & _ & _ & _ & _ & Hf2).
    cbn [floating did]. exact Hf2.
Qed.

End MoreOnTransactions.

Lemma query_is_marked_running_at_the_driver_witness :
  let w := start (Tx.patchClient rawClient) in
  query (state w) = PatchedQuery (NamedQuery NativeQuery)
  /\ (let (st, w') := prefix healthy (this_query "select  now() " VUndefined) w in
      isQueryRunning (state w') = true
      /\ lastQuery (state w') = Some ("select now()", VUndefined)).
Proof.
  intros w.
  split; [reflexivity|].
  pose proof (query_is_marked_running_at_the_driver healthy (NamedQuery NativeQuery)
                "select  now() " VUndefined w eq_refl) as H.
  destruct (prefix healthy (this_query "select  now() " VUndefined) w) as [st w'].
  destruct H as (_ & _ & Hr & Hl). split; [exact Hr | exact Hl].
Defined.

Lemma begin_that_throws_witness :
  let e := VError "connection terminated" in
  let w := start (AsyncTx.patchClient rawClient) in
  let w1 := snd (exec unreachable AsyncTx.asyncBeginTransaction w) in
  fst (exec unreachable AsyncTx.asyncBeginTransaction w) = Raised e
  /\ isWithinTransaction (state w1) = true
  /\ fst (exec unreachable AsyncTx.asyncBeginTransaction w1) = Normal (VBool false).
Proof.
  intros e w w1.
  assert (H : fst (exec unreachable AsyncTx.asyncBeginTransaction w) = Raised e)
    by (vm_compute; reflexivity).
  split; [exact H|].
  destruct (proj2 (begin_that_throws unreachable w e) H) as (H1 & H2).
  split; [exact H1|]. fold w1 in H2. rewrite H2. reflexivity.
Defined.

Lemma commit_that_throws_witness :
  let e := VError "connection terminated" in
  let w := start (set_isWithinTransaction true (AsyncTx.patchClient rawClient)) in
  let w1 := snd (exec unreachable AsyncTx.asyncCommitTransaction w) in
  fst (exec unreachable AsyncTx.asyncCommitTransaction w) = Raised e
  /\ isWithinTransaction (state w1) = true
  /\ dispatched "rollback" (since w1 (snd (exec unreachable AsyncTx.asyncTryRollback w1))) = 1.
Proof.
  intros e w w1.
  assert (H : fst (exec unreachable AsyncTx.asyncCommitTransaction w) = Raised e)
    by (vm_compute; reflexivity).
  split; [exact H|].
  exact (proj2 (commit_that_throws unreachable w e) H).
Defined.

Lemma rollback_of_release_fails_unhandled_witness :
  let e := VError "connection terminated" in
  let c := set_isWithinTransaction true (Tx.patchClient rawClient) in
  let w1 := snd (exec unreachable Tx.this_release (start c)) in
  release c = PatchedRelease PoolRelease
  /\ isWithinTransaction c = true
  /\ driver unreachable (past w1) (Query "rollback" VUndefined) = Raised e
  /\ hands_back (past w1) = true
  /\ In (Unhandled e) (since w1 (resume unreachable w1))
  /\ floating (resume unreachable w1) = [].
Proof.
  intros e c w1.
  assert (Hin : "rollbackTransactionIfNotCommitted" ∈ methods c).
  { apply (bool_decide_unpack _). vm_compute. exact I. }
  split; [reflexivity|]. split; [reflexivity|]. split; [reflexivity|].
  destruct (rollback_of_release_fails_unhandled unreachable c e eq_refl Hin eq_refl eq_refl)
    as (H1 & H2 & H3).
  split; [exact H1|]. split; [|exact H3].
  fold w1 in H2. rewrite H2. right. apply in_or_app. right. now left.
Defined.


(** ** The handler of the [async] generation *)

Section AsyncHandler.
Context (env : Env).
Implicit Types (w : World Server).

Lemma async_getClientUnsafe_request w :
  request (state (snd (exec env AsyncTxHooks.getClientUnsafe w))) = request (state w).
Proof.
  unfold AsyncTxHooks.getClientUnsafe, connect. cbn [exec].
  destruct (driver env _ PoolConnect) as [[]|e]; try reflexivity.
  unfold assignUniqueId, log. cbn [bind exec modify state store did].
  repeat match goal with
         | |- context [if ?b then _ else _] => destruct b; cbn [bind exec modify state store did]
         | |- context [match sanityTimeout ?c with _ => _ end] =>
             destruct (sanityTimeout c); cbn [bind exec modify state store did]
         end; reflexivity.
Qed.

(** X20.  The hook [requireDbClient] of the [async] generation (part_000,
    lines 301-322) binds the client that it acquired on the request under
    the configured name.  It returns that client when the cleanup plugin
    is installed or [request.dbClients] can take the client.  Without the
    cleanup plugin and with a decorator named dbClients, the client that
    was just bound is found where the array is expected: the hook throws a
    [TypeError], after the client was acquired and bound. *)
Theorem async_requireDbClient_binds name addCleanupWork w r :
  fst (exec env AsyncTxHooks.getClientUnsafe w) = Normal (VRef r) ->
  let (o, w') := exec env (AsyncTxHooks.requireDbClient addCleanupWork name) w in
  request (state w') !! name = Some (Bound (VRef r))
  /\ (addCleanupWork || listable name (state w) = true -> o = Normal (VRef r))
  /\ (addCleanupWork = false -> name = "dbClients" ->
      o = Raised (VError "TypeError: request.dbClients.push is not a function")).
Proof.
  intros Hget. unfold AsyncTxHooks.requireDbClient. rewrite exec_bind.
  pose proof (async_getClientUnsafe_request w) as Hreq.
  destruct (exec env AsyncTxHooks.getClientUnsafe w) as [[v|e] w1]; cbn [fst snd] in *;
    [|discriminate]. injection Hget as ->.
  cbn [modify bind exec]. rewrite exec_bind.
  destruct addCleanupWork.
  - cbn [exec]. split; [apply lookup_insert_eq|]. split; [reflexivity|discriminate].
  - pose proof (remember_keeps_binding env r name w1) as Hrem. cbv zeta in Hrem.
    assert (Hpush : name = "dbClients" ->
              exec env (rememberClient (VRef r))
                (store (assign name (Bound (VRef r)) (state w1)) w1) =
              (Raised (VError "TypeError: request.dbClients.push is not a function"),
               store (assign name (Bound (VRef r)) (state w1)) w1)).
    { intros ->. unfold rememberClient. cbn [exec state store assign request].
      rewrite lookup_insert_eq. reflexivity. }
    destruct (exec env (rememberClient (VRef r)) _) as [[x|e] w2];
      destruct Hrem as (Hb & Hl); cbn [exec orb]; (split; [exact Hb|]); split.
    + reflexivity.
    + intros _ Hname. specialize (Hpush Hname). discriminate Hpush.
    + rewrite <- (listable_request name _ _ Hreq). intros Hok.
      specialize (Hl Hok). discriminate Hl.
    + intros _ Hname. specialize (Hpush Hname). congruence.
Qed.

End AsyncHandler.

Lemma async_requireDbClient_binds_witness :
  fst (exec healthy AsyncTxHooks.getClientUnsafe (start idle)) = Normal (VRef 0)
  /\ (let (o, w') := exec healthy (AsyncTxHooks.requireDbClient false "dbClient") (start idle) in
      request (state w') !! "dbClient" = Some (Bound (VRef 0))
      /\ o = Normal (VRef 0)).
Proof.
  assert (H : fst (exec healthy AsyncTxHooks.getClientUnsafe (start idle)) = Normal (VRef 0))
    by (vm_compute; reflexivity).
  split; [exact H|].
  pose proof (async_requireDbClient_binds healthy "dbClient" false (start idle) 0 H) as H1.
  destruct (exec healthy (AsyncTxHooks.requireDbClient false "dbClient") (start idle))
    as [o w'].
  destruct H1 as (Hb & Ho & _). split; [exact Hb|]. apply Ho. vm_compute. reflexivity.
Defined.


(** ** src/database.js: the marker [patched] and the pool *)

Section PlainMarker.
Context (env : Env).
Implicit Types (w : World Server).

(** [getClient] on a client that carries the marker: nothing is patched,
    the timer is replaced. *)
Lemma plain_getClient_marked w r :
  patched (client_at r (state w)) = true ->
  fst (exec env Plain.getClient w) = Normal (VRef r) ->
  let c0 := client_at r (state w) in
  exists w1 h hN,
    exec env Plain.getClient w = (Normal (VRef r), w1)
    /\ grows w w1 h
    /\ client_at r (state w1) = set_sanityTimeout (Some hN) c0
    /\ (forall live, fold_left tick (events h) live = hN :: cancel (sanityTimeout c0) live).
Proof.
  intros Hp Hret c0.
  remember (exec env Plain.getClient w) as res eqn:Hres.
  unfold Plain.getClient in Hres. rewrite exec_bind in Hres.
  unfold log at 1 in Hres. cbn [exec] in Hres. rewrite exec_connect in Hres.
  cbv zeta in Hres.
  set (w0 := did (Log LTrace "Acquiring client" VUndefined) w) in *.
  destruct (driver env (past (did (Dispatch PoolConnect) w0)) PoolConnect) as [v|e];
    [|subst res; discriminate].
  set (w2 := did (Settle PoolConnect (Normal v)) (did (Dispatch PoolConnect) w0)) in *.
  destruct v as [| | | | | |r'|]; try (subst res; discriminate).
  cbv beta in Hres.
  assert (Hr : fst res = Normal (VRef r')).
  { subst res. unfold Plain.patchOnce, log. cbn [bind exec modify state store did].
    repeat match goal with
           | |- context [if ?b then _ else _] =>
               destruct b; cbn [negb bind exec modify state store did]
           | |- context [match sanityTimeout ?c with _ => _ end] =>
               destruct (sanityTimeout c); cbn [bind exec modify state store did]
           end; reflexivity. }
  rewrite Hr in Hret. injection Hret as ->. clear Hr.
  rewrite exec_bind, (exec_patchOnce_marked env r w2 Hp) in Hres. cbn [bind exec] in Hres.
  change (client_at r (state w2)) with c0 in Hres. subst res.
  destruct (sanityTimeout c0) as [t|] eqn:Hst; unfold log; cbn [bind exec modify state store did];
    (eexists; eexists; eexists; split; [reflexivity|]);
    (split; [unfold w2, w0; grow|]);
    (split; [cbn [state store]; rewrite client_at_update; reflexivity|]);
    intros live; reflexivity.
Qed.

(** X21.  src/database.js guards [patchClient] by the marker [patched] on
    the client, not by the methods.  On a client that carries the marker
    while its [release] is the pool's own (pg-pool puts its own [release]
    on a client every time it hands it out, as the note above
    [patchClient] in part_000 says), [getClient] patches nothing and arms
    the timer; [release()] then hands the connection back and cancels
    nothing: the timer stays armed, and stays on the client, after the
    release. *)
Theorem marked_client_keeps_its_timer_after_release w r :
  patched (client_at r (state w)) = true ->
  release (client_at r (state w)) = PoolRelease ->
  fst (exec env Plain.getClient w) = Normal (VRef r) ->
  let w1 := snd (exec env Plain.getClient w) in
  let w2 := snd (exec env (on_client r PlainHooks.this_release) w1) in
  release (client_at r (state w1)) = PoolRelease
  /\ count hands_over (since w1 w2) = 1
  /\ exists h, sanityTimeout (client_at r (state w1)) = Some h
               /\ sanityTimeout (client_at r (state w2)) = Some h
               /\ In h (armed (past w2)).
Proof.
  intros Hp Hrel Hret w1 w2.
  destruct (plain_getClient_marked w r Hp Hret) as (wa & h & hN & He & Hg & Hc & Hk).
  assert (Hw1 : w1 = wa) by (unfold w1; now rewrite He). clearbody w1. subst wa.
  assert (Hrel1 : release (client_at r (state w1)) = PoolRelease) by (rewrite Hc; exact Hrel).
  destruct (plain_release_from_handler env r w1)
    as (o & wb & h2 & He2 & Hg2 & _ & Hn & _ & Hk2 & _ & Ht2 & _).
  assert (Hw2 : w2 = wb) by (unfold w2; now rewrite He2). clearbody w2. subst wb.
  rewrite Hrel1 in Hk2, Ht2. cbn [releaseWasPatched] in Hk2, Ht2.
  split; [exact Hrel1|]. split; [now rewrite (grows_since _ _ _ Hg2)|].
  exists hN. split; [now rewrite Hc|]. split; [now rewrite Ht2, Hc|].
  rewrite (armed_grows _ _ _ Hg2), Hk2, (armed_grows _ _ _ Hg), Hk. now left.
Qed.

End PlainMarker.

Lemma marked_client_keeps_its_timer_after_release_witness :
  let w := start handed_out_before in
  let w1 := snd (exec healthy Plain.getClient w) in
  let w2 := snd (exec healthy (on_client 0 PlainHooks.this_release) w1) in
  patched (client_at 0 (state w)) = true
  /\ release (client_at 0 (state w)) = PoolRelease
  /\ fst (exec healthy Plain.getClient w) = Normal (VRef 0)
  /\ count hands_over (since w1 w2) = 1
  /\ exists h, sanityTimeout (client_at 0 (state w2)) = Some h /\ In h (armed (past w2)).
Proof.
  intros w w1 w2.
  assert (H1 : patched (client_at 0 (state w)) = true) by (vm_compute; reflexivity).
  assert (H2 : release (client_at 0 (state w)) = PoolRelease) by (vm_compute; reflexivity).
  assert (H3 : fst (exec healthy Plain.getClient w) = Normal (VRef 0))
    by (vm_compute; reflexivity).
  repeat (split; [assumption|]).
  destruct (marked_client_keeps_its_timer_after_release healthy w 0 H1 H2 H3)
    as (_ & Hc & h & _ & Hh & Hin).
  split; [exact Hc|]. exists h. split; assumption.
Defined.


(** ** [patchClient] of part_000's first generation *)

Section ListedPatch.
Context (env : Env).
Implicit Types (w : World Server).

Lemma listed_patchClient_run r w :
  exists w1 h,
    exec env (Listed.patchClient r) w = (Normal VUndefined, w1)
    /\ grows w w1 h
    /\ namedParameters (client_at r (state w1)) = true
    /\ queryWasPatched (query (client_at r (state w1))) = true
    /\ releaseWasPatched (release (client_at r (state w1))) = true
    /\ (namedParameters (client_at r (state w)) = true ->
        queryWasPatched (query (client_at r (state w))) = true ->
        releaseWasPatched (release (client_at r (state w))) = true ->
        w1 = did (Log LTrace "Patching client" (id_of r (state w))) w).
Proof.
  unfold Listed.patchClient, log. cbn [bind exec modify state store did].
  destruct (namedParameters (client_at r (state w))) eqn:Hn;
    cbn [negb bind exec modify state store did];
    rewrite ?client_at_update;
    cbn [query patchNamedParameters set_query set_namedParameters queryWasPatched];
    [destruct (queryWasPatched (query (client_at r (state w)))) eqn:Hq|];
    cbn [negb bind exec modify state store did];
    rewrite ?client_at_update;
    cbn [release query patchNamedParameters set_query set_namedParameters set_release];
    destruct (releaseWasPatched (release (client_at r (state w)))) eqn:Hr;
    cbn [negb bind exec modify state store did];
    (eexists; eexists; split; [reflexivity|]); (split; [grow|]);
    cbn [state store did]; rewrite ?client_at_update;
    cbn [namedParameters query release patchNamedParameters set_query set_namedParameters
         set_release queryWasPatched releaseWasPatched];
    repeat split; auto; try discriminate.
Qed.

(** X22.  [patchClient] of part_000's first generation (lines 127-181),
    which [getClient] runs on every client it hands out: after it the
    client has the support of named parameters and the patched [query] and
    [release]; and run again on that client it only logs that it is
    patching: nothing is written, and no closure is put around another. *)
Theorem listed_patchClient_patches_once r w :
  let w1 := snd (exec env (Listed.patchClient r) w) in
  let c1 := client_at r (state w1) in
  namedParameters c1 = true
  /\ queryWasPatched (query c1) = true
  /\ releaseWasPatched (release c1) = true
  /\ exec env (Listed.patchClient r) w1 =
     (Normal VUndefined, did (Log LTrace "Patching client" (id_of r (state w1))) w1).
Proof.
  intros w1 c1.
  destruct (listed_patchClient_run r w) as (wa & h & He & _ & Hn & Hq & Hr & _).
  assert (Hw1 : w1 = wa) by (unfold w1; now rewrite He). clearbody w1. subst wa.
  split; [exact Hn|]. split; [exact Hq|]. split; [exact Hr|].
  destruct (listed_patchClient_run r w1) as (wb & h2 & He2 & _ & _ & _ & _ & Hsame).
  rewrite He2. f_equal. apply Hsame; assumption.
Qed.

End ListedPatch.

(** ** A decorator named dbClients *)

Section NameCollision.
Context (env : Env).
Implicit Types (w : World Server).

(** X23.  part_001 without the cleanup plugin, when the request decorator
    is named dbClients.  [requireDbClient] acquires a client, binds it as
    [request.dbClients] and throws when it tries to push to it; the hook
    [onError] then finds a client where it expects the array, releases
    nothing and overwrites it with the empty array.  The client is not
    handed back by either: it stays checked out, with its timer armed,
    until the timer fires. *)
Theorem client_bound_as_dbClients_is_not_released w r :
  fst (exec env TxHandler.getClientUnsafe w) = Normal (VRef r) ->
  let (o, w1) := exec env (TxHandler.requireDbClient false "dbClients") w in
  let (o2, w2) := exec env TxHooks.onError w1 in
  o = Raised (VError "TypeError: request.dbClients.push is not a function")
  /\ o2 = Normal VUndefined
  /\ count hands_over (since w w2) = 0
  /\ request (state w2) !! "dbClients" = Some (ClientList [])
  /\ exists h, sanityTimeout (client_at r (state w2)) = Some h /\ In h (armed (past w2)).
Proof.
  intros Hret. rewrite getClientUnsafe_is_acquire in Hret.
  apply acquire_answer in Hret; [|intros x; apply patchClient_fields].
  destruct (acquire_run env Tx.patchClient 25000 w r
              (fun x => proj2 (proj2 (proj2 (proj2 (patchClient_fields x))))) Hret)
    as (wa & h & hN & He & Hg & Hc & _ & _ & _ & Hk & _ & Hh & _).
  unfold TxHandler.requireDbClient. rewrite exec_bind, getClientUnsafe_is_acquire, He.
  cbn [modify bind exec]. rewrite exec_bind.
  set (w1 := store (assign "dbClients" (Bound (VRef r)) (state wa)) wa).
  assert (Hslot : request (state w1) !! "dbClients" = Some (Bound (VRef r))).
  { unfold w1. cbn [state store assign request]. apply lookup_insert_eq. }
  assert (Hrem : exec env (rememberClient (VRef r)) w1 =
                 (Raised (VError "TypeError: request.dbClients.push is not a function"), w1)).
  { unfold rememberClient. cbn [exec]. rewrite Hslot. reflexivity. }
  rewrite Hrem. unfold TxHooks.onError. rewrite exec_releaseListed, Hslot.
  cbn [truthy length_of greater_than_zero andb].
  assert (Hall : grows w (store (assign "dbClients" (ClientList []) (state w1)) w1)
                   ((h ++ [Stored (assign "dbClients" (Bound (VRef r)) (state wa))])
                    ++ [Stored (assign "dbClients" (ClientList []) (state w1))])).
  { eapply grows_trans; [eapply grows_trans; [exact Hg|apply grows_store]|apply grows_store]. }
  split; [reflexivity|]. split; [reflexivity|].
  rewrite (grows_since _ _ _ Hall), !events_app, !count_app, Hh.
  split; [reflexivity|]. split; [apply lookup_insert_eq|].
  exists hN. split.
  - replace (client_at r _) with (client_at r (state wa)) by reflexivity.
    rewrite Hc. reflexivity.
  - rewrite (armed_grows _ _ _ Hall), !events_app, !fold_left_app, Hk. now left.
Qed.

End NameCollision.

Lemma client_bound_as_dbClients_is_not_released_witness :
  fst (exec healthy TxHandler.getClientUnsafe (start idle)) = Normal (VRef 0)
  /\ (let (o, w1) := exec healthy (TxHandler.requireDbClient false "dbClients") (start idle) in
      let (o2, w2) := exec healthy TxHooks.onError w1 in
      count hands_over (since (start idle) w2) = 0
      /\ exists h, sanityTimeout (client_at 0 (state w2)) = Some h /\ In h (armed (past w2))).
Proof.
  assert (H : fst (exec healthy TxHandler.getClientUnsafe (start idle)) = Normal (VRef 0))
    by (vm_compute; reflexivity).
  split; [exact H|].
  pose proof (client_bound_as_dbClients_is_not_released healthy (start idle) 0 H) as H1.
  destruct (exec healthy (TxHandler.requireDbClient false "dbClients") (start idle))
    as [o w1].
  destruct (exec healthy TxHooks.onError w1) as [o2 w2].
  destruct H1 as (_ & _ & Hc & _ & Hh). split; [exact Hc | exact Hh].
Defined.


(** ** The timers of src/database.js and of part_000's first generation *)

Section TimersElsewhere.
Context (env : Env).
Implicit Types (w : World Server).

Lemma keeps_timers_bind t f :
  keeps_timers env t -> (forall v, keeps_timers env (f v)) -> keeps_timers env (bind t f).
Proof.
  intros Ht Hf w H. rewrite exec_bind. specialize (Ht w H).
  destruct (exec env t w) as [[v|e] w1]; cbn [snd] in *; [apply Hf|]; exact Ht.
Qed.

Lemma keeps_timers_Get k : (forall s, keeps_timers env (k s)) -> keeps_timers env (Get k).
Proof. intros Hk w H. cbn [exec]. now apply Hk. Qed.

Lemma keeps_timers_Ret v : keeps_timers env (Ret v).
Proof. intros w H. exact H. Qed.

Lemma keeps_timers_Throw e : keeps_timers env (Throw e).
Proof. intros w H. exact H. Qed.

Lemma keeps_timers_log lvl msg data : keeps_timers env (log lvl msg data).
Proof.
  intros w H. rewrite exec_log. cbn [snd].
  apply (timers_owned_quiet w _ [Did (Log lvl msg data)] (grows_did _ _));
    [intros live; reflexivity|intros r; reflexivity|exact H].
Qed.

Lemma keeps_timers_modify f :
  (forall s r, sanityTimeout (client_at r (f s)) = sanityTimeout (client_at r s)) ->
  keeps_timers env (modify f).
Proof.
  intros Hf w H. rewrite exec_modify. cbn [snd].
  apply (timers_owned_quiet w _ [Stored (f (state w))] (grows_store _ _));
    [intros live; reflexivity|intros r; apply Hf|exact H].
Qed.

Lemma update_keeps_timer r f s r' :
  (forall c, sanityTimeout (f c) = sanityTimeout c) ->
  sanityTimeout (client_at r' (update r f s)) = sanityTimeout (client_at r' s).
Proof.
  intros Hf. destruct (Nat.eq_dec r' r) as [->|Hne].
  - now rewrite client_at_update.
  - now rewrite client_at_update_ne.
Qed.

Lemma keeps_timers_update r f :
  (forall c, sanityTimeout (f c) = sanityTimeout c) -> keeps_timers env (modify (update r f)).
Proof. intros Hf. apply keeps_timers_modify. intros s r'. now apply update_keeps_timer. Qed.

Lemma keeps_timers_assign name v : keeps_timers env (modify (assign name v)).
Proof. apply keeps_timers_modify. reflexivity. Qed.

Lemma keeps_timers_assignUniqueId r : keeps_timers env (assignUniqueId r).
Proof.
  intros w H. unfold assignUniqueId. cbn [exec].
  destruct (truthy (uniqueId (client_at r (state w)))); cbn [exec snd]; [exact H|].
  eapply timers_owned_quiet; [apply grows_store|intros live; reflexivity| |exact H].
  intros r'. cbn [state store]. rewrite client_at_counter. now apply update_keeps_timer.
Qed.

Lemma keeps_timers_connect k :
  (forall r, keeps_timers env (k r)) -> keeps_timers env (connect k).
Proof.
  intros Hk w H. rewrite exec_connect. cbv zeta.
  set (o := driver env (past (did (Dispatch PoolConnect) w)) PoolConnect).
  assert (H2 : timers_owned (did (Settle PoolConnect o) (did (Dispatch PoolConnect) w))).
  { apply (timers_owned_quiet w _ [Did (Dispatch PoolConnect); Did (Settle PoolConnect o)]);
      [|intros live; reflexivity|intros r; reflexivity|exact H].
    unfold grows. simpl. now rewrite <- app_assoc. }
  clearbody o. destruct o as [[]|]; try exact H2. apply Hk, H2.
Qed.

Ltac quiet :=
  repeat first
    [ progress cbv beta zeta
    | apply keeps_timers_log
    | apply keeps_timers_Ret
    | apply keeps_timers_Throw
    | apply keeps_timers_update; intros ?; reflexivity
    | apply keeps_timers_assign
    | match goal with |- keeps_timers _ (if ?b then _ else _) => destruct b end
    | apply keeps_timers_bind; [|intros _]
    | apply keeps_timers_Get; intros ? ].

Lemma keeps_timers_listed_patchClient r : keeps_timers env (Listed.patchClient r).
Proof. unfold Listed.patchClient. quiet. Qed.

Lemma keeps_timers_patchOnce r : keeps_timers env (Plain.patchOnce r).
Proof. unfold Plain.patchOnce. quiet. Qed.

Lemma keeps_timers_arm ms r :
  keeps_timers env
    (do Get (fun this =>
          match sanityTimeout (client_at r this) with
          | Some h =>
              do log LError "Client is busy and still got returned from pool" (id_of r this);
              do Emit (ClearTimeout h) (Ret VUndefined);
              modify (update r (set_sanityTimeout None))
          | None => Ret VUndefined
          end);
     do Get (fun this =>
          if isQueryRunning (client_at r this) then
            log LError "Client is running query and still got returned from pool"
              (id_of r this)
          else Ret VUndefined);
     NewTimer ms (fun h =>
       do modify (update r (set_sanityTimeout (Some h)));
       Ret (VRef r))).
Proof.
  intros w H.
  destruct (arm_run env ms r w) as (w' & h & hN & He & Hg & Hc & _ & _ & Ho & Hk & Hb & _).
  rewrite He. cbn [snd]. apply (timers_owned_arm r hN w w' h Hg Hk); auto.
  rewrite Hc. reflexivity.
Qed.

(** The end of [getClient] of src/database.js: the timer that is still on
    the client is cancelled, and the new one takes its place. *)
Lemma keeps_timers_plain_arm r :
  keeps_timers env
    (do Get (fun this =>
          match sanityTimeout (client_at r this) with
          | Some h =>
              do log LError "Client is busy and still got returned from pool" VUndefined;
              Emit (ClearTimeout h) (Ret VUndefined)
          | None => Ret VUndefined
          end);
     NewTimer 15000 (fun h =>
       do modify (update r (set_sanityTimeout (Some h)));
       Ret (VRef r))).
Proof.
  intros w H. set (c := client_at r (state w)).
  assert (Hrun : exists w' h hN,
            exec env
              (do Get (fun this =>
                    match sanityTimeout (client_at r this) with
                    | Some h =>
                        do log LError "Client is busy and still got returned from pool"
                             VUndefined;
                        Emit (ClearTimeout h) (Ret VUndefined)
                    | None => Ret VUndefined
                    end);
               NewTimer 15000 (fun h =>
                 do modify (update r (set_sanityTimeout (Some h)));
                 Ret (VRef r))) w = (Normal (VRef r), w')
            /\ grows w w' h
            /\ (forall live, fold_left tick (events h) live =
                             hN :: cancel (sanityTimeout c) live)
            /\ sanityTimeout (client_at r (state w')) = Some hN
            /\ length (history w) <= hN < length (history w')
            /\ (forall r', r' <> r -> client_at r' (state w') = client_at r' (state w))).
  { cbn [bind exec]. fold c.
    destruct (sanityTimeout c) as [t|] eqn:Hst; unfold log;
      cbn [bind exec modify state store did];
      (eexists; eexists; eexists; split; [reflexivity|]);
      (split; [grow|]);
      (split; [intros live; reflexivity|]);
      (split; [cbn [state store]; rewrite !client_at_update; reflexivity|]);
      (split; [cbn [history store did]; rewrite ?length_app; cbn [length]; lia|]);
      intros r' Hne; cbn [state store];
      rewrite !client_at_update_ne by exact Hne; reflexivity. }
  destruct Hrun as (w' & h & hN & He & Hg & Hk & Hc & Hb & Ho).
  rewrite He. cbn [snd]. exact (timers_owned_arm r hN w w' h Hg Hk Hc Hb Ho H).
Qed.

Lemma plain_getClient_keeps_timers : keeps_timers env Plain.getClient.
Proof.
  unfold Plain.getClient. apply keeps_timers_bind; [apply keeps_timers_log|intros _].
  apply keeps_timers_connect. intros r.
  apply keeps_timers_bind; [apply keeps_timers_patchOnce|intros _].
  apply keeps_timers_plain_arm.
Qed.

Lemma listed_getClient_keeps_timers : keeps_timers env Listed.getClient.
Proof.
  unfold Listed.getClient. apply keeps_timers_connect. intros r.
  apply keeps_timers_bind; [apply keeps_timers_assignUniqueId|intros _].
  apply keeps_timers_bind; [apply keeps_timers_Get; intros s; apply keeps_timers_log|intros _].
  apply keeps_timers_bind; [apply keeps_timers_listed_patchClient|intros _].
  apply keeps_timers_arm.
Qed.

Lemma plain_release_keeps_timers r : keeps_timers env (on_client r PlainHooks.this_release).
Proof.
  intros w H.
  destruct (plain_release_from_handler env r w)
    as (o & w' & h & He & Hg & _ & _ & _ & Hk & _ & Ht & _ & _ & Hap).
  rewrite He. cbn [snd].
  destruct (releaseWasPatched (release (client_at r (state w)))).
  - apply (timers_owned_cancel r w w' h Hg Hk Ht); [|exact H].
    intros r' Hne. exact (apart_client_at _ _ _ _ Hap Hne).
  - apply (timers_owned_quiet w w' h Hg Hk); [|exact H].
    intros r'. destruct (Nat.eq_dec r' r) as [->|Hne]; [exact Ht|].
    now rewrite (apart_client_at _ _ _ _ Hap Hne).
Qed.

Lemma listed_release_keeps_timers r :
  keeps_timers env (on_client r ListedClient.this_release).
Proof.
  intros w H.
  destruct (listed_release_from_handler env r w)
    as (o & w' & h & He & Hg & _ & _ & _ & Hk & _ & Ht & _ & _ & Hap).
  rewrite He. cbn [snd].
  destruct (releaseWasPatched (release (client_at r (state w)))).
  - apply (timers_owned_cancel r w w' h Hg Hk Ht); [|exact H].
    intros r' Hne. exact (apart_client_at _ _ _ _ Hap Hne).
  - apply (timers_owned_quiet w w' h Hg Hk); [|exact H].
    intros r'. destruct (Nat.eq_dec r' r) as [->|Hne]; [exact Ht|].
    now rewrite (apart_client_at _ _ _ _ Hap Hne).
Qed.

Lemma release_of_keeps_timers this_release v :
  (forall r, keeps_timers env (on_client r this_release)) ->
  keeps_timers env (release_of this_release v).
Proof. intros Hr. destruct v; cbn [release_of]; try apply keeps_timers_Throw. apply Hr. Qed.

Lemma forEach_keeps_timers vs f :
  (forall v, keeps_timers env (f v)) -> keeps_timers env (forEach vs f).
Proof.
  intros Hf. induction vs as [|v vs IH]; cbn [forEach]; [apply keeps_timers_Ret|].
  apply keeps_timers_bind; [apply Hf|intros _; exact IH].
Qed.

Lemma releaseListed_keeps_timers this_release :
  (forall r, keeps_timers env (on_client r this_release)) ->
  keeps_timers env (releaseListed this_release).
Proof.
  intros Hr. unfold releaseListed. apply keeps_timers_Get. intros s.
  apply keeps_timers_bind; [|intros _; apply keeps_timers_assign].
  destruct (request s !! "dbClients") as [[v|vs]|]; [| |apply keeps_timers_Ret].
  - destruct (truthy v && greater_than_zero (length_of v)); [|apply keeps_timers_Ret].
    apply keeps_timers_bind; [apply keeps_timers_log|intros _; apply keeps_timers_Throw].
  - destruct (0 <? Z.of_nat (length vs))%Z; [|apply keeps_timers_Ret].
    apply keeps_timers_bind; [apply keeps_timers_log|intros _].
    apply forEach_keeps_timers. intros v. now apply release_of_keeps_timers.
Qed.

Lemma releaseBound_keeps_timers name message :
  keeps_timers env (PlainHooks.releaseBound name message).
Proof.
  unfold PlainHooks.releaseBound. apply keeps_timers_Get. intros s.
  destruct (request s !! name) as [[v|vs]|]; [| |apply keeps_timers_Ret].
  - destruct (truthy v); [|apply keeps_timers_Ret].
    apply keeps_timers_bind; [apply keeps_timers_log|intros _].
    apply keeps_timers_bind; [|intros _; apply keeps_timers_Ret].
    apply release_of_keeps_timers, plain_release_keeps_timers.
  - apply keeps_timers_bind; [apply keeps_timers_log|intros _; apply keeps_timers_Throw].
Qed.

(** X24.  [getClient] of src/database.js and of part_000's first
    generation keep the timers and the clients in agreement, whatever the
    pool answers and whatever the client carries: when every timer that is
    armed is the [sanityTimeout] of exactly one client before the call, it
    is so after it.  src/database.js does not set [sanityTimeout] to null
    when it cancels the timer that was left; the new timer takes its
    place. *)
Theorem getClient_keeps_timers w :
  timers_owned w ->
  timers_owned (snd (exec env Plain.getClient w))
  /\ timers_owned (snd (exec env Listed.getClient w)).
Proof.
  intros H. split.
  - now apply plain_getClient_keeps_timers.
  - now apply listed_getClient_keeps_timers.
Qed.

(** X25.  The hooks [onSend] and [onError] and the callback of the leak
    timer (here without the decorator [apmTrackError]) of src/database.js
    and of part_000's first generation keep the timers and the clients in
    agreement, whatever is on the request, whatever the clients carry and
    whatever the pool's release does. *)
Theorem hooks_and_callbacks_keep_timers name w :
  timers_owned w ->
  timers_owned (snd (exec env (PlainHooks.onSend name) w))
  /\ timers_owned (snd (exec env (PlainHooks.onError name) w))
  /\ (forall r, timers_owned (snd (exec env (PlainHooks.forcedRelease None r) w)))
  /\ timers_owned (snd (exec env ListedHooks.onSend w))
  /\ timers_owned (snd (exec env ListedHooks.onError w))
  /\ (forall r, timers_owned (snd (exec env (ListedHooks.forcedRelease None r) w))).
Proof.
  intros H.
  split; [now apply releaseBound_keeps_timers|].
  split; [now apply releaseBound_keeps_timers|].
  split.
  { intros r. revert w H. change (keeps_timers env (PlainHooks.forcedRelease None r)).
    unfold PlainHooks.forcedRelease.
    apply keeps_timers_bind; [apply keeps_timers_Get; intros s; apply keeps_timers_log|intros _].
    apply keeps_timers_bind; [apply plain_release_keeps_timers|intros _; apply keeps_timers_Ret]. }
  split; [apply releaseListed_keeps_timers; [apply listed_release_keeps_timers|exact H]|].
  split; [apply releaseListed_keeps_timers; [apply listed_release_keeps_timers|exact H]|].
  intros r. revert w H. change (keeps_timers env (ListedHooks.forcedRelease None r)).
  unfold ListedHooks.forcedRelease.
  apply keeps_timers_bind; [apply keeps_timers_Get; intros s; apply keeps_timers_log|intros _].
  apply keeps_timers_bind; [apply listed_release_keeps_timers|intros _; apply keeps_timers_Ret].
Qed.

End TimersElsewhere.

Lemma listed_acquired_timers_owned : timers_owned listed_acquired.
Proof. apply listed_getClient_keeps_timers, idle_timers_owned. Qed.

Lemma getClient_keeps_timers_witness :
  timers_owned (start idle)
  /\ timers_owned (snd (exec healthy Plain.getClient (start idle)))
  /\ timers_owned listed_acquired.
Proof.
  split; [exact idle_timers_owned|].
  exact (getClient_keeps_timers healthy (start idle) idle_timers_owned).
Defined.

Lemma hooks_and_callbacks_keep_timers_witness :
  timers_owned listed_acquired
  /\ timers_owned (snd (exec healthy ListedHooks.onSend listed_acquired))
  /\ timers_owned (snd (exec healthy (ListedHooks.forcedRelease None 0) listed_acquired)).
Proof.
  split; [exact listed_acquired_timers_owned|].
  destruct (hooks_and_callbacks_keep_timers healthy "dbClient" listed_acquired
              listed_acquired_timers_owned) as (_ & _ & _ & H1 & _ & H2).
  split; [exact H1 | apply H2].
Defined.

(** ** The timers of the [async] generation, and of [requireDbClient] *)

Section TimersAsync.
Context (env : Env).

Lemma tends_timer_bind t f :
  tends_timer env t -> (forall v, tends_timer env (f v)) -> tends_timer env (bind t f).
Proof.
  intros Ht Hf w. rewrite exec_bind. destruct (Ht w) as (h1 & Hg1 & H1).
  destruct (exec env t w) as [[v|e] w1]; cbn [snd] in *; [|exists h1; auto].
  destruct (Hf v w1) as (h2 & Hg2 & H2). exists (h1 ++ h2).
  split; [eapply grows_trans; eassumption|]. rewrite events_app.
  destruct H1 as [(Hk1 & Hs1)|(Hk1 & Hs1)], H2 as [(Hk2 & Hs2)|(Hk2 & Hs2)].
  - left. split; [intros live; now rewrite fold_left_app, Hk1, Hk2|congruence].
  - right. split; [intros live; now rewrite fold_left_app, Hk1, Hk2, Hs1|exact Hs2].
  - right. split; [intros live; now rewrite fold_left_app, Hk1, Hk2|congruence].
  - right. split; [|exact Hs2].
    intros live. rewrite fold_left_app, Hk1, Hk2, Hs1. reflexivity.
Qed.

Lemma tends_timer_Get k : (forall s, tends_timer env (k s)) -> tends_timer env (Get k).
Proof. intros Hk w. cbn [exec]. apply Hk. Qed.

Lemma tends_timer_Ret v : tends_timer env (Ret v).
Proof. intros w. exists []. split; [apply grows_refl|left; auto]. Qed.

Lemma tends_timer_Throw e : tends_timer env (Throw e).
Proof. intros w. exists []. split; [apply grows_refl|left; auto]. Qed.

Lemma tends_timer_log lvl msg data : tends_timer env (log lvl msg data).
Proof. intros w. rewrite exec_log. eexists. split; [apply grows_did|left; auto]. Qed.

Lemma tends_timer_modify f :
  (forall c, sanityTimeout (f c) = sanityTimeout c) -> tends_timer env (modify f).
Proof.
  intros Hf w. rewrite exec_modify. eexists. split; [apply grows_store|left].
  split; [auto|apply Hf].
Qed.

Lemma tends_timer_clear : tends_timer env clearSanityTimeout.
Proof.
  intros w. unfold clearSanityTimeout. cbn [exec].
  destruct (sanityTimeout (state w)) as [t|] eqn:Hst; cbn [exec modify snd].
  - eexists. split; [grow|]. right. split; reflexivity.
  - exists []. split; [apply grows_refl|left; auto].
Qed.

Lemma tends_timer_native : tends_timer env (Native settled).
Proof.
  intros w. cbn [exec]. rewrite exec_settled. eexists. split; [apply grows_did|left; auto].
Qed.

Lemma tends_timer_query text params : tends_timer env (this_query text params).
Proof.
  intros w.
  destruct (exec_this_query env text params w) as (w' & h & He & Hg & Hev & _ & Hc & _).
  rewrite He. cbn [snd]. exists h. split; [exact Hg|left].
  apply control_fields in Hc. destruct Hc as (_ & Hs & _). split; [|exact Hs].
  intros live. rewrite Hev. cbn [fold_left tick]. apply tick_logs.
  intros e. apply error_logs_are_logs.
Qed.

Lemma tends_timer_method name body :
  tends_timer env body -> tends_timer env (method name body).
Proof.
  intros Hb. unfold method. apply tends_timer_Get. intros s.
  destruct (decide (name ∈ methods s)); [exact Hb|apply tends_timer_Throw].
Qed.

Ltac tend :=
  repeat first
    [ progress cbv beta zeta
    | apply tends_timer_log
    | apply tends_timer_Ret
    | apply tends_timer_Throw
    | apply tends_timer_query
    | apply tends_timer_clear
    | apply tends_timer_modify; intros ?; reflexivity
    | match goal with |- tends_timer _ (if ?b then _ else _) => destruct b end
    | apply tends_timer_bind; [|intros ?]
    | apply tends_timer_Get; intros ? ].

Lemma tends_timer_asyncTryRollback : tends_timer env AsyncTx.asyncTryRollback.
Proof. unfold AsyncTx.asyncTryRollback. tend. Qed.

(** The [async] [release] leaves the timer alone when it does not get past
    the rollback, and cancels it otherwise. *)
Lemma tends_timer_async_release m : tends_timer env (AsyncTx.call_release m).
Proof.
  induction m as [|old IH]; cbn [AsyncTx.call_release]; [apply tends_timer_native|].
  apply tends_timer_Get. intros s.
  apply tends_timer_bind; [apply tends_timer_log|intros _].
  apply tends_timer_bind;
    [apply tends_timer_method, tends_timer_asyncTryRollback|intros _].
  apply tends_timer_bind; [apply tends_timer_modify; intros c; reflexivity|intros _].
  apply tends_timer_bind; [apply tends_timer_clear|intros _; exact IH].
Qed.

Lemma tends_timer_keeps r t : tends_timer env t -> keeps_timers env (on_client r t).
Proof.
  intros Ht w H. destruct (Ht (view r w)) as (hc & Hg & Hcase).
  destruct (exec env t (view r w)) as [o wc'] eqn:He. cbn [snd] in *.
  destruct (from_handler env r t w o wc' hc He Hg) as (w' & h & He' & Hg' & Hev & Hs & Hap).
  rewrite He'. cbn [snd]. change (state (view r w)) with (client_at r (state w)) in Hcase.
  destruct Hcase as [(Hk & Hst)|(Hk & Hst)].
  - apply (timers_owned_quiet w w' h Hg'); [intros live; rewrite Hev; apply Hk| |exact H].
    intros r'. destruct (Nat.eq_dec r' r) as [->|Hne]; [now rewrite Hs|].
    now rewrite (apart_client_at _ _ _ _ Hap Hne).
  - apply (timers_owned_cancel r w w' h Hg'); [intros live; rewrite Hev; apply Hk| | |exact H].
    + now rewrite Hs.
    + intros r' Hne. exact (apart_client_at _ _ _ _ Hap Hne).
Qed.

Lemma async_release_keeps_timers r : keeps_timers env (on_client r AsyncTx.this_release).
Proof.
  apply tends_timer_keeps. unfold AsyncTx.this_release. apply tends_timer_Get. intros s.
  apply tends_timer_async_release.
Qed.

Lemma async_releaseListed_keeps_timers : keeps_timers env AsyncTxHooks.releaseListed.
Proof.
  unfold AsyncTxHooks.releaseListed. apply keeps_timers_Get. intros s.
  apply keeps_timers_bind; [|intros _; apply keeps_timers_assign].
  destruct (request s !! "dbClients") as [[v|vs]|]; [| |apply keeps_timers_Ret].
  - destruct (truthy v && greater_than_zero (length_of v)); [|apply keeps_timers_Ret].
    apply keeps_timers_bind; [apply keeps_timers_log|intros _; apply keeps_timers_Throw].
  - destruct (0 <? Z.of_nat (length vs))%Z; [|apply keeps_timers_Ret].
    apply keeps_timers_bind; [apply keeps_timers_log|intros _].
    apply forEach_keeps_timers. intros v.
    apply release_of_keeps_timers, async_release_keeps_timers.
Qed.

Lemma keeps_timers_Emit e k :
  (forall live, tick live e = live) -> keeps_timers env k -> keeps_timers env (Emit e k).
Proof.
  intros He Hk w H. cbn [exec]. apply Hk.
  apply (timers_owned_quiet w _ [Did e] (grows_did _ _));
    [intros live; apply He|intros r; reflexivity|exact H].
Qed.

Lemma rememberClient_keeps_timers client : keeps_timers env (rememberClient client).
Proof.
  unfold rememberClient. apply keeps_timers_Get. intros s.
  destruct (request s !! "dbClients") as [[v|vs]|]; try apply keeps_timers_assign.
  destruct (truthy v); [apply keeps_timers_Throw|apply keeps_timers_assign].
Qed.

Lemma acquire_keeps patch ms :
  (forall c, sanityTimeout (patch c) = sanityTimeout c) ->
  keeps_timers env (acquire patch ms).
Proof. intros Hp w H. now apply acquire_keeps_timers. Qed.

(** X26.  The hook [requireDbClient] of each of the four generations keeps
    the timers and the clients in agreement, whatever the pool answers,
    whatever the client carries and whatever is on the request, with the
    cleanup plugin and without it, also when the hook throws after it has
    acquired the client. *)
Theorem requireDbClient_keeps_timers name addCleanupWork (w : World Server) :
  timers_owned w ->
  timers_owned (snd (exec env (Plain.requireDbClient name) w))
  /\ timers_owned (snd (exec env (Listed.requireDbClient name) w))
  /\ timers_owned (snd (exec env (TxHandler.requireDbClient addCleanupWork name) w))
  /\ timers_owned (snd (exec env (AsyncTxHooks.requireDbClient addCleanupWork name) w)).
Proof.
  intros H. split; [|split; [|split]]; revert w H.
  - change (keeps_timers env (Plain.requireDbClient name)). unfold Plain.requireDbClient.
    apply keeps_timers_bind; [apply plain_getClient_keeps_timers|intros client].
    apply keeps_timers_bind; [apply keeps_timers_assign|intros _; apply keeps_timers_Ret].
  - change (keeps_timers env (Listed.requireDbClient name)). unfold Listed.requireDbClient.
    apply keeps_timers_bind; [apply listed_getClient_keeps_timers|intros client].
    apply keeps_timers_bind; [apply keeps_timers_assign|intros _].
    apply keeps_timers_bind; [apply rememberClient_keeps_timers|intros _; apply keeps_timers_Ret].
  - change (keeps_timers env (TxHandler.requireDbClient addCleanupWork name)).
    unfold TxHandler.requireDbClient. rewrite getClientUnsafe_is_acquire.
    apply keeps_timers_bind;
      [apply acquire_keeps; intros c; apply patchClient_fields|intros client].
    apply keeps_timers_bind; [apply keeps_timers_assign|intros _].
    apply keeps_timers_bind; [|intros _; apply keeps_timers_Ret].
    destruct addCleanupWork; [|apply rememberClient_keeps_timers].
    apply keeps_timers_Emit; [reflexivity|apply keeps_timers_Ret].
  - change (keeps_timers env (AsyncTxHooks.requireDbClient addCleanupWork name)).
    unfold AsyncTxHooks.requireDbClient. rewrite async_getClientUnsafe_is_acquire.
    apply keeps_timers_bind;
      [apply acquire_keeps; intros c; apply async_patchClient_fields|intros client].
    apply keeps_timers_bind; [apply keeps_timers_assign|intros _].
    apply keeps_timers_bind; [|intros _; apply keeps_timers_Ret].
    destruct addCleanupWork; [|apply rememberClient_keeps_timers].
    apply keeps_timers_Emit; [reflexivity|apply keeps_timers_Ret].
Qed.

(** X27.  The hooks [onSend] and [onError] of part_000's [async]
    generation and the work that its [requireDbClient] registers for the
    cleanup plugin keep the timers and the clients in agreement, whatever
    is on the request, whatever the clients carry and whatever the
    database and the pool's release answer, also when the awaited rollback
    rejects and [release] ends before it gets to the timer. *)
Theorem async_releases_keep_timers (w : World Server) :
  timers_owned w ->
  timers_owned (snd (exec env AsyncTxHooks.onSend w))
  /\ timers_owned (snd (exec env AsyncTxHooks.onError w))
  /\ (forall client, timers_owned (snd (exec env (AsyncTxHooks.cleanupWork client) w))).
Proof.
  intros H.
  split; [now apply async_releaseListed_keeps_timers|].
  split; [now apply async_releaseListed_keeps_timers|].
  intros client. revert w H. change (keeps_timers env (AsyncTxHooks.cleanupWork client)).
  unfold AsyncTxHooks.cleanupWork.
  apply keeps_timers_bind; [|intros _; apply keeps_timers_Ret].
  apply release_of_keeps_timers, async_release_keeps_timers.
Qed.

End TimersAsync.

Lemma async_acquired_timers_owned : timers_owned async_acquired.
Proof.
  unfold async_acquired. rewrite async_getClientUnsafe_is_acquire.
  apply acquire_keeps_timers; [intros c; apply async_patchClient_fields|].
  exact idle_timers_owned.
Qed.

Lemma requireDbClient_keeps_timers_witness :
  timers_owned (start idle) /\ timers_owned plain_served /\ timers_owned served.
Proof.
  split; [exact idle_timers_owned|].
  destruct (requireDbClient_keeps_timers healthy "dbClient" false (start idle)
              idle_timers_owned) as (H1 & _ & H3 & _).
  split; [exact H1 | exact H3].
Defined.

Lemma async_releases_keep_timers_witness :
  timers_owned async_acquired
  /\ timers_owned (snd (exec healthy AsyncTxHooks.onSend async_acquired))
  /\ timers_owned (snd (exec healthy (AsyncTxHooks.cleanupWork (VRef 0)) async_acquired)).
Proof.
  split; [exact async_acquired_timers_owned|].
  destruct (async_releases_keep_timers healthy async_acquired async_acquired_timers_owned)
    as (H1 & _ & H3).
  split; [exact H1 | apply H3].
Defined.
